(** * ethereum-worker: the confirmed-native "extra" deposit scanner

    A shallow embedding of [src/confirmed-native-extra-solution-2.ts]
    ([runConfirmedNativeTokenExtraWorker]) and the properties of its
    Explorer Client, Verifier and Scan Engine.

    Conventions.
    - JavaScript values that reach the schema validator are [JsValue]s.
    - Wei amounts, gas fields, block numbers and block timestamps are
      unsigned quantities ([N]); [Date] time values are [Z] milliseconds.
    - An [async] function is a function from the credit sink's state to a
      completion, the new state and the trace of effects ([Async]).
    - The page loop is a [while] loop: it is given fuel, and running out
      of fuel is the completion [Running], which is neither a return nor a
      rejection.
    - The Scan Engine is stated over the page fetch it calls
      ([explorer]); [runScanByOrderId] is the engine with
      [getEtherScanTxListForAddress]. The node provider and the order
      table are those of the [AppContext]; they answer every request
      and do not change during a scan.
    - The mappers [pMap] runs concurrently are run one after the other:
      the order of the events of different candidates in a trace is that
      of this one schedule. *)

From Stdlib Require Import ZArith NArith List String Ascii Bool Lia.
From Stdlib Require Import Permutation.
Import ListNotations.
Local Open Scope string_scope.

(** ** Strings *)

Module Str.

Definition is_upper (c : ascii) : bool :=
  let n := nat_of_ascii c in (65 <=? n)%nat && (n <=? 90)%nat.

Definition lower_char (c : ascii) : ascii :=
  if is_upper c then ascii_of_nat (nat_of_ascii c + 32) else c.

(** [String.prototype.toLowerCase], on the ASCII range (addresses are
    hexadecimal text). *)
Fixpoint toLowerCase (s : string) : string :=
  match s with
  | EmptyString => EmptyString
  | String c r => String (lower_char c) (toLowerCase r)
  end.

(** A string is falsy exactly when it is empty. *)
Definition truthy (s : string) : bool :=
  match s with EmptyString => false | _ => true end.

Fixpoint repeat0 (k : nat) : string :=
  match k with O => "" | S k' => String "0" (repeat0 k') end.

End Str.

(** ** Decimal and hexadecimal text *)

Module Dec.

Definition digit_char (d : N) : ascii :=
  ascii_of_N (48 + d).

Definition char_digit (c : ascii) : option N :=
  let n := N_of_ascii c in
  if (48 <=? n)%N && (n <=? 57)%N then Some (n - 48)%N else None.

Definition char_hexdigit (c : ascii) : option N :=
  let n := N_of_ascii c in
  if (48 <=? n)%N && (n <=? 57)%N then Some (n - 48)%N
  else if (97 <=? n)%N && (n <=? 102)%N then Some (n - 87)%N
  else if (65 <=? n)%N && (n <=? 70)%N then Some (n - 55)%N
  else None.

(** Digits are produced least significant first and pushed in front of
    the accumulator, as a base-10 [toString] does. *)
Fixpoint to_string_aux (fuel : nat) (n : N) (acc : string) : string :=
  let acc' := String (digit_char (n mod 10)) acc in
  match fuel with
  | O => acc'
  | S fuel' =>
      if (n / 10 =? 0)%N then acc' else to_string_aux fuel' (n / 10) acc'
  end.

(** [BigNumber.prototype.toString()]: the decimal text of a quantity. *)
Definition toString (n : N) : string :=
  to_string_aux (N.to_nat (N.size n)) n "".

(** Number of digits [to_string_aux] writes. *)
Fixpoint ndigits (fuel : nat) (n : N) : nat :=
  match fuel with
  | O => 1
  | S fuel' => if (n / 10 =? 0)%N then 1%nat else S (ndigits fuel' (n / 10))
  end.

(** Value of a run of base-[b] digits read left to right; [None] when a
    character is not a digit of the base. *)
Fixpoint value_acc (digit : ascii -> option N) (b : N) (acc : N)
  (s : string) : option N :=
  match s with
  | EmptyString => Some acc
  | String c r =>
      match digit c with
      | Some d => value_acc digit b (acc * b + d)%N r
      | None => None
      end
  end.

(** [/^[0-9]+$/] *)
Definition parse_decimal (s : string) : option N :=
  match s with
  | EmptyString => None
  | _ => value_acc char_digit 10 0 s
  end.

(** [/^0x[0-9a-f]+$/i] *)
Definition parse_hex (s : string) : option N :=
  match s with
  | String z (String x r) =>
      if (Ascii.eqb z "0" && (Ascii.eqb x "x" || Ascii.eqb x "X"))%bool then
        match r with
        | EmptyString => None
        | _ => value_acc char_hexdigit 16 0 r
        end
      else None
  | _ => None
  end.

End Dec.

(** ** ethers: [BigNumber] and [formatEther] *)

Module Ethers.

(** A [BigNumber] keeps the hexadecimal text [toHex] makes of its
    argument. It is held here as the number that text reads as, or as
    [Unreadable] when [bn.js] rejects the text: [toHex] only knows the
    lower-case prefix, so it puts [0x] in front of a text that starts
    with [0X] and the [X] stays among the digits. *)
Inductive BigNumber : Type :=
| Holds (z : Z)
| Unreadable.

(** [value.substring(0, 2) === "0x"] *)
Definition lowerPrefix (s : string) : bool :=
  match s with
  | String z (String x _) => (Ascii.eqb z "0" && Ascii.eqb x "x")%bool
  | _ => false
  end.

Definition signed (negative : bool) (n : N) : Z :=
  if negative then (- Z.of_N n)%Z else Z.of_N n.

(** The text after the sign: the hexadecimal pattern is tried first,
    then the decimal one. *)
Definition fromUnsigned (negative : bool) (body : string)
  : option BigNumber :=
  match Dec.parse_hex body with
  | Some n =>
      Some (if lowerPrefix body then Holds (signed negative n) else Unreadable)
  | None =>
      match Dec.parse_decimal body with
      | Some n => Some (Holds (signed negative n))
      | None => None
      end
  end.

(** [BigNumber.from(string)]: accepts [/^-?0x[0-9a-f]+$/i] and
    [/^-?[0-9]+$/]; anything else throws ([None]). *)
Definition from_text (text : string) : option BigNumber :=
  match text with
  | String c r =>
      if Ascii.eqb c "-" then fromUnsigned true r else fromUnsigned false text
  | EmptyString => None
  end.

(** [toBN]: the number a [BigNumber] holds, read by [gt], [lt], [mod],
    [div] and [toString] alike; [None] when [bn.js] throws on the text. *)
Definition toBN (b : BigNumber) : option Z :=
  match b with
  | Holds z => Some z
  | Unreadable => None
  end.

(** [BigNumber.from(text)] read as a number, as [gt(0)] and
    [formatEther] do at once: [None] when [from] throws on the text, and
    when the first reading of the value throws. *)
Definition BigNumber_from (s : string) : option Z :=
  match from_text s with
  | Some b => toBN b
  | None => None
  end.

(** The fraction is padded on the left with zeros to the width of the
    multiplier's zeros. *)
Definition padFraction (width : nat) (fraction : string) : string :=
  Str.repeat0 (width - String.length fraction) ++ fraction.

(** The first group of the trailing-zero pattern of [formatFixed]
    (any digits ending in a non-zero digit, or else a single zero): the
    text up to its last non-zero digit. *)
Fixpoint stripZeros (s : string) : string :=
  match s with
  | EmptyString => EmptyString
  | String c r =>
      match stripZeros r with
      | EmptyString => if Ascii.eqb c "0" then EmptyString else String c EmptyString
      | r' => String c r'
      end
  end.

Definition fractionGroup (s : string) : string :=
  match stripZeros s with
  | EmptyString => "0"
  | r => r
  end.

Definition etherDecimals : nat := 18.
Definition multiplier : N := 10 ^ 18.

(** [formatFixed(value, 18)] on a non-negative value: the whole part
    and the fraction that are then joined by ["."]. *)
Definition formatParts (v : N) : string * string :=
  let fraction := Dec.toString (v mod multiplier) in
  let fraction := padFraction etherDecimals fraction in
  let fraction := fractionGroup fraction in
  let whole := Dec.toString (v / multiplier) in
  (whole, fraction).

Definition formatUnsigned (v : N) : string :=
  let '(whole, fraction) := formatParts v in
  whole ++ "." ++ fraction.

(** [ethers.utils.formatEther] of a [BigNumber]. *)
Definition formatEtherZ (v : Z) : string :=
  if (v <? 0)%Z then "-" ++ formatUnsigned (Z.to_N (- v))
  else formatUnsigned (Z.to_N v).

Definition formatEther (v : N) : string := formatEtherZ (Z.of_N v).

(** [ethers.utils.formatEther] of a string: [BigNumber.from] first,
    which throws on text that is not an integer, then the readings of
    [formatFixed]. *)
Definition formatEtherString (s : string) : option string :=
  option_map formatEtherZ (BigNumber_from s).

(** The text before and after the first ["."]. *)
Fixpoint splitDot (s : string) : option (string * string) :=
  match s with
  | EmptyString => None
  | String c r =>
      if Ascii.eqb c "."
      then Some (EmptyString, r)
      else
        match splitDot r with
        | Some (w, f) => Some (String c w, f)
        | None => None
        end
  end.

(** The number of wei a decimal ether amount [whole.fraction] stands
    for: the reading of the amount the credit call is given. *)
Definition weiOfEther (s : string) : option N :=
  match splitDot s with
  | Some (w, f) =>
      match Dec.parse_decimal w, Dec.parse_decimal f with
      | Some wn, Some fn =>
          if (String.length f <=? etherDecimals)%nat
          then Some (wn * multiplier
                     + fn * 10 ^ N.of_nat (etherDecimals - String.length f))%N
          else None
      | _, _ => None
      end
  | None => None
  end.

End Ethers.

Local Open Scope list_scope.

(** ** JavaScript values seen by the schema validator *)

#[local] Set Warnings "-register-all".

Inductive JsValue : Type :=
| JUndefined
| JNull
| JBool (b : bool)
| JNum (z : Z)
| JStr (s : string)
| JArr (items : list JsValue)
| JObj (fields : list (string * JsValue)).

(** Property read [o.k]: [undefined] when the property is absent. *)
Fixpoint getProp (k : string) (fields : list (string * JsValue)) : JsValue :=
  match fields with
  | [] => JUndefined
  | (k', v) :: rest => if String.eqb k k' then v else getProp k rest
  end.

Inductive JsError : Type :=
| ZodError
| AxiosError (message : string)
| AssertionError (message : string)
| TypeError (message : string)
| BigNumberError (message : string)
| Error (message : string).

(** A settled promise of a call that has no effect on the credit sink. *)
Inductive Settled (A : Type) : Type :=
| Fulfilled (a : A)
| Rejected (e : JsError).
Arguments Fulfilled {A} a.
Arguments Rejected {A} e.

(** ** Data model *)

(** One record of the explorer listing, as [accountTxListResultSchema]
    yields it. The field [from] is written [from_]. *)
Record EtherscanTx : Type := mkEtherscanTx {
  es_hash : string;
  es_from : string;
  es_to : string;
  es_value : string
}.

Record DepositAddress : Type := mkDepositAddress {
  address : string
}.

(** The [Order] entity, with the columns the worker reads. [createdAt]
    is the time value of the stored [Date], in milliseconds. *)
Record Order : Type := mkOrder {
  id : string;
  depositMethod : string;
  depositAddress : option DepositAddress;
  createdAt : Z;
  createdAtBlockNumber : option N
}.

(** [ethers] [TransactionResponse]: [blockHash], [blockNumber], [to] and
    [gasPrice] are optional. *)
Record Transaction : Type := mkTransaction {
  hash : string;
  blockHash : option string;
  blockNumber : option N;
  from_ : string;
  to : option string;
  value : N;
  gasLimit : N;
  gasPrice : option N
}.

Record Block : Type := mkBlock {
  timestamp : N
}.

Record DepositMethod : Type := mkDepositMethod {
  method_id : string;
  asset : string
}.

(** The query string of the explorer request. *)
Record TxListRequest : Type := mkTxListRequest {
  rq_module : string;
  rq_action : string;
  rq_address : string;
  rq_startblock : option N;
  rq_page : N;
  rq_offset : N;
  rq_sort : string;
  rq_apikey : string
}.

(** What [axios.get] resolves to. *)
Record AxiosResponse : Type := mkAxiosResponse {
  data : JsValue;
  status : Z;
  statusText : string;
  headers : JsValue;
  config : JsValue;
  request : JsValue
}.

(** The response object as the JavaScript value it is. *)
Definition AxiosResponse_value (res : AxiosResponse) : JsValue :=
  JObj [ ("data", data res);
         ("status", JNum (status res));
         ("statusText", JStr (statusText res));
         ("headers", headers res);
         ("config", config res);
         ("request", request res) ].

(** The arguments of [maybeInternalCreateDeposit]. *)
Record CreateDeposit : Type := mkCreateDeposit {
  cd_orderId : string;
  cd_txid : string;
  cd_amount : string;
  cd_uniqueId : string
}.

(** The destructured [context]: configuration, the order table, the
    node provider and the network behind [axios], with the imported
    [getEthereumNativeDepositUniqueId]. *)
Record AppContext : Type := mkAppContext {
  etherscanApiKey : string;
  account : string;
  nativeMethod : DepositMethod;
  db : list Order;
  getTransaction : string -> option Transaction;
  getBlock : N -> option Block;
  axios_get : TxListRequest -> Settled AxiosResponse;
  getEthereumNativeDepositUniqueId : DepositMethod -> string -> string
}.

(** ** Effects *)

Inductive LogLevel : Type := info | warn | error.

Inductive LogLine : Type :=
| EtherscanNotConfigured
| ProcessingQueuedTask (orderId : string)
| OrderNotFound (orderId : string)
| OrderHasNoDepositAddress (orderId : string)
| ErrorFetchingTxs (orderId : string) (e : JsError)
| FoundTransactions (count : nat) (orderId : string)
| TransactionNotFound (txhash : string)
| TransactionHasNoBlockNumber (txhash : string)
| IgnoringTxBeforeOrder (txhash : string) (orderId : string)
| ScanningTx (txhash : string)
| StoredDeposit (txhash : string) (valueAsEther : string) (asset : string)
    (orderId : string).

Inductive Event : Type :=
| Log (level : LogLevel) (line : LogLine)
| FetchPage (address : string) (startblock : option N) (page : N)
| NodeGetTransaction (txhash : string)
| NodeGetBlock (number : N)
| Credit (args : CreateDeposit) (applied : bool).

(** The deposits the Credit Sink holds. *)
Definition Sink : Type := list CreateDeposit.

Inductive Completion (A : Type) : Type :=
| Returned (a : A)
| Threw (e : JsError)
| Running.
Arguments Returned {A} a.
Arguments Threw {A} e.
Arguments Running {A}.

Definition Async (A : Type) : Type :=
  Sink -> Completion A * Sink * list Event.

Definition ret {A} (a : A) : Async A := fun s => (Returned a, s, []).

Definition throw {A} (e : JsError) : Async A := fun s => (Threw e, s, []).

Definition emit (ev : Event) : Async unit := fun s => (Returned tt, s, [ev]).

Definition bind {A B} (m : Async A) (k : A -> Async B) : Async B :=
  fun s =>
    match m s with
    | (Returned a, s1, t1) =>
        let '(r, s2, t2) := k a s1 in (r, s2, t1 ++ t2)
    | (Threw e, s1, t1) => (Threw e, s1, t1)
    | (Running, s1, t1) => (Running, s1, t1)
    end.

Declare Scope async_scope.
Delimit Scope async_scope with async.
Notation "x <- m ;; k" := (bind m (fun x => k))
  (at level 61, m at next level, right associativity) : async_scope.
Notation "m ;; k" := (bind m (fun _ => k))
  (at level 61, right associativity) : async_scope.
Local Open Scope async_scope.

Definition logger (level : LogLevel) (line : LogLine) : Async unit :=
  emit (Log level line).

Definition completion {A} (r : Completion A * Sink * list Event) : Completion A :=
  fst (fst r).
Definition sink_after {A} (r : Completion A * Sink * list Event) : Sink :=
  snd (fst r).
Definition trace {A} (r : Completion A * Sink * list Event) : list Event :=
  snd r.

(** Modelled from the spec: the Credit Sink behind
    [graphQLClient.maybeInternalCreateDeposit] is an external service;
    its contract is [creditIfAbsent]: the record is applied unless one
    with the same dedup key exists, and the answer tells which. *)
Definition has_key (k : string) (s : Sink) : bool :=
  existsb (fun r => String.eqb (cd_uniqueId r) k) s.

Definition maybeInternalCreateDeposit (args : CreateDeposit) : Async bool :=
  fun s =>
    if has_key (cd_uniqueId args) s
    then (Returned false, s, [Credit args false])
    else (Returned true, args :: s, [Credit args true]).

(** [pMap(items, mapper)] with the default options: the concurrency is
    unbounded, so every mapper is started, in the order of the items,
    before any awaited answer arrives, and none is cancelled; the promise
    rejects with the first failure. The mappers then run concurrently.
    One schedule is kept here: each mapper runs to its end before the
    next one. A mapper reads and writes the sink in one call, so the
    schedule decides the order in which the events of different mappers
    appear in the trace and which of two calls with one key is the one
    applied, and nothing else. *)
Fixpoint pMap {A} (mapper : A -> Async unit) (items : list A) : Async unit :=
  match items with
  | [] => ret tt
  | x :: rest =>
      fun s =>
        let '(r1, s1, t1) := mapper x s in
        let '(r2, s2, t2) := pMap mapper rest s1 in
        (match r1 with
         | Returned _ => r2
         | _ => r1
         end, s2, t1 ++ t2)
  end.

(** ** bignumber.js wrapper *)

Module ns.

(** Modelled from the spec: [ns] is the wrapper of bignumber.js imported
    from the shared package; it carries out exact arithmetic on
    decimal strings. Text that is not a number gives ["NaN"]. *)
Definition lift2 (f : N -> N -> N) (a b : string) : string :=
  match Dec.parse_decimal a, Dec.parse_decimal b with
  | Some x, Some y => Dec.toString (f x y)
  | _, _ => "NaN"
  end.

Definition sum : string -> string -> string := lift2 N.add.
Definition times : string -> string -> string := lift2 N.mul.

End ns.

(** ** Dates *)

Module JsDate.

(** Largest magnitude of a time value; beyond it the [Date] is invalid. *)
Definition maxTime : Z := 8640000000000000.

(** [new Date(v).getTime()] for an integral [v]: [None] stands for [NaN]. *)
Definition getTime (v : Z) : option Z :=
  if (Z.abs v <=? maxTime)%Z then Some v else None.

(** [a < b] on numbers: false as soon as one side is [NaN]. *)
Definition lt (a b : option Z) : bool :=
  match a, b with
  | Some x, Some y => (x <? y)%Z
  | _, _ => false
  end.

End JsDate.

(** ** Explorer Client *)

Module Zod.

(** [z.string()] *)
Definition string (v : JsValue) : option String.string :=
  match v with
  | JStr s => Some s
  | _ => None
  end.

(** [z.object({ hash, from, to, value })], every field a [z.string()];
    unknown keys are dropped. *)
Definition summary (v : JsValue) : option EtherscanTx :=
  match v with
  | JObj fields =>
      match string (getProp "hash" fields), string (getProp "from" fields),
            string (getProp "to" fields), string (getProp "value" fields) with
      | Some h, Some f, Some t, Some x => Some (mkEtherscanTx h f t x)
      | _, _, _, _ => None
      end
  | _ => None
  end.

(** [z.array(item)] on the elements of an array. *)
Fixpoint items {A} (item : JsValue -> option A) (l : list JsValue)
  : option (list A) :=
  match l with
  | [] => Some []
  | v :: rest =>
      match item v, items item rest with
      | Some a, Some r => Some (a :: r)
      | _, _ => None
      end
  end.

End Zod.

(** [accountTxListResultSchema.parse] *)
Definition accountTxListResultSchema_parse (v : JsValue)
  : Settled (list EtherscanTx) :=
  match v with
  | JArr l =>
      match Zod.items Zod.summary l with
      | Some txs => Fulfilled txs
      | None => Rejected ZodError
      end
  | _ => Rejected ZodError
  end.

Definition pageSize : N := 100.

Inductive ScanOutcome : Type :=
| OrderMissing
| NoDepositAddress
| Aborted
| Exhausted.

Section Worker.

Variable ctx : AppContext.

Definition depositMethodId : string := method_id (nativeMethod ctx).

Definition txlistRequest (address : string) (startblock : option N)
  (page : N) : TxListRequest :=
  mkTxListRequest "account" "txlist" address startblock page pageSize
    "desc" (etherscanApiKey ctx).

(** [axios.get(url).then(res => accountTxListResultSchema.parse(res))]:
    a rejected request rejects the call; otherwise the value given to the
    schema is [res], the response object. *)
Definition getEtherScanTxListForAddress (address : string)
  (startblock : option N) (page : N) : Settled (list EtherscanTx) :=
  match axios_get ctx (txlistRequest address startblock page) with
  | Rejected e => Rejected e
  | Fulfilled res => accountTxListResultSchema_parse (AxiosResponse_value res)
  end.

(** ** Verifier *)

Definition hasAddress (a : string) (o : Order) : bool :=
  match depositAddress o with
  | Some d => String.eqb (address d) a
  | None => false
  end.

(** The query of [fetchOrderForAddress]: one order of the native deposit
    method whose stored deposit address is [a], if there is any. *)
Definition fetchOrderForAddress (a : string) : option Order :=
  find (fun o => String.eqb (depositMethod o) depositMethodId && hasAddress a o)
    (db ctx).

(** [scanTxid]. For a [Transaction], [typeof tx] is ['object'] and
    [typeof txid] is ['string'], so these two tests never fail;
    [assert(tx.from)] fails on an empty sender; [!tx.to] holds for a
    missing or empty recipient; [!+tx.value] holds exactly for the value
    zero. *)
Definition scanTxid (tx : Transaction) : Async bool :=
  if negb (Str.truthy (from_ tx)) then throw (AssertionError "from missing")
  else
    let txid := hash tx in
    match blockHash tx with
    | None => throw (Error "blockHash must be string")
    | Some _ =>
        match to tx with
        | None => ret false
        | Some recipient =>
            if negb (Str.truthy recipient) then ret false
            else if negb (String.eqb (Str.toLowerCase recipient)
                            (Str.toLowerCase (account ctx)))
            then ret false
            else if (value tx =? 0)%N then ret false
            else
              match gasPrice tx with
              | None => throw (Error "Unsupported EIP-1559 sweep transaction")
              | Some price =>
                  let total :=
                    ns.sum (Dec.toString (value tx))
                      (ns.times (Dec.toString (gasLimit tx))
                         (Dec.toString price)) in
                  match fetchOrderForAddress (from_ tx) with
                  | None => ret false
                  | Some order =>
                      let valueAsEther := Ethers.formatEther (value tx) in
                      match Ethers.formatEtherString total with
                      | None => throw (BigNumberError "invalid BigNumber string")
                      | Some totalAsEther =>
                          wasCredited <-
                            maybeInternalCreateDeposit
                              (mkCreateDeposit (id order) txid totalAsEther
                                 (getEthereumNativeDepositUniqueId ctx
                                    (nativeMethod ctx) (hash tx))) ;;
                          if negb wasCredited then ret false
                          else
                            logger info
                              (StoredDeposit (hash tx) valueAsEther
                                 (asset (nativeMethod ctx)) (id order)) ;;
                            ret true
                      end
                  end
              end
        end
    end.

(** ** Scan Engine *)

Section Engine.

(** The page fetch the loop calls; the worker passes
    [getEtherScanTxListForAddress]. *)
Variable explorer :
  string -> option N -> N -> Settled (list EtherscanTx).

(** The mapper given to [pMap]. [!ethersTx.blockNumber] holds for a
    missing block number and for block 0; reading [block.timestamp] of a
    block the node does not have is a [TypeError]. *)
Definition verifyCandidate (order : Order) (orderId : string)
  (etherscanTx : EtherscanTx) : Async unit :=
  emit (NodeGetTransaction (es_hash etherscanTx)) ;;
  match getTransaction ctx (es_hash etherscanTx) with
  | None => logger error (TransactionNotFound (es_hash etherscanTx))
  | Some ethersTx =>
      match blockNumber ethersTx with
      | None | Some 0%N =>
          logger warn (TransactionHasNoBlockNumber (es_hash etherscanTx))
      | Some number =>
          emit (NodeGetBlock number) ;;
          match getBlock ctx number with
          | None => throw (TypeError "Cannot read properties of null")
          | Some block =>
              let timestamp := (Z.of_N (timestamp block) * 1000)%Z in
              if JsDate.lt (JsDate.getTime timestamp)
                   (JsDate.getTime (createdAt order))
              then
                logger warn
                  (IgnoringTxBeforeOrder (es_hash etherscanTx) orderId)
              else
                logger info (ScanningTx (es_hash etherscanTx)) ;;
                _ <- scanTxid ethersTx ;;
                ret tt
          end
      end
  end.

(** [txs.filter(tx => ethers.BigNumber.from(tx.value).gt(0))]:
    [None] when, on some value, [BigNumber.from] throws or [gt] cannot
    read the number (an upper-case [0X] prefix); the filter stops there
    and keeps nothing. *)
Fixpoint filterPositive (txs : list EtherscanTx)
  : option (list EtherscanTx) :=
  match txs with
  | [] => Some []
  | tx :: rest =>
      match Ethers.BigNumber_from (es_value tx) with
      | None => None
      | Some v =>
          match filterPositive rest with
          | None => None
          | Some kept => Some (if (0 <? v)%Z then tx :: kept else kept)
          end
      end
  end.

(** The [else] branch of the loop body: filter, cap, verify. *)
Definition processPage (order : Order) (orderId : string)
  (txs : list EtherscanTx) : Async unit :=
  match filterPositive txs with
  | None => throw (BigNumberError "invalid BigNumber string")
  | Some txs =>
      let txs := firstn 10 txs in
      logger info (FoundTransactions (List.length txs) orderId) ;;
      pMap (verifyCandidate order orderId) txs
  end.

(** [while (hasMorePages)], from [currentPage] on. *)
Fixpoint pageLoop (fuel : nat) (order : Order) (deposit : DepositAddress)
  (orderId : string) (currentPage : N) : Async ScanOutcome :=
  match fuel with
  | O => fun s => (Running, s, [])
  | S fuel' =>
      emit (FetchPage (address deposit) (createdAtBlockNumber order)
              currentPage) ;;
      match explorer (address deposit) (createdAtBlockNumber order)
              currentPage with
      | Rejected e =>
          logger error (ErrorFetchingTxs orderId e) ;;
          ret Aborted
      | Fulfilled txs =>
          if (List.length txs =? 0)%nat then ret Exhausted
          else
            processPage order orderId txs ;;
            pageLoop fuel' order deposit orderId (currentPage + 1)%N
      end
  end.

(** [db.getRepository(Order).findOneBy({ id: orderId })], when the
    order table answers. *)
Definition findOneBy (orderId : string) : option Order :=
  find (fun o => String.eqb (id o) orderId) (db ctx).

(** The callback given to [queue.run]: one order's scan. The value
    returned names the [return] that ended it. *)
Definition scanOrder (fuel : nat) (orderId : string) : Async ScanOutcome :=
  logger info (ProcessingQueuedTask orderId) ;;
  match findOneBy orderId with
  | None =>
      logger error (OrderNotFound orderId) ;;
      ret OrderMissing
  | Some order =>
      match depositAddress order with
      | None =>
          logger error (OrderHasNoDepositAddress orderId) ;;
          ret NoDepositAddress
      | Some deposit => pageLoop fuel order deposit orderId 1
      end
  end.

(** The same callback when the order table may fail to answer:
    [queryFailure] is the rejection of the awaited order query, if any.
    The query is awaited outside any [try], so its rejection is the
    callback's. *)
Definition scanOrderOn (queryFailure : option JsError) (fuel : nat)
  (orderId : string) : Async ScanOutcome :=
  match queryFailure with
  | Some e =>
      logger info (ProcessingQueuedTask orderId) ;;
      throw e
  | None => scanOrder fuel orderId
  end.

(** [runScanByOrderId] with the queue delivering [orderId]:
    [None] when scanning is not configured. *)
Definition scanQueued (fuel : nat) (orderId : string)
  : Async (option ScanOutcome) :=
  if negb (Str.truthy (etherscanApiKey ctx)) then
    logger error EtherscanNotConfigured ;;
    ret None
  else
    outcome <- scanOrder fuel orderId ;;
    ret (Some outcome).

End Engine.

Definition runScanByOrderId (fuel : nat) (orderId : string)
  : Async (option ScanOutcome) :=
  scanQueued getEtherScanTxListForAddress fuel orderId.

(** The worker builds its closures and awaits [runScanByOrderId]. *)
Definition runConfirmedNativeTokenExtraWorker (fuel : nat) (orderId : string)
  : Async (option ScanOutcome) :=
  runScanByOrderId fuel orderId.

End Worker.

(** ** Scenarios *)

Module Scenario.

Definition ether : DepositMethod := mkDepositMethod "ethereum" "ETH".

Definition uniqueId (m : DepositMethod) (txhash : string) : string :=
  (method_id m ++ "/" ++ txhash)%string.

(** Created at 2023-11-14T22:13:20Z, at height 100. *)
Definition order1 : Order :=
  mkOrder "order-1" "ethereum" (Some (mkDepositAddress "0xd1"))
    1700000000000 (Some 100%N).

(** An earlier order that still holds the same deposit address. *)
Definition order0 : Order :=
  mkOrder "order-0" "ethereum" (Some (mkDepositAddress "0xd1"))
    1500000000000 (Some 10%N).

Definition sweepAccount : string := "0xAcc0".

(** tx X: block 105, after the order, value 5. *)
Definition txX : Transaction :=
  mkTransaction "0xa1" (Some "0xb105") (Some 105%N) "0xd1" (Some "0xacc0")
    5 21000 (Some 2%N).

(** tx Y: block 50, before the order, value 3. *)
Definition txY : Transaction :=
  mkTransaction "0xa2" (Some "0xb050") (Some 50%N) "0xd1" (Some "0xacc0")
    3 21000 (Some 2%N).

(** tx E: a sweep without a legacy gas price. *)
Definition txE : Transaction :=
  mkTransaction "0xa3" (Some "0xb105") (Some 105%N) "0xd1" (Some "0xacc0")
    7 21000 None.

Definition node_getTransaction (h : string) : option Transaction :=
  if String.eqb h "0xa1" then Some txX
  else if String.eqb h "0xa2" then Some txY
  else if String.eqb h "0xa3" then Some txE
  else None.

Definition node_getBlock (n : N) : option Block :=
  if (n =? 105)%N then Some (mkBlock 1700000100)
  else if (n =? 50)%N then Some (mkBlock 1600000000)
  else None.

Definition sumX : EtherscanTx := mkEtherscanTx "0xa1" "0xd1" "0xacc0" "5".
Definition sumY : EtherscanTx := mkEtherscanTx "0xa2" "0xd1" "0xacc0" "3".
Definition sumE : EtherscanTx := mkEtherscanTx "0xa3" "0xd1" "0xacc0" "7".

Definition jsSummary (s : EtherscanTx) : JsValue :=
  JObj [ ("hash", JStr (es_hash s)); ("from", JStr (es_from s));
         ("to", JStr (es_to s)); ("value", JStr (es_value s)) ].

(** An HTTP 200 whose body is the given page. *)
Definition ok200 (body : JsValue) : AxiosResponse :=
  mkAxiosResponse body 200 "OK" (JObj []) (JObj []) (JObj []).

(** The explorer answers page 1 with the given summaries and every
    later page with an empty list. *)
Definition network (page1 : list EtherscanTx) (rq : TxListRequest)
  : Settled AxiosResponse :=
  if (rq_page rq =? 1)%N then Fulfilled (ok200 (JArr (map jsSummary page1)))
  else Fulfilled (ok200 (JArr [])).

Definition pages (page1 : list EtherscanTx) (a : string)
  (startblock : option N) (page : N) : Settled (list EtherscanTx) :=
  if (page =? 1)%N then Fulfilled page1 else Fulfilled [].

Definition context (orders : list Order) (page1 : list EtherscanTx)
  : AppContext :=
  mkAppContext "key" sweepAccount ether orders node_getTransaction
    node_getBlock (network page1) uniqueId.

(** Scenario A of the specification: X and Y on page 1. *)
Definition worldA : AppContext := context [order1] [sumX; sumY].

(** Scenario C: a candidate without a legacy gas price. *)
Definition worldC : AppContext := context [order1] [sumE; sumX].

(** A dense page: a zero-value record followed by twelve transfers of
    one wei; none of their hashes is known to the node. *)
Definition densePage : list EtherscanTx :=
  mkEtherscanTx "0x00" "0xd1" "0xacc0" "0"
  :: map (fun h => mkEtherscanTx h "0xd1" "0xacc0" "1")
       [ "0x01"; "0x02"; "0x03"; "0x04"; "0x05"; "0x06";
         "0x07"; "0x08"; "0x09"; "0x0a"; "0x0b"; "0x0c" ].

(** Two orders share the deposit address. *)
Definition worldShared : AppContext := context [order0; order1] [sumX].

End Scenario.


(** ** Observations on a run *)

(** The calls made to the Credit Sink, in order. *)
Fixpoint creditCalls (t : list Event) : list CreateDeposit :=
  match t with
  | [] => []
  | Credit args _ :: rest => args :: creditCalls rest
  | _ :: rest => creditCalls rest
  end.

(** The hashes handed to verification (each mapper starts by resolving
    its candidate), in order. *)
Fixpoint verified (t : list Event) : list string :=
  match t with
  | [] => []
  | NodeGetTransaction h :: rest => h :: verified rest
  | _ :: rest => verified rest
  end.

(** The page indices requested from the explorer, in order. *)
Fixpoint fetched (t : list Event) : list N :=
  match t with
  | [] => []
  | FetchPage _ _ page :: rest => page :: fetched rest
  | _ :: rest => fetched rest
  end.

(** The sink after it has been offered the given calls. *)
Fixpoint applyCalls (calls : list CreateDeposit) (s : Sink) : Sink :=
  match calls with
  | [] => s
  | args :: rest =>
      applyCalls rest (if has_key (cd_uniqueId args) s then s else args :: s)
  end.

(** Number of records the sink holds under a dedup key. *)
Definition countKey (k : string) (s : Sink) : nat :=
  List.length (filter (fun r => String.eqb (cd_uniqueId r) k) s).

(** At most one record per dedup key. *)
Definition oneRecordPerKey (s : Sink) : Prop :=
  forall k, (countKey k s <= 1)%nat.

(** The sink after the same order-scan has been run [n] times. *)
Fixpoint rerun (scan : Async ScanOutcome) (n : nat) (s : Sink) : Sink :=
  match n with
  | O => s
  | S n' => rerun scan n' (sink_after (scan s))
  end.

(** Page indices [first], [first + 1], ... ([count] of them). *)
Fixpoint pagesFrom (first : N) (count : nat) : list N :=
  match count with
  | O => []
  | S count' => first :: pagesFrom (first + 1)%N count'
  end.

(** ** The specification's reading of the Verifier and of the cap *)

Module Spec.

(** The first [cap] summaries of a page, in page order, whose value is
    strictly positive. *)
Definition positiveValue (tx : EtherscanTx) : bool :=
  match Ethers.BigNumber_from (es_value tx) with
  | Some v => (0 <? v)%Z
  | None => false
  end.

Fixpoint firstPositive (cap : nat) (page : list EtherscanTx)
  : list EtherscanTx :=
  match page with
  | [] => []
  | tx :: rest =>
      match cap with
      | O => []
      | S cap' =>
          if positiveValue tx then tx :: firstPositive cap' rest
          else firstPositive cap rest
      end
  end.

(** Case-insensitive comparison of two addresses, letter by letter. *)
Fixpoint sameAddress (a b : string) : bool :=
  match a, b with
  | EmptyString, EmptyString => true
  | String x a', String y b' =>
      Ascii.eqb (Str.lower_char x) (Str.lower_char y) && sameAddress a' b'
  | _, _ => false
  end.

Inductive Verdict : Type :=
| NotFound
| Pending
| Stale
| ContractCreation
| NotASweep
| ZeroValue
| UnsupportedFeeModel
| Eligible (tx : Transaction) (price : N).

(** Steps 1 to 7 of the Verifier, in the order the specification lists
    them; the first check that applies decides. *)
Definition verify (ctx : AppContext) (order : Order) (summary : EtherscanTx)
  : Verdict :=
  match getTransaction ctx (es_hash summary) with
  | None => NotFound
  | Some tx =>
      match blockNumber tx with
      | None => Pending
      | Some number =>
          let stale :=
            match getBlock ctx number with
            | Some block => (Z.of_N (timestamp block) * 1000 <? createdAt order)%Z
            | None => false
            end in
          if stale then Stale
          else
            match to tx with
            | None => ContractCreation
            | Some recipient =>
                if negb (sameAddress recipient (account ctx)) then NotASweep
                else if negb (0 <? value tx)%N then ZeroValue
                else
                  match gasPrice tx with
                  | None => UnsupportedFeeModel
                  | Some price => Eligible tx price
                  end
            end
      end
  end.

(** The block number of the transaction a hash resolves to. *)
Definition resolvedNumber (ctx : AppContext) (h : string) : N :=
  match getTransaction ctx h with
  | Some tx =>
      match blockNumber tx with
      | Some number => number
      | None => 0
      end
  | None => 0
  end.

(** A transaction as the node provider returns it once mined: it names
    its sender and its block, the block exists and is not the genesis
    block, and a recipient, when present, is an address. *)
Definition wellFormed (ctx : AppContext) (tx : Transaction) : Prop :=
  from_ tx <> EmptyString
  /\ to tx <> Some EmptyString
  /\ forall number, blockNumber tx = Some number ->
       number <> 0%N /\ blockHash tx <> None /\ getBlock ctx number <> None.

(** The order's creation time is the time value of a valid [Date]. *)
Definition validDate (t : Z) : Prop :=
  (Z.abs t <= JsDate.maxTime)%Z.

(** The checks of [scanTxid] that precede the order look-up all pass. *)
Definition passesChecks (ctx : AppContext) (tx : Transaction) (price : N)
  : Prop :=
  from_ tx <> EmptyString
  /\ blockHash tx <> None
  /\ (exists recipient, to tx = Some recipient
        /\ recipient <> EmptyString
        /\ Str.toLowerCase recipient = Str.toLowerCase (account ctx))
  /\ value tx <> 0%N
  /\ gasPrice tx = Some price.

End Spec.

(** ** Computations that do not read the sink *)

(** The same way of completing, whatever value is returned. *)
Definition sameKind {A B} (c1 : Completion A) (c2 : Completion B) : Prop :=
  match c1, c2 with
  | Returned _, Returned _ => True
  | Threw e1, Threw e2 => e1 = e2
  | Running, Running => True
  | _, _ => False
  end.

(** A computation is steady when the calls it makes to the Credit Sink
    and the way it completes do not depend on the sink it starts from,
    and its effect on the sink is that of offering it those calls. *)
Definition Steady {A} (m : Async A) : Prop :=
  forall s,
    sink_after (m s) = applyCalls (creditCalls (trace (m s))) s
    /\ forall s',
         creditCalls (trace (m s')) = creditCalls (trace (m s))
         /\ sameKind (completion (m s')) (completion (m s)).

(** ** What a credit call says *)

(** The call [scanTxid] makes for a transaction that passed its checks
    with the legacy gas price [price] and whose sender is the deposit
    address of [credited]. *)
Definition creditFor (ctx : AppContext) (tx : Transaction) (price : N)
  (credited : Order) : CreateDeposit :=
  mkCreateDeposit (id credited) (hash tx)
    (Ethers.formatEther (value tx + gasLimit tx * price))
    (getEthereumNativeDepositUniqueId ctx (nativeMethod ctx) (hash tx)).

(** Where a credit call comes from: a candidate of the scan of [order]
    that the node resolved to [tx] in [block], not older than the order,
    that passed the checks and whose sender's order is [credited]. *)
Inductive Provenance (ctx : AppContext) (order : Order) (args : CreateDeposit)
  : Prop :=
| mkProvenance (candidate : string) (tx : Transaction) (number : N)
    (block : Block) (price : N) (credited : Order)
    (resolved : getTransaction ctx candidate = Some tx)
    (mined : blockNumber tx = Some number)
    (contained : getBlock ctx number = Some block)
    (fresh :
       JsDate.lt (JsDate.getTime (Z.of_N (timestamp block) * 1000))
         (JsDate.getTime (createdAt order)) = false)
    (checks : Spec.passesChecks ctx tx price)
    (lookup : fetchOrderForAddress ctx (from_ tx) = Some credited)
    (call : args = creditFor ctx tx price credited).

(** A qualifying transaction of the scan of [order], met on [page]: the
    page lists, among its first ten records of positive value, a record
    the node resolves to [tx]; [tx] is mined in a block that is not
    earlier than the order; it passes the checks of [scanTxid]; and its
    sender is the stored deposit address of an order of the native
    deposit method. *)
Definition Qualifying (ctx : AppContext)
  (explorer : string -> option N -> N -> Settled (list EtherscanTx))
  (order : Order) (deposit : DepositAddress) (page : N) (tx : Transaction)
  : Prop :=
  exists txs kept c number block price o,
    explorer (address deposit) (createdAtBlockNumber order) page
    = Fulfilled txs
    /\ filterPositive txs = Some kept
    /\ In c (firstn 10 kept)
    /\ getTransaction ctx (es_hash c) = Some tx
    /\ blockNumber tx = Some number
    /\ number <> 0%N
    /\ getBlock ctx number = Some block
    /\ (createdAt order <= Z.of_N (timestamp block) * 1000)%Z
    /\ Spec.passesChecks ctx tx price
    /\ In o (db ctx)
    /\ depositMethod o = depositMethodId ctx
    /\ depositAddress o = Some (mkDepositAddress (from_ tx)).

(** ** Further observations on a run *)

(** The block numbers requested from the node, in order. *)
Fixpoint nodeBlockCalls (t : list Event) : list N :=
  match t with
  | [] => []
  | NodeGetBlock number :: rest => number :: nodeBlockCalls rest
  | _ :: rest => nodeBlockCalls rest
  end.

(** The calls the Credit Sink answered with [true], in order. *)
Fixpoint appliedCredits (t : list Event) : list CreateDeposit :=
  match t with
  | [] => []
  | Credit args true :: rest => args :: appliedCredits rest
  | _ :: rest => appliedCredits rest
  end.

(** What the "Stored deposit" log lines say: transaction hash, value in
    ether and order id, in order. *)
Fixpoint storedDeposits (t : list Event) : list (string * string * string) :=
  match t with
  | [] => []
  | Log info (StoredDeposit txhash valueAsEther _ orderId) :: rest =>
      (txhash, valueAsEther, orderId) :: storedDeposits rest
  | _ :: rest => storedDeposits rest
  end.

(** The events the engine emits itself, outside [scanTxid]. *)
Definition outsideScanTxid (ev : Event) : Prop :=
  match ev with
  | Credit _ _ => False
  | Log _ (StoredDeposit _ _ _ _) => False
  | _ => True
  end.

(** The events the loop and the callback emit themselves, outside the
    verification of a candidate. *)
Definition loopEvent (ev : Event) : Prop :=
  match ev with
  | Log _ (StoredDeposit _ _ _ _) => False
  | Log _ _ => True
  | FetchPage _ _ _ => True
  | _ => False
  end.

(** A JavaScript value is an object whose [hash], [from], [to] and
    [value] properties are the strings of the summary. *)
Definition matchesSummary (item : JsValue) (tx : EtherscanTx) : Prop :=
  exists fields,
    item = JObj fields
    /\ getProp "hash" fields = JStr (es_hash tx)
    /\ getProp "from" fields = JStr (es_from tx)
    /\ getProp "to" fields = JStr (es_to tx)
    /\ getProp "value" fields = JStr (es_value tx).

(** A property name the schema does not mention. *)
Definition unknownKey (k : string) : Prop :=
  k <> "hash" /\ k <> "from" /\ k <> "to" /\ k <> "value".

(** * Properties *)

(** ** Decimal text *)

Module DecFacts.
Import Dec.
Local Open Scope N_scope.

Lemma char_digit_digit_char d : d < 10 -> char_digit (digit_char d) = Some d.
Proof.
  intros H. unfold char_digit, digit_char.
  assert (E : N_of_ascii (ascii_of_N (48 + d)) = 48 + d)
    by (apply N_ascii_embedding; lia).
  rewrite E.
  replace (48 <=? 48 + d) with true by (symmetry; apply N.leb_le; lia).
  replace (48 + d <=? 57) with true by (symmetry; apply N.leb_le; lia).
  cbn [andb]. f_equal. lia.
Qed.

Lemma pow10_S k : 10 ^ N.of_nat (S k) = 10 * 10 ^ N.of_nat k.
Proof. rewrite Nnat.Nat2N.inj_succ, N.pow_succ_r'. reflexivity. Qed.

Lemma div10_small n : n / 10 = 0 -> n mod 10 = n.
Proof.
  intros H. pose proof (N.div_mod n 10 ltac:(lia)) as E. rewrite H in E. lia.
Qed.

Lemma value_to_string_aux fuel : forall n s a,
  n < 10 ^ N.of_nat (S fuel) ->
  value_acc char_digit 10 a (to_string_aux fuel n s)
  = value_acc char_digit 10 (a * 10 ^ N.of_nat (ndigits fuel n) + n) s.
Proof.
  induction fuel as [|fuel IH]; intros n s a Hn.
  - change (10 ^ N.of_nat 1) with 10 in *. simpl.
    rewrite char_digit_digit_char by (apply N.mod_lt; lia).
    rewrite N.mod_small by lia. reflexivity.
  - cbn [to_string_aux ndigits]. destruct (n / 10 =? 0) eqn:E.
    + apply N.eqb_eq in E. cbn [value_acc].
      rewrite char_digit_digit_char by (apply N.mod_lt; lia).
      rewrite (div10_small n E). reflexivity.
    + apply N.eqb_neq in E. rewrite IH.
      * cbn [value_acc].
        rewrite char_digit_digit_char by (apply N.mod_lt; lia).
        f_equal. rewrite pow10_S.
        pose proof (N.div_mod n 10 ltac:(lia)) as D. lia.
      * rewrite pow10_S in Hn. apply N.Div0.div_lt_upper_bound; lia.
Qed.

Lemma length_to_string_aux fuel : forall n s,
  String.length (to_string_aux fuel n s) = (ndigits fuel n + String.length s)%nat.
Proof.
  induction fuel as [|fuel IH]; intros n s; [reflexivity|].
  cbn [to_string_aux ndigits]. destruct (n / 10 =? 0); [reflexivity|].
  rewrite IH. cbn [String.length]. lia.
Qed.

Lemma ndigits_bound fuel : forall n m,
  n < 10 ^ N.of_nat m -> (1 <= m)%nat -> (ndigits fuel n <= m)%nat.
Proof.
  induction fuel as [|fuel IH]; intros n m Hn Hm; [exact Hm|].
  cbn [ndigits]. destruct (n / 10 =? 0) eqn:E; [exact Hm|].
  apply N.eqb_neq in E.
  destruct m as [|[|m]]; [lia| |].
  - change (10 ^ N.of_nat 1) with 10 in Hn.
    rewrite N.div_small in E by lia. congruence.
  - apply le_n_S. apply IH; [|lia].
    rewrite pow10_S in Hn. apply N.Div0.div_lt_upper_bound; lia.
Qed.

Lemma size_bound n : n < 10 ^ N.of_nat (S (N.to_nat (N.size n))).
Proof.
  rewrite pow10_S, Nnat.N2Nat.id.
  pose proof (N.size_gt n) as G.
  assert (2 ^ N.size n <= 10 ^ N.size n) by (apply N.pow_le_mono_l; lia).
  assert (0 < 10 ^ N.size n) by (apply N.neq_0_lt_0, N.pow_nonzero; lia).
  lia.
Qed.

Lemma to_string_aux_nonempty fuel n s : to_string_aux fuel n s <> "".
Proof.
  revert n s. induction fuel as [|fuel IH]; intros n s; cbn [to_string_aux].
  - discriminate.
  - destruct (n / 10 =? 0); [discriminate | apply IH].
Qed.

(** The text [toString] writes reads back as the number. *)
Theorem parse_decimal_toString n : parse_decimal (toString n) = Some n.
Proof.
  unfold parse_decimal, toString.
  destruct (to_string_aux (N.to_nat (N.size n)) n "") eqn:E.
  - exfalso. eapply to_string_aux_nonempty; eauto.
  - rewrite <- E, value_to_string_aux by apply size_bound. reflexivity.
Qed.

Lemma length_toString n m :
  n < 10 ^ N.of_nat m -> (1 <= m)%nat -> (String.length (toString n) <= m)%nat.
Proof.
  intros Hn Hm. unfold toString. rewrite length_to_string_aux. simpl.
  pose proof (ndigits_bound (N.to_nat (N.size n)) n m Hn Hm). lia.
Qed.

End DecFacts.

(** ** Ether amounts *)

Module EthersFacts.
Import Dec Ethers DecFacts.
Local Open Scope N_scope.

Lemma digit_not c d (x : ascii) :
  char_digit c = Some d -> char_digit x = None -> Ascii.eqb c x = false.
Proof.
  intros Hc Hx. destruct (Ascii.eqb_spec c x) as [->|]; congruence.
Qed.

Lemma parse_hex_of_decimal s n : parse_decimal s = Some n -> parse_hex s = None.
Proof.
  destruct s as [|z [|x r]]; try reflexivity.
  unfold parse_decimal. cbn [value_acc parse_hex].
  destruct (char_digit z) as [dz|]; [|discriminate].
  destruct (char_digit x) as [dx|] eqn:Ex; [|discriminate].
  intros _.
  rewrite (digit_not x dx "x" Ex eq_refl), (digit_not x dx "X" Ex eq_refl).
  rewrite andb_false_r. reflexivity.
Qed.

Lemma BigNumber_from_decimal s n :
  parse_decimal s = Some n -> BigNumber_from s = Some (Z.of_N n).
Proof.
  intros H. unfold BigNumber_from, from_text.
  destruct s as [|c r]; [discriminate|].
  assert (Ec : Ascii.eqb c "-" = false).
  { unfold parse_decimal in H. cbn [value_acc] in H.
    destruct (char_digit c) as [d|] eqn:E; [|discriminate].
    exact (digit_not c d "-" E eq_refl). }
  rewrite Ec. unfold fromUnsigned.
  rewrite (parse_hex_of_decimal _ _ H), H. reflexivity.
Qed.

(** A text with the upper-case prefix is accepted by [from] whenever
    its digits are hexadecimal, and is never read as a number. *)
Lemma BigNumber_from_upper_prefix r :
  BigNumber_from (String "0" (String "X" r)) = None
  /\ BigNumber_from (String "-" (String "0" (String "X" r))) = None.
Proof.
  unfold BigNumber_from, from_text, fromUnsigned.
  change (Ascii.eqb "0" "-") with false. change (Ascii.eqb "-" "-") with true.
  cbv beta iota.
  assert (D : parse_decimal (String "0" (String "X" r)) = None) by reflexivity.
  rewrite D.
  destruct (parse_hex (String "0" (String "X" r))); split; reflexivity.
Qed.

Lemma BigNumber_from_toString n : BigNumber_from (toString n) = Some (Z.of_N n).
Proof. apply BigNumber_from_decimal, parse_decimal_toString. Qed.

Lemma formatEtherZ_of_N n : formatEtherZ (Z.of_N n) = formatUnsigned n.
Proof.
  unfold formatEtherZ.
  replace (Z.of_N n <? 0)%Z with false by (symmetry; apply Z.ltb_ge; lia).
  rewrite N2Z.id. reflexivity.
Qed.

(** The total handed to [formatEther] is the text of the exact sum. *)
Lemma total_text v g p :
  ns.sum (toString v) (ns.times (toString g) (toString p))
  = toString (v + g * p).
Proof.
  unfold ns.sum, ns.times, ns.lift2.
  rewrite !parse_decimal_toString. reflexivity.
Qed.

Lemma formatEtherString_total v g p :
  formatEtherString (ns.sum (toString v) (ns.times (toString g) (toString p)))
  = Some (formatEther (v + g * p)).
Proof.
  rewrite total_text. unfold formatEtherString.
  rewrite BigNumber_from_toString. reflexivity.
Qed.

End EthersFacts.

(** ** Reading a formatted amount back *)

Module AmountFacts.
Import Dec Ethers DecFacts EthersFacts.
Local Open Scope N_scope.

Lemma length_app (a b : string) :
  String.length (a ++ b)%string = (String.length a + String.length b)%nat.
Proof. induction a as [|c a IH]; simpl; congruence. Qed.

Lemma length_repeat0 k : String.length (Str.repeat0 k) = k.
Proof. induction k; simpl; congruence. Qed.

Lemma value_acc_app digit b (x y : string) : forall a,
  value_acc digit b a (x ++ y)%string
  = match value_acc digit b a x with
    | Some a' => value_acc digit b a' y
    | None => None
    end.
Proof.
  induction x as [|c x IH]; intros a; cbn [String.append value_acc].
  - reflexivity.
  - destruct (digit c); [apply IH | reflexivity].
Qed.

Lemma value_repeat0 j : forall a,
  value_acc char_digit 10 a (Str.repeat0 j) = Some (a * 10 ^ N.of_nat j).
Proof.
  induction j as [|j IH]; intros a.
  - cbn. f_equal. lia.
  - cbn [Str.repeat0 value_acc].
    change (char_digit "0") with (Some 0). cbv beta iota.
    rewrite IH, pow10_S.
    f_equal. lia.
Qed.

Lemma value_leading0 k t :
  value_acc char_digit 10 0 (Str.repeat0 k ++ t)%string
  = value_acc char_digit 10 0 t.
Proof. rewrite value_acc_app, value_repeat0. reflexivity. Qed.

Lemma stripZeros_decomp s :
  exists j, s = (stripZeros s ++ Str.repeat0 j)%string.
Proof.
  induction s as [|c r [j IH]].
  - exists 0%nat. reflexivity.
  - cbn [stripZeros]. destruct (stripZeros r) as [|c' r'] eqn:E.
    + destruct (Ascii.eqb_spec c "0") as [->|].
      * exists (S j). cbn in IH |- *. congruence.
      * exists j. cbn in IH |- *. congruence.
    + exists j. cbn [String.append] in IH |- *. congruence.
Qed.

Lemma splitDot_digits w f : forall a n,
  value_acc char_digit 10 a w = Some n ->
  splitDot (w ++ String "." f)%string = Some (w, f).
Proof.
  induction w as [|c w IH]; intros a n H; cbn [String.append splitDot].
  - reflexivity.
  - cbn [value_acc] in H. destruct (char_digit c) as [d|] eqn:E; [|discriminate].
    rewrite (digit_not c d "." E eq_refl), (IH _ _ H). reflexivity.
Qed.

(** The fraction written for [r < 10^18] is at most 18 digits long and,
    scaled back to 18 places, reads as [r]. *)
Lemma fraction_reads r :
  r < multiplier ->
  let f := fractionGroup (padFraction etherDecimals (toString r)) in
  exists fn, parse_decimal f = Some fn
    /\ (String.length f <= etherDecimals)%nat
    /\ fn * 10 ^ N.of_nat (etherDecimals - String.length f) = r.
Proof.
  intros Hr. cbv zeta.
  set (t := toString r). set (p := padFraction etherDecimals t).
  assert (Lt : (String.length t <= 18)%nat)
    by (apply length_toString; [exact Hr | lia]).
  assert (Lp : String.length p = 18%nat).
  { unfold p, padFraction, etherDecimals.
    rewrite length_app, length_repeat0. lia. }
  assert (Vp : value_acc char_digit 10 0 p = Some r).
  { unfold p, padFraction. rewrite value_leading0.
    pose proof (parse_decimal_toString r) as P. fold t in P.
    unfold parse_decimal in P. destruct t; [discriminate | exact P]. }
  destruct (stripZeros_decomp p) as [j Dj].
  unfold fractionGroup, etherDecimals.
  destruct (stripZeros p) as [|c g] eqn:E.
  - exists 0. cbn [String.append] in Dj. rewrite Dj, value_repeat0 in Vp.
    injection Vp as <-. repeat split; cbn; lia.
  - rewrite Dj, value_acc_app in Vp.
    destruct (value_acc char_digit 10 0 (String c g)) as [x|] eqn:Vx;
      [|discriminate].
    rewrite value_repeat0 in Vp. injection Vp as Vp.
    assert (Lg : (String.length (String c g) + j = 18)%nat).
    { rewrite <- Lp, Dj at 1. rewrite length_app, length_repeat0. reflexivity. }
    exists x. repeat split.
    + exact Vx.
    + lia.
    + replace (18 - String.length (String c g))%nat with j by lia. exact Vp.
Qed.

(** [formatEther] is exact: the amount it writes denotes the number of
    wei it was given. *)
Theorem weiOfEther_formatEther v : weiOfEther (formatEther v) = Some v.
Proof.
  unfold formatEther. rewrite formatEtherZ_of_N.
  unfold formatUnsigned, formatParts, weiOfEther.
  pose proof (parse_decimal_toString (v / multiplier)) as W.
  assert (Hm : v mod multiplier < multiplier)
    by (apply N.mod_lt; unfold multiplier; lia).
  destruct (fraction_reads _ Hm) as (fn & F & L & V).
  set (f := fractionGroup
              (padFraction etherDecimals (toString (v mod multiplier)))) in *.
  change ("." ++ f)%string with (String "." f).
  assert (S : splitDot (toString (v / multiplier) ++ String "." f)%string
              = Some (toString (v / multiplier), f)).
  { unfold parse_decimal in W.
    destruct (toString (v / multiplier)) eqn:E; [discriminate|].
    eapply splitDot_digits; exact W. }
  rewrite S, W, F.
  apply Nat.leb_le in L. rewrite L. f_equal. rewrite V.
  pose proof (N.div_mod v multiplier ltac:(unfold multiplier; lia)). lia.
Qed.

Lemma formatEther_inj a b : formatEther a = formatEther b -> a = b.
Proof.
  intros H. apply (f_equal weiOfEther) in H.
  rewrite !weiOfEther_formatEther in H. congruence.
Qed.

End AmountFacts.

(** ** Explorer Client *)

Lemma parse_response_rejects res :
  accountTxListResultSchema_parse (AxiosResponse_value res) = Rejected ZodError.
Proof. reflexivity. Qed.

(** With the page fetch the worker ships, no scan gets past its first
    page: it ends with the rejection logged, and the Credit Sink is never
    called. *)
Lemma runScanByOrderId_never_credits ctx fuel orderId s :
  creditCalls (trace (runScanByOrderId ctx fuel orderId s)) = []
  /\ sink_after (runScanByOrderId ctx fuel orderId s) = s.
Proof.
  unfold runScanByOrderId, scanQueued.
  destruct (negb (Str.truthy (etherscanApiKey ctx))); [split; reflexivity|].
  unfold scanOrder.
  destruct (findOneBy ctx orderId) as [order|]; [|split; reflexivity].
  destruct (depositAddress order) as [deposit|]; [|split; reflexivity].
  destruct fuel as [|fuel]; [split; reflexivity|].
  cbn [pageLoop]. unfold getEtherScanTxListForAddress.
  destruct (axios_get ctx _) as [res|e];
    [rewrite parse_response_rejects|]; split; reflexivity.
Qed.

(** ** Verifier: [scanTxid] *)

Section ScanTxidFacts.

Variable ctx : AppContext.

(** What [scanTxid] does once the checks before the order look-up pass. *)
Lemma scanTxid_passed tx price s :
  Spec.passesChecks ctx tx price ->
  scanTxid ctx tx s =
  match fetchOrderForAddress ctx (from_ tx) with
  | None => (Returned false, s, [])
  | Some credited =>
      let args := creditFor ctx tx price credited in
      if has_key (cd_uniqueId args) s
      then (Returned false, s, [Credit args false])
      else (Returned true, args :: s,
            [Credit args true;
             Log info (StoredDeposit (hash tx) (Ethers.formatEther (value tx))
                         (asset (nativeMethod ctx)) (id credited))])
  end.
Proof.
  intros (Hfrom & Hblock & (recipient & Hto & Hrec & Hlow) & Hval & Hgas).
  unfold scanTxid.
  destruct (from_ tx) as [|c f] eqn:Ef; [congruence|]. cbn [Str.truthy negb].
  destruct (blockHash tx) as [bh|]; [|congruence].
  rewrite Hto. destruct recipient as [|rc rr]; [congruence|].
  cbn [Str.truthy negb]. rewrite Hlow, String.eqb_refl. cbn [negb].
  apply N.eqb_neq in Hval. rewrite Hval, Hgas.
  destruct (fetchOrderForAddress ctx (String c f)) as [credited|]; [|reflexivity].
  rewrite EthersFacts.formatEtherString_total.
  unfold bind, maybeInternalCreateDeposit, creditFor. cbn [cd_uniqueId].
  destruct (has_key _ s); reflexivity.
Qed.

(** [scanTxid] calls the sink only for a transaction that passed. *)
Lemma scanTxid_credit tx s args applied :
  In (Credit args applied) (trace (scanTxid ctx tx s)) ->
  exists price credited,
    Spec.passesChecks ctx tx price
    /\ fetchOrderForAddress ctx (from_ tx) = Some credited
    /\ args = creditFor ctx tx price credited.
Proof.
  unfold scanTxid.
  destruct (from_ tx) as [|c f] eqn:Ef; [intros []|]. cbn [Str.truthy negb].
  destruct (blockHash tx) as [bh|] eqn:Eb; [|intros []].
  destruct (to tx) as [[|rc rr]|] eqn:Et; [intros [] | | intros []].
  cbn [Str.truthy negb].
  destruct (String.eqb (Str.toLowerCase (String rc rr))
              (Str.toLowerCase (account ctx))) eqn:El; [|intros []].
  cbn [negb].
  destruct (value tx =? 0)%N eqn:Ev; [intros []|].
  destruct (gasPrice tx) as [price|] eqn:Eg; [|intros []].
  destruct (fetchOrderForAddress ctx (String c f)) as [credited|] eqn:Eo;
    [|intros []].
  rewrite EthersFacts.formatEtherString_total.
  intros H. exists price, credited.
  assert (P : Spec.passesChecks ctx tx price).
  { unfold Spec.passesChecks. rewrite Ef, Eb, Et.
    repeat split; try congruence.
    - exists (String rc rr). repeat split; try congruence.
      apply String.eqb_eq, El.
    - apply N.eqb_neq, Ev. }
  split; [exact P | split; [reflexivity |]].
  unfold bind, maybeInternalCreateDeposit, trace in H.
  cbn [cd_uniqueId] in H.
  destruct (has_key _ s); cbn in H;
    repeat (destruct H as [H|H]; try discriminate; try contradiction);
    injection H as <- _; reflexivity.
Qed.

End ScanTxidFacts.

Lemma scanTxid_calls_when_found ctx tx price credited s :
  Spec.passesChecks ctx tx price ->
  fetchOrderForAddress ctx (from_ tx) = Some credited ->
  creditCalls (trace (scanTxid ctx tx s)) = [creditFor ctx tx price credited].
Proof.
  intros P L. rewrite (scanTxid_passed ctx tx price s P), L. cbv zeta.
  destruct (has_key _ s); reflexivity.
Qed.

(** ** Traces of composed computations *)

Lemma bind_In {A B} (m : Async A) (k : A -> Async B) s ev :
  In ev (trace (bind m k s)) ->
  In ev (trace (m s))
  \/ exists a, completion (m s) = Returned a
               /\ In ev (trace (k a (sink_after (m s)))).
Proof.
  unfold bind, trace, completion, sink_after.
  destruct (m s) as [[[a| |] s1] t1]; cbn [fst snd]; auto.
  destruct (k a s1) as [[r s2] t2] eqn:E. cbn [snd]. intros H.
  apply in_app_or in H as [H|H]; [auto|].
  right. exists a. rewrite E. auto.
Qed.

Lemma emit_In ev' s ev : In ev (trace (emit ev' s)) -> ev = ev'.
Proof. cbn. intros [H|[]]. congruence. Qed.

Lemma pMap_In {A} (mapper : A -> Async unit) items : forall s ev,
  In ev (trace (pMap mapper items s)) ->
  exists x s', In x items /\ In ev (trace (mapper x s')).
Proof.
  induction items as [|x rest IH]; intros s ev; cbn [pMap].
  - intros [].
  - destruct (mapper x s) as [[r1 s1] t1] eqn:E1.
    destruct (pMap mapper rest s1) as [[r2 s2] t2] eqn:E2.
    unfold trace. cbn [snd]. intros H. apply in_app_or in H as [H|H].
    + exists x, s. split; [left; reflexivity|]. rewrite E1. exact H.
    + destruct (IH s1 ev) as (y & s' & Hy & Hin); [rewrite E2; exact H|].
      exists y, s'. split; [right; exact Hy | exact Hin].
Qed.

(** Splits a hypothesis that an event occurs in the trace of a sequence. *)
Ltac in_seq H :=
  let a := fresh "a" in
  let Hc := fresh "Hc" in
  apply bind_In in H as [H | (a & Hc & H)];
  [ try (apply emit_In in H; discriminate H) | ].

(** ** Where credit calls come from *)

Section CreditFacts.

Variable ctx : AppContext.
Variable explorer : string -> option N -> N -> Settled (list EtherscanTx).

Lemma verifyCandidate_credit order orderId c s args applied :
  In (Credit args applied) (trace (verifyCandidate ctx order orderId c s)) ->
  Provenance ctx order args.
Proof.
  unfold verifyCandidate. intros H. in_seq H.
  destruct (getTransaction ctx (es_hash c)) as [tx|] eqn:Etx;
    [|apply emit_In in H; discriminate H].
  destruct (blockNumber tx) as [[|number]|] eqn:En;
    try (apply emit_In in H; discriminate H).
  in_seq H.
  destruct (getBlock ctx (N.pos number)) as [block|] eqn:Eb; [|destruct H].
  destruct (JsDate.lt _ _) eqn:Efresh; [apply emit_In in H; discriminate H|].
  in_seq H. in_seq H; [|destruct H].
  destruct (scanTxid_credit ctx tx _ _ _ H) as (price & credited & P & L & ->).
  econstructor; eauto.
Qed.

Lemma processPage_credit order orderId txs s args applied :
  In (Credit args applied) (trace (processPage ctx order orderId txs s)) ->
  Provenance ctx order args.
Proof.
  unfold processPage. destruct (filterPositive txs) as [kept|]; [|intros []].
  intros H. in_seq H.
  apply pMap_In in H as (c & s' & _ & H).
  eapply verifyCandidate_credit; eauto.
Qed.

Lemma pageLoop_credit order deposit orderId fuel : forall page s args applied,
  In (Credit args applied)
    (trace (pageLoop ctx explorer fuel order deposit orderId page s)) ->
  Provenance ctx order args.
Proof.
  induction fuel as [|fuel IH]; intros page s args applied H; cbn [pageLoop] in H.
  - destruct H.
  - in_seq H.
    destruct (explorer _ _ page) as [txs|e].
    + destruct (List.length txs =? 0)%nat; [destruct H|].
      in_seq H; [eapply processPage_credit; eauto | eapply IH; eauto].
    + in_seq H. destruct H.
Qed.

Lemma scanOrder_credit fuel orderId s args applied :
  In (Credit args applied) (trace (scanOrder ctx explorer fuel orderId s)) ->
  exists order, findOneBy ctx orderId = Some order /\ Provenance ctx order args.
Proof.
  unfold scanOrder. intros H. in_seq H.
  destruct (findOneBy ctx orderId) as [order|]; [|in_seq H; destruct H].
  destruct (depositAddress order) as [deposit|]; [|in_seq H; destruct H].
  exists order. split; [reflexivity|]. eapply pageLoop_credit; eauto.
Qed.

End CreditFacts.

(** ** Dates and the staleness test *)

Lemma fresh_not_earlier (seconds : N) (created : Z) :
  Spec.validDate created ->
  JsDate.lt (JsDate.getTime (Z.of_N seconds * 1000)) (JsDate.getTime created)
  = false ->
  (created <= Z.of_N seconds * 1000)%Z.
Proof.
  unfold Spec.validDate, JsDate.lt, JsDate.getTime. intros V.
  apply Z.leb_le in V. rewrite V.
  destruct (Z.abs (Z.of_N seconds * 1000) <=? JsDate.maxTime)%Z eqn:E.
  - intros H. apply Z.ltb_ge in H. exact H.
  - intros _. apply Z.leb_le in V. apply Z.leb_gt in E. lia.
Qed.

Lemma earlier_is_stale (seconds : N) (created : Z) :
  Spec.validDate created ->
  (Z.of_N seconds * 1000 < created)%Z ->
  JsDate.lt (JsDate.getTime (Z.of_N seconds * 1000)) (JsDate.getTime created)
  = true.
Proof.
  unfold Spec.validDate, JsDate.lt, JsDate.getTime. intros V L.
  assert (E : (Z.abs (Z.of_N seconds * 1000) <=? JsDate.maxTime)%Z = true)
    by (apply Z.leb_le; lia).
  apply Z.leb_le in V. rewrite V, E. apply Z.ltb_lt, L.
Qed.

(** ** The order table *)

Lemma hasAddress_true a o :
  hasAddress a o = true -> depositAddress o = Some (mkDepositAddress a).
Proof.
  unfold hasAddress. destruct (depositAddress o) as [[a']|]; [|discriminate].
  cbn [address]. intros H. apply String.eqb_eq in H. congruence.
Qed.

Lemma fetchOrderForAddress_some ctx a o :
  fetchOrderForAddress ctx a = Some o ->
  In o (db ctx)
  /\ depositMethod o = depositMethodId ctx
  /\ depositAddress o = Some (mkDepositAddress a).
Proof.
  unfold fetchOrderForAddress. intros H. apply find_some in H as [Hin H].
  apply andb_prop in H as [Hm Ha]. apply String.eqb_eq in Hm.
  auto using hasAddress_true.
Qed.

Lemma fetchOrderForAddress_finds ctx a o :
  In o (db ctx) ->
  depositMethod o = depositMethodId ctx ->
  depositAddress o = Some (mkDepositAddress a) ->
  exists credited, fetchOrderForAddress ctx a = Some credited.
Proof.
  intros Hin Hm Ha. unfold fetchOrderForAddress.
  destruct (find _ (db ctx)) as [credited|] eqn:E; [eauto|].
  pose proof (find_none _ _ E o Hin) as N. cbv beta in N.
  unfold hasAddress in N. rewrite Hm, Ha, !String.eqb_refl in N.
  discriminate N.
Qed.

Lemma fetchOrderForAddress_none ctx a :
  (forall o, In o (db ctx) -> depositMethod o = depositMethodId ctx ->
     depositAddress o <> Some (mkDepositAddress a)) ->
  fetchOrderForAddress ctx a = None.
Proof.
  intros H. destruct (fetchOrderForAddress ctx a) as [o|] eqn:E; [|reflexivity].
  apply fetchOrderForAddress_some in E as (Hin & Hm & Ha).
  destruct (H o Hin Hm Ha).
Qed.

Lemma unique_id (orders : list Order) :
  NoDup (map id orders) ->
  forall o o', In o orders -> In o' orders -> id o = id o' -> o = o'.
Proof.
  induction orders as [|x rest IH]; cbn [map]; intros N o o' Ho Ho' E.
  - destruct Ho.
  - apply NoDup_cons_iff in N as [Nx N].
    destruct Ho as [<-|Ho], Ho' as [<-|Ho']; auto.
    + exfalso. apply Nx. rewrite E. apply in_map, Ho'.
    + exfalso. apply Nx. rewrite <- E. apply in_map, Ho.
Qed.

(** * The claims *)

(** C1 (the code departs from the claim). The page fetch hands the whole
    [axios] response object, not its body, to the schema: every response,
    whatever its body, is rejected with a schema error; for a 200
    response whose body is the well-formed page [X; Y] the body itself
    matches the schema, and the call still fails. *)
Theorem page_fetch_rejects_every_response :
  (forall ctx a startblock page,
      match axios_get ctx (txlistRequest ctx a startblock page) with
      | Fulfilled _ =>
          getEtherScanTxListForAddress ctx a startblock page = Rejected ZodError
      | Rejected e =>
          getEtherScanTxListForAddress ctx a startblock page = Rejected e
      end)
  /\ accountTxListResultSchema_parse
       (JArr (map Scenario.jsSummary [Scenario.sumX; Scenario.sumY]))
     = Fulfilled [Scenario.sumX; Scenario.sumY]
  /\ getEtherScanTxListForAddress Scenario.worldA "0xd1" (Some 100%N) 1
     = Rejected ZodError.
Proof.
  split; [|split; reflexivity].
  intros ctx a startblock page. unfold getEtherScanTxListForAddress.
  destruct (axios_get ctx _) as [res|e];
    [apply parse_response_rejects | reflexivity].
Qed.

Lemma verifyCandidate_stale ctx order orderId c tx number block s :
  Spec.validDate (createdAt order) ->
  getTransaction ctx (es_hash c) = Some tx ->
  blockNumber tx = Some number ->
  getBlock ctx number = Some block ->
  (Z.of_N (timestamp block) * 1000 < createdAt order)%Z ->
  creditCalls (trace (verifyCandidate ctx order orderId c s)) = []
  /\ sink_after (verifyCandidate ctx order orderId c s) = s.
Proof.
  intros V Etx En Eb L. unfold verifyCandidate. rewrite Etx, En.
  destruct number as [|number]; [split; reflexivity|].
  rewrite Eb, (earlier_is_stale _ _ V L). split; reflexivity.
Qed.

(** C2. Staleness filter. In the scan of an order whose creation time is
    a valid date: a candidate that the node resolves to a transaction in a
    block earlier than the order's creation makes no call to the Credit
    Sink and leaves it unchanged; and every call made during the scan is
    for a resolved transaction whose block is not earlier than the
    order's creation. *)
Theorem staleness_filter ctx explorer fuel orderId order s :
  findOneBy ctx orderId = Some order ->
  Spec.validDate (createdAt order) ->
  (forall c tx number block s',
      getTransaction ctx (es_hash c) = Some tx ->
      blockNumber tx = Some number ->
      getBlock ctx number = Some block ->
      (Z.of_N (timestamp block) * 1000 < createdAt order)%Z ->
      creditCalls (trace (verifyCandidate ctx order orderId c s')) = []
      /\ sink_after (verifyCandidate ctx order orderId c s') = s')
  /\ (forall args applied,
        In (Credit args applied)
          (trace (scanOrder ctx explorer fuel orderId s)) ->
        exists candidate tx number block,
          getTransaction ctx candidate = Some tx
          /\ cd_txid args = hash tx
          /\ blockNumber tx = Some number
          /\ getBlock ctx number = Some block
          /\ (createdAt order <= Z.of_N (timestamp block) * 1000)%Z).
Proof.
  intros Ho V. split.
  - intros c tx number block s'. apply verifyCandidate_stale, V.
  - intros args applied H.
    apply scanOrder_credit in H as (order' & Ho' & P).
    assert (order' = order) by congruence. subst order'.
    destruct P as [candidate tx number block price credited R M C F _ _ ->].
    exists candidate, tx, number, block.
    repeat split; auto using fresh_not_earlier.
Qed.

Lemma staleness_filter_witness :
  creditCalls
    (trace (verifyCandidate Scenario.worldA Scenario.order1 "order-1"
              Scenario.sumY []))
  = [].
Proof.
  destruct (staleness_filter Scenario.worldA
              (Scenario.pages [Scenario.sumX; Scenario.sumY]) 5 "order-1"
              Scenario.order1 [] eq_refl) as [H _].
  - unfold Spec.validDate. vm_compute. discriminate.
  - apply (H Scenario.sumY Scenario.txY 50%N (mkBlock 1600000000) []);
      reflexivity.
Defined.

(** C5. With order ids unique in the order table, every call to the
    Credit Sink made during a scan is for a transaction the node resolved
    and names an order of the native deposit method whose stored deposit
    address is that transaction's sender; no order with another deposit
    address carries the credited id. *)
Theorem credit_names_the_senders_order ctx explorer fuel orderId s args applied :
  NoDup (map id (db ctx)) ->
  In (Credit args applied) (trace (scanOrder ctx explorer fuel orderId s)) ->
  exists candidate tx,
    getTransaction ctx candidate = Some tx
    /\ cd_txid args = hash tx
    /\ (exists o, In o (db ctx)
          /\ id o = cd_orderId args
          /\ depositMethod o = depositMethodId ctx
          /\ depositAddress o = Some (mkDepositAddress (from_ tx)))
    /\ (forall o', In o' (db ctx) -> id o' = cd_orderId args ->
          depositAddress o' = Some (mkDepositAddress (from_ tx))).
Proof.
  intros U H. apply scanOrder_credit in H as (order & _ & P).
  destruct P as [candidate tx number block price credited R _ _ _ _ L ->].
  apply fetchOrderForAddress_some in L as (Hin & Hm & Ha).
  exists candidate, tx. repeat split; auto.
  - exists credited. auto.
  - intros o' Hin' E. cbn [creditFor cd_orderId] in E.
    rewrite (unique_id _ U o' credited Hin' Hin E). exact Ha.
Qed.

Lemma credit_names_the_senders_order_witness :
  exists candidate tx,
    getTransaction Scenario.worldA candidate = Some tx
    /\ "0xa1" = hash tx
    /\ (exists o, In o (db Scenario.worldA)
          /\ id o = "order-1"
          /\ depositMethod o = depositMethodId Scenario.worldA
          /\ depositAddress o = Some (mkDepositAddress (from_ tx)))
    /\ (forall o', In o' (db Scenario.worldA) -> id o' = "order-1" ->
          depositAddress o' = Some (mkDepositAddress (from_ tx))).
Proof.
  apply (credit_names_the_senders_order Scenario.worldA
           (Scenario.pages [Scenario.sumX; Scenario.sumY]) 5 "order-1" []
           (mkCreateDeposit "order-1" "0xa1" "0.000000000000042005"
              "ethereum/0xa1") true).
  - repeat constructor. intros [].
  - vm_compute. tauto.
Defined.

(** C9. For a transaction that passes the checks of [scanTxid] and whose
    sender has an order, exactly one call is made to the Credit Sink; the
    total is the exact decimal text of [value + gasLimit * gasPrice]; the
    amount of the call is that total written in ether, which reads back
    as exactly [value + gasLimit * gasPrice] wei; and it is not the
    transfer value alone as soon as the gas cost is positive. *)
Theorem deposit_amount_is_value_plus_gas ctx tx price credited s :
  Spec.passesChecks ctx tx price ->
  fetchOrderForAddress ctx (from_ tx) = Some credited ->
  let total := (value tx + gasLimit tx * price)%N in
  exists args,
    creditCalls (trace (scanTxid ctx tx s)) = [args]
    /\ ns.sum (Dec.toString (value tx))
         (ns.times (Dec.toString (gasLimit tx)) (Dec.toString price))
       = Dec.toString total
    /\ Ethers.formatEtherString (Dec.toString total) = Some (cd_amount args)
    /\ cd_amount args = Ethers.formatEther total
    /\ Ethers.weiOfEther (cd_amount args) = Some total
    /\ ((0 < gasLimit tx * price)%N ->
        cd_amount args <> Ethers.formatEther (value tx)).
Proof.
  intros P L total. exists (creditFor ctx tx price credited).
  rewrite (scanTxid_passed ctx tx price s P), L. cbv zeta.
  split; [destruct (has_key _ s); reflexivity|].
  split; [apply EthersFacts.total_text|].
  cbn [creditFor cd_amount]. fold total.
  split.
  { unfold Ethers.formatEtherString.
    rewrite EthersFacts.BigNumber_from_toString. reflexivity. }
  split; [reflexivity|].
  split; [apply AmountFacts.weiOfEther_formatEther|].
  intros G E. apply AmountFacts.formatEther_inj in E. unfold total in E. lia.
Qed.

Lemma deposit_amount_is_value_plus_gas_witness :
  exists args,
    creditCalls (trace (scanTxid Scenario.worldA Scenario.txX [])) = [args]
    /\ ns.sum "5" (ns.times "21000" "2") = "42005"
    /\ Ethers.formatEtherString "42005" = Some (cd_amount args)
    /\ cd_amount args = "0.000000000000042005"
    /\ Ethers.weiOfEther (cd_amount args) = Some 42005%N
    /\ ((0 < 42000)%N -> cd_amount args <> "0.000000000000000005").
Proof.
  apply (deposit_amount_is_value_plus_gas Scenario.worldA Scenario.txX 2%N
           Scenario.order1 []).
  - unfold Spec.passesChecks. cbn.
    repeat split; try discriminate.
    exists "0xacc0". repeat split. discriminate.
  - reflexivity.
Defined.

(** C10. The order to credit is looked up in the order table by the
    resolved transaction's sender, whatever order is being scanned. A
    scan can credit an order other than the scanned one (two orders
    holding one deposit address). In the scan of any order id, every
    call to the Credit Sink names an order of the table that is of the
    native deposit method and whose stored deposit address is the sender
    of the resolved transaction. A transaction that passes the checks
    and whose sender is the stored deposit address of some order of the
    native method is offered to the sink, once, under the id of such an
    order. And when no order of the native method holds the sender as
    its deposit address, [scanTxid] returns [false] with no call, no log
    line and no failure. *)
Theorem credited_order_is_looked_up_by_sender :
  (exists args,
      In (Credit args true)
        (trace (scanOrder Scenario.worldShared (Scenario.pages [Scenario.sumX])
                  5 "order-1" []))
      /\ cd_orderId args <> "order-1")
  /\ (forall ctx explorer fuel orderId s args applied,
        In (Credit args applied)
          (trace (scanOrder ctx explorer fuel orderId s)) ->
        exists candidate tx credited,
          getTransaction ctx candidate = Some tx
          /\ cd_txid args = hash tx
          /\ In credited (db ctx)
          /\ depositMethod credited = depositMethodId ctx
          /\ depositAddress credited = Some (mkDepositAddress (from_ tx))
          /\ cd_orderId args = id credited)
  /\ (forall ctx tx price o s,
        Spec.passesChecks ctx tx price ->
        In o (db ctx) ->
        depositMethod o = depositMethodId ctx ->
        depositAddress o = Some (mkDepositAddress (from_ tx)) ->
        exists credited,
          In credited (db ctx)
          /\ depositMethod credited = depositMethodId ctx
          /\ depositAddress credited = Some (mkDepositAddress (from_ tx))
          /\ creditCalls (trace (scanTxid ctx tx s))
             = [creditFor ctx tx price credited])
  /\ (forall ctx tx price s,
        Spec.passesChecks ctx tx price ->
        (forall o, In o (db ctx) ->
           depositMethod o = depositMethodId ctx ->
           depositAddress o <> Some (mkDepositAddress (from_ tx))) ->
        scanTxid ctx tx s = (Returned false, s, [])).
Proof.
  split; [|split; [|split]].
  - eexists. split.
    + vm_compute. do 6 right. left. reflexivity.
    + cbn. discriminate.
  - intros ctx explorer fuel orderId s args applied H.
    apply scanOrder_credit in H as (order & _ & P).
    destruct P as [candidate tx number block price credited R _ _ _ _ L ->].
    apply fetchOrderForAddress_some in L as (Hin & Hm & Ha).
    exists candidate, tx, credited. auto 7.
  - intros ctx tx price o s P Hin Hm Ha.
    destruct (fetchOrderForAddress_finds ctx (from_ tx) o Hin Hm Ha)
      as [credited L].
    exists credited.
    destruct (fetchOrderForAddress_some ctx _ _ L) as (Hin' & Hm' & Ha').
    auto using scanTxid_calls_when_found.
  - intros ctx tx price s P Hno.
    rewrite (scanTxid_passed ctx tx price s P),
      (fetchOrderForAddress_none ctx (from_ tx) Hno).
    reflexivity.
Qed.

Lemma credited_order_is_looked_up_by_sender_witness :
  scanTxid
    (Scenario.context
       [mkOrder "order-2" "ethereum" (Some (mkDepositAddress "0xd2"))
          1700000000000 (Some 100%N)]
       [Scenario.sumX])
    Scenario.txX []
  = (Returned false, [], []).
Proof.
  destruct credited_order_is_looked_up_by_sender as (_ & _ & _ & H).
  apply (H (Scenario.context
              [mkOrder "order-2" "ethereum" (Some (mkDepositAddress "0xd2"))
                 1700000000000 (Some 100%N)]
              [Scenario.sumX])
           Scenario.txX 2%N []).
  - unfold Spec.passesChecks. cbn.
    repeat split; try discriminate.
    exists "0xacc0". repeat split. discriminate.
  - intros o [<-|[]] _. cbn. discriminate.
Defined.

(** ** The candidates of a page *)

Lemma bind_trace {A B} (m : Async A) (k : A -> Async B) s :
  trace (bind m k s)
  = trace (m s)
    ++ match completion (m s) with
       | Returned a => trace (k a (sink_after (m s)))
       | _ => []
       end.
Proof.
  unfold bind, trace, completion, sink_after.
  destruct (m s) as [[[a| |] s1] t1]; cbn [fst snd];
    try (symmetry; apply app_nil_r).
  destruct (k a s1) as [[r s2] t2]. reflexivity.
Qed.

Lemma verified_app t1 t2 : verified (t1 ++ t2) = verified t1 ++ verified t2.
Proof.
  induction t1 as [|ev t1 IH]; [reflexivity|].
  destruct ev; cbn [app verified]; rewrite IH; reflexivity.
Qed.

Lemma scanTxid_verified ctx tx s : verified (trace (scanTxid ctx tx s)) = [].
Proof.
  unfold scanTxid.
  destruct (negb (Str.truthy (from_ tx))); [reflexivity|].
  destruct (blockHash tx); [|reflexivity].
  destruct (to tx) as [recipient|]; [|reflexivity].
  destruct (negb (Str.truthy recipient)); [reflexivity|].
  destruct (negb (String.eqb _ _)); [reflexivity|].
  destruct (value tx =? 0)%N; [reflexivity|].
  destruct (gasPrice tx); [|reflexivity].
  destruct (fetchOrderForAddress ctx (from_ tx)); [|reflexivity].
  destruct (Ethers.formatEtherString _); [|reflexivity].
  unfold bind, maybeInternalCreateDeposit. cbn [cd_uniqueId].
  destruct (has_key _ s); reflexivity.
Qed.

Lemma verifyCandidate_verified ctx order orderId c s :
  verified (trace (verifyCandidate ctx order orderId c s)) = [es_hash c].
Proof.
  unfold verifyCandidate. rewrite bind_trace, verified_app.
  cbn [emit trace completion sink_after fst snd verified app].
  destruct (getTransaction ctx (es_hash c)) as [tx|]; [|reflexivity].
  destruct (blockNumber tx) as [[|number]|]; try reflexivity.
  rewrite bind_trace, verified_app.
  cbn [emit trace completion sink_after fst snd verified app].
  destruct (getBlock ctx (N.pos number)) as [block|]; [|reflexivity].
  destruct (JsDate.lt _ _); [reflexivity|].
  rewrite bind_trace, verified_app.
  cbn [logger emit trace completion sink_after fst snd verified app].
  rewrite bind_trace, verified_app, scanTxid_verified.
  destruct (completion _); reflexivity.
Qed.

Lemma pMap_verified ctx order orderId cs : forall s,
  verified (trace (pMap (verifyCandidate ctx order orderId) cs s))
  = map es_hash cs.
Proof.
  induction cs as [|c cs IH]; intros s; cbn [pMap map]; [reflexivity|].
  pose proof (verifyCandidate_verified ctx order orderId c s) as V.
  destruct (verifyCandidate ctx order orderId c s) as [[r1 s1] t1].
  specialize (IH s1).
  destruct (pMap (verifyCandidate ctx order orderId) cs s1) as [[r2 s2] t2].
  unfold trace in *. cbn [snd] in *. rewrite verified_app, V, IH. reflexivity.
Qed.

Lemma filterPositive_none txs tx :
  In tx txs -> Ethers.BigNumber_from (es_value tx) = None ->
  filterPositive txs = None.
Proof.
  induction txs as [|x rest IH]; [intros []|].
  intros [->|H] E; cbn [filterPositive].
  - rewrite E. reflexivity.
  - rewrite (IH H E). destruct (Ethers.BigNumber_from (es_value x)); reflexivity.
Qed.

Lemma filterPositive_filter txs :
  (forall tx, In tx txs -> Ethers.BigNumber_from (es_value tx) <> None) ->
  filterPositive txs = Some (filter Spec.positiveValue txs).
Proof.
  induction txs as [|tx rest IH]; intros H; cbn [filterPositive filter];
    [reflexivity|].
  unfold Spec.positiveValue at 1.
  destruct (Ethers.BigNumber_from (es_value tx)) as [v|] eqn:E.
  - rewrite IH by (intros; apply H; right; assumption).
    destruct (0 <? v)%Z; reflexivity.
  - exfalso. apply (H tx); [left; reflexivity | exact E].
Qed.

Lemma firstn_filter_firstPositive txs : forall cap,
  firstn cap (filter Spec.positiveValue txs) = Spec.firstPositive cap txs.
Proof.
  induction txs as [|tx rest IH]; intros cap; cbn [filter Spec.firstPositive].
  - apply firstn_nil.
  - destruct cap as [|cap]; [reflexivity|].
    destruct (Spec.positiveValue tx); [cbn [firstn]; f_equal|]; apply IH.
Qed.

Lemma firstPositive_length txs : forall cap,
  (List.length (Spec.firstPositive cap txs) <= cap)%nat.
Proof.
  induction txs as [|tx rest IH]; intros cap; cbn [Spec.firstPositive].
  - cbn. lia.
  - destruct cap as [|cap]; [cbn; lia|].
    destruct (Spec.positiveValue tx);
      [cbn [List.length]; specialize (IH cap) | specialize (IH (S cap))];
      lia.
Qed.

(** C7. Cap enforcement. On a page every value of which the filter can
    compare with zero (an integer in decimal text, or in hexadecimal
    text with the lower-case prefix), the candidates handed to
    verification are, in order, exactly the first ten summaries of the
    page whose value is strictly positive (all of them when there are
    fewer), so at most ten. *)
Theorem cap_enforcement ctx order orderId txs s :
  (forall tx, In tx txs -> Ethers.BigNumber_from (es_value tx) <> None) ->
  verified (trace (processPage ctx order orderId txs s))
  = map es_hash (Spec.firstPositive 10 txs)
  /\ (List.length (verified (trace (processPage ctx order orderId txs s)))
      <= 10)%nat.
Proof.
  intros H.
  assert (E : verified (trace (processPage ctx order orderId txs s))
              = map es_hash (Spec.firstPositive 10 txs)).
  { unfold processPage. rewrite (filterPositive_filter txs H).
    rewrite bind_trace, verified_app.
    cbn [logger emit trace completion sink_after fst snd verified app].
    rewrite pMap_verified, firstn_filter_firstPositive. reflexivity. }
  split; [exact E|].
  rewrite E, length_map. apply firstPositive_length.
Qed.

Lemma cap_enforcement_witness :
  verified (trace (processPage Scenario.worldA Scenario.order1 "order-1"
                     Scenario.densePage []))
  = [ "0x01"; "0x02"; "0x03"; "0x04"; "0x05";
      "0x06"; "0x07"; "0x08"; "0x09"; "0x0a" ].
Proof.
  apply (cap_enforcement Scenario.worldA Scenario.order1 "order-1"
           Scenario.densePage []).
  intros tx H.
  repeat (destruct H as [<-|H]; [discriminate|]). destruct H.
Defined.

(** ** The order of the Verifier's checks *)

Lemma stale_test created (seconds : N) :
  Spec.validDate created ->
  JsDate.lt (JsDate.getTime (Z.of_N seconds * 1000)) (JsDate.getTime created)
  = (Z.of_N seconds * 1000 <? created)%Z.
Proof.
  intros V. destruct (Z.of_N seconds * 1000 <? created)%Z eqn:E.
  - apply earlier_is_stale; [exact V | apply Z.ltb_lt, E].
  - unfold Spec.validDate in V. unfold JsDate.lt, JsDate.getTime.
    apply Z.leb_le in V. rewrite V.
    destruct (Z.abs (Z.of_N seconds * 1000) <=? JsDate.maxTime)%Z;
      [exact E | reflexivity].
Qed.

Lemma sameAddress_toLowerCase a : forall b,
  Spec.sameAddress a b = String.eqb (Str.toLowerCase a) (Str.toLowerCase b).
Proof.
  induction a as [|x a IH]; intros [|y b];
    cbn [Spec.sameAddress Str.toLowerCase String.eqb]; try reflexivity.
  rewrite IH. destruct (Ascii.eqb _ _); reflexivity.
Qed.

Lemma verifyCandidate_fresh ctx order orderId c tx number block s :
  getTransaction ctx (es_hash c) = Some tx ->
  blockNumber tx = Some number ->
  number <> 0%N ->
  getBlock ctx number = Some block ->
  JsDate.lt (JsDate.getTime (Z.of_N (timestamp block) * 1000))
    (JsDate.getTime (createdAt order)) = false ->
  verifyCandidate ctx order orderId c s
  = (match completion (scanTxid ctx tx s) with
     | Returned _ => Returned tt
     | Threw e => Threw e
     | Running => Running
     end,
     sink_after (scanTxid ctx tx s),
     [NodeGetTransaction (es_hash c); NodeGetBlock number;
      Log info (ScanningTx (es_hash c))] ++ trace (scanTxid ctx tx s)).
Proof.
  intros Etx En N0 Eb F. unfold verifyCandidate. rewrite Etx, En.
  destruct number as [|p]; [congruence|]. rewrite Eb, F.
  unfold bind, logger, emit, ret, completion, sink_after, trace.
  cbv beta iota zeta.
  destruct (scanTxid ctx tx s) as [[[b|e|] s'] t]; cbn [fst snd app];
    rewrite ?app_nil_r; reflexivity.
Qed.

Section ScanTxidRejections.

Variables (ctx : AppContext) (tx : Transaction) (s : Sink).
Hypothesis sender : from_ tx <> EmptyString.
Hypothesis mined : blockHash tx <> None.

Lemma scanTxid_contract_creation :
  to tx = None -> scanTxid ctx tx s = (Returned false, s, []).
Proof.
  intros Et. unfold scanTxid.
  destruct (from_ tx); [congruence|]. destruct (blockHash tx); [|congruence].
  rewrite Et. reflexivity.
Qed.

Lemma scanTxid_not_a_sweep recipient :
  to tx = Some recipient ->
  String.eqb (Str.toLowerCase recipient) (Str.toLowerCase (account ctx)) = false ->
  scanTxid ctx tx s = (Returned false, s, []).
Proof.
  intros Et El. unfold scanTxid.
  destruct (from_ tx); [congruence|]. destruct (blockHash tx); [|congruence].
  rewrite Et, El. destruct recipient; reflexivity.
Qed.

Lemma scanTxid_zero_value recipient :
  to tx = Some recipient ->
  value tx = 0%N ->
  scanTxid ctx tx s = (Returned false, s, []).
Proof.
  intros Et Ev. unfold scanTxid.
  destruct (from_ tx); [congruence|]. destruct (blockHash tx); [|congruence].
  rewrite Et, Ev. destruct recipient; [reflexivity|]. cbn [Str.truthy negb].
  destruct (negb (String.eqb _ _)); reflexivity.
Qed.

Lemma scanTxid_unsupported recipient :
  to tx = Some recipient ->
  recipient <> EmptyString ->
  String.eqb (Str.toLowerCase recipient) (Str.toLowerCase (account ctx)) = true ->
  value tx <> 0%N ->
  gasPrice tx = None ->
  scanTxid ctx tx s
  = (Threw (Error "Unsupported EIP-1559 sweep transaction"), s, []).
Proof.
  intros Et Er El Ev Eg. unfold scanTxid.
  destruct (from_ tx); [congruence|]. destruct (blockHash tx); [|congruence].
  rewrite Et, El, Eg. destruct recipient; [congruence|].
  apply N.eqb_neq in Ev. rewrite Ev. reflexivity.
Qed.

End ScanTxidRejections.

(** C8. For a candidate that the node resolves to a well-formed mined
    transaction (or does not resolve), in the scan of an order created at
    a valid date, what verification does is decided by the first check
    that applies, in the order: not found, no block number, block
    earlier than the order, no recipient, recipient other than the sweep
    account (compared without case), value not strictly positive, no
    legacy gas price (a failure is raised); a candidate that passes them
    all reaches the order look-up of [scanTxid]. *)
Theorem verification_order ctx order orderId c s :
  Spec.validDate (createdAt order) ->
  (forall tx, getTransaction ctx (es_hash c) = Some tx -> Spec.wellFormed ctx tx) ->
  let h := es_hash c in
  let number := Spec.resolvedNumber ctx h in
  let r := verifyCandidate ctx order orderId c s in
  match Spec.verify ctx order c with
  | Spec.NotFound =>
      r = (Returned tt, s,
           [NodeGetTransaction h; Log error (TransactionNotFound h)])
  | Spec.Pending =>
      r = (Returned tt, s,
           [NodeGetTransaction h; Log warn (TransactionHasNoBlockNumber h)])
  | Spec.Stale =>
      r = (Returned tt, s,
           [NodeGetTransaction h; NodeGetBlock number;
            Log warn (IgnoringTxBeforeOrder h orderId)])
  | Spec.ContractCreation | Spec.NotASweep | Spec.ZeroValue =>
      r = (Returned tt, s,
           [NodeGetTransaction h; NodeGetBlock number; Log info (ScanningTx h)])
  | Spec.UnsupportedFeeModel =>
      r = (Threw (Error "Unsupported EIP-1559 sweep transaction"), s,
           [NodeGetTransaction h; NodeGetBlock number; Log info (ScanningTx h)])
  | Spec.Eligible tx price =>
      Spec.passesChecks ctx tx price
      /\ completion r = Returned tt
      /\ sink_after r = sink_after (scanTxid ctx tx s)
      /\ trace r
         = [NodeGetTransaction h; NodeGetBlock number; Log info (ScanningTx h)]
           ++ trace (scanTxid ctx tx s)
  end.
Proof.
  intros V W h number r. subst h number r.
  unfold Spec.verify, Spec.resolvedNumber.
  destruct (getTransaction ctx (es_hash c)) as [tx|] eqn:Etx;
    [|unfold verifyCandidate; rewrite Etx; reflexivity].
  destruct (W tx eq_refl) as (Hfrom & Hto & Hmined).
  destruct (blockNumber tx) as [number|] eqn:En;
    [|unfold verifyCandidate; rewrite Etx, En; reflexivity].
  destruct (Hmined number eq_refl) as (N0 & Hbh & Hblock).
  destruct (getBlock ctx number) as [block|] eqn:Eb; [|congruence].
  pose proof (stale_test (createdAt order) (timestamp block) V) as T.
  destruct (Z.of_N (timestamp block) * 1000 <? createdAt order)%Z eqn:Es.
  - unfold verifyCandidate. rewrite Etx, En.
    destruct number; [congruence|]. rewrite Eb, T. reflexivity.
  - rewrite (verifyCandidate_fresh ctx order orderId c tx number block s
               Etx En N0 Eb T).
    destruct (to tx) as [recipient|] eqn:Et.
    + rewrite sameAddress_toLowerCase.
      destruct (String.eqb (Str.toLowerCase recipient)
                  (Str.toLowerCase (account ctx))) eqn:El; cbn [negb].
      * destruct (0 <? value tx)%N eqn:Ev; cbn [negb].
        -- apply N.ltb_lt in Ev.
           assert (Er : recipient <> EmptyString) by congruence.
           destruct (gasPrice tx) as [price|] eqn:Eg.
           ++ assert (P : Spec.passesChecks ctx tx price).
              { unfold Spec.passesChecks. rewrite Et.
                repeat split; auto; try lia.
                exists recipient. repeat split; auto.
                apply String.eqb_eq, El. }
              split; [exact P|].
              rewrite (scanTxid_passed ctx tx price s P).
              destruct (fetchOrderForAddress ctx (from_ tx)); cbv zeta;
                [destruct (has_key _ s)|]; repeat split; reflexivity.
           ++ rewrite (scanTxid_unsupported ctx tx s Hfrom Hbh recipient
                         Et Er El ltac:(lia) Eg).
              reflexivity.
        -- apply N.ltb_ge in Ev.
           rewrite (scanTxid_zero_value ctx tx s Hfrom Hbh recipient Et
                      ltac:(lia)).
           reflexivity.
      * rewrite (scanTxid_not_a_sweep ctx tx s Hfrom Hbh recipient Et El).
        reflexivity.
    + rewrite (scanTxid_contract_creation ctx tx s Hfrom Hbh Et). reflexivity.
Qed.

Lemma verification_order_witness :
  verifyCandidate Scenario.worldC Scenario.order1 "order-1" Scenario.sumE []
  = (Threw (Error "Unsupported EIP-1559 sweep transaction"), [],
     [NodeGetTransaction "0xa3"; NodeGetBlock 105;
      Log info (ScanningTx "0xa3")]).
Proof.
  apply (verification_order Scenario.worldC Scenario.order1 "order-1"
           Scenario.sumE []).
  - unfold Spec.validDate. vm_compute. discriminate.
  - intros tx H. injection H as <-. unfold Spec.wellFormed. cbn.
    repeat split; try discriminate.
    + injection H as <-. discriminate.
    + injection H as <-. discriminate.
Defined.

(** ** Steady computations *)

Lemma creditCalls_app t1 t2 :
  creditCalls (t1 ++ t2) = creditCalls t1 ++ creditCalls t2.
Proof.
  induction t1 as [|ev t1 IH]; [reflexivity|].
  destruct ev; cbn [app creditCalls]; rewrite IH; reflexivity.
Qed.

Lemma applyCalls_app c1 c2 : forall s,
  applyCalls (c1 ++ c2) s = applyCalls c2 (applyCalls c1 s).
Proof. induction c1 as [|a c1 IH]; intros s; cbn [app applyCalls]; auto. Qed.

Lemma sameKind_refl {A} (c : Completion A) : sameKind c c.
Proof. destruct c; cbn; auto. Qed.

Lemma Steady_ret {A} (a : A) : Steady (ret a).
Proof. intros s. repeat split. Qed.

Lemma Steady_throw {A} e : Steady (@throw A e).
Proof. intros s. repeat split. Qed.

Lemma Steady_log level line : Steady (logger level line).
Proof. intros s. repeat split. Qed.

Lemma Steady_emit_node ev :
  match ev with Credit _ _ => False | _ => True end -> Steady (emit ev).
Proof. intros H s. destruct ev; try destruct H; repeat split. Qed.

Lemma Steady_seq {A B} (m : Async A) (k : Async B) :
  Steady m -> Steady k -> Steady (bind m (fun _ => k)).
Proof.
  intros Hm Hk s. destruct (Hm s) as [Ms Mi].
  assert (G : forall s0,
             sameKind (completion (m s0)) (completion (m s)) ->
             creditCalls (trace (m s0)) = creditCalls (trace (m s)) ->
             sink_after (m s0) = applyCalls (creditCalls (trace (m s0))) s0 ->
             sink_after (bind m (fun _ => k) s0)
             = applyCalls (creditCalls (trace (bind m (fun _ => k) s0))) s0
             /\ creditCalls (trace (bind m (fun _ => k) s0))
                = creditCalls (trace (bind m (fun _ => k) s))
             /\ sameKind (completion (bind m (fun _ => k) s0))
                  (completion (bind m (fun _ => k) s))).
  { intros s0. unfold bind, trace, completion, sink_after in *.
    destruct (m s) as [[[a| |] s1] t1], (m s0) as [[[a0| |] s10] t10];
      cbn [fst snd sameKind]; intros K C S0; try contradiction; auto.
    destruct (Hk s1) as [Ks Ki]. destruct (Ki s10) as [Kc Kk].
    destruct (Hk s10) as [Ks0 _].
    unfold trace, completion, sink_after in *.
    destruct (k s1) as [[r s2] t2], (k s10) as [[r0 s20] t20].
    cbn [fst snd] in *.
    rewrite !creditCalls_app, applyCalls_app, <- S0, Ks0, C, Kc. auto. }
  split.
  - apply (G s); [apply sameKind_refl | reflexivity | exact Ms].
  - intros s'. destruct (Mi s') as [C K]. destruct (Hm s') as [Ms' _].
    apply (G s' K C Ms').
Qed.

Lemma Steady_pMap {A} (mapper : A -> Async unit) items :
  (forall x, Steady (mapper x)) -> Steady (pMap mapper items).
Proof.
  intros Hm. induction items as [|x rest IH]; [apply Steady_ret|].
  intros s. cbn [pMap].
  assert (G : forall s0,
             let r0 := (let '(r1, s1, t1) := mapper x s0 in
                        let '(r2, s2, t2) := pMap mapper rest s1 in
                        (match r1 with Returned _ => r2 | _ => r1 end, s2, t1 ++ t2)) in
             let r := (let '(r1, s1, t1) := mapper x s in
                       let '(r2, s2, t2) := pMap mapper rest s1 in
                       (match r1 with Returned _ => r2 | _ => r1 end, s2, t1 ++ t2)) in
             sink_after r0 = applyCalls (creditCalls (trace r0)) s0
             /\ creditCalls (trace r0) = creditCalls (trace r)
             /\ sameKind (completion r0) (completion r)).
  { intros s0. cbv zeta.
    destruct (Hm x s) as [_ Mi]. destruct (Mi s0) as [C K].
    destruct (Hm x s0) as [Ms0 _].
    unfold trace, completion, sink_after in *.
    destruct (mapper x s) as [[r1 s1] t1], (mapper x s0) as [[r10 s10] t10].
    cbn [fst snd] in *.
    destruct (IH s1) as [_ Pi]. destruct (Pi s10) as [Pc Pk].
    destruct (IH s10) as [Ps0 _].
    unfold trace, completion, sink_after in *.
    destruct (pMap mapper rest s1) as [[r2 s2] t2],
             (pMap mapper rest s10) as [[r20 s20] t20].
    cbn [fst snd] in *.
    rewrite !creditCalls_app, applyCalls_app, <- Ms0, Ps0, C, Pc.
    repeat split.
    destruct r1, r10; cbn [sameKind] in K |- *; try contradiction; auto. }
  split.
  - apply (G s).
  - intros s'. apply (G s').
Qed.

Section SteadyScan.

Variable ctx : AppContext.
Variable explorer : string -> option N -> N -> Settled (list EtherscanTx).

Lemma Steady_scanTxid tx : Steady (scanTxid ctx tx).
Proof.
  unfold scanTxid.
  destruct (negb (Str.truthy (from_ tx))); [apply Steady_throw|].
  destruct (blockHash tx); [|apply Steady_throw].
  destruct (to tx) as [recipient|]; [|apply Steady_ret].
  destruct (negb (Str.truthy recipient)); [apply Steady_ret|].
  destruct (negb (String.eqb _ _)); [apply Steady_ret|].
  destruct (value tx =? 0)%N; [apply Steady_ret|].
  destruct (gasPrice tx); [|apply Steady_throw].
  destruct (fetchOrderForAddress ctx (from_ tx)); [|apply Steady_ret].
  destruct (Ethers.formatEtherString _); [|apply Steady_throw].
  intros sink. unfold bind, maybeInternalCreateDeposit. cbn [cd_uniqueId].
  split.
  - destruct (has_key _ sink) eqn:E; cbn; rewrite E; reflexivity.
  - intros sink'. destruct (has_key _ sink), (has_key _ sink'); repeat split.
Qed.

Lemma Steady_verifyCandidate order orderId c :
  Steady (verifyCandidate ctx order orderId c).
Proof.
  unfold verifyCandidate.
  apply Steady_seq; [apply Steady_emit_node; exact I|].
  destruct (getTransaction ctx (es_hash c)) as [tx|]; [|apply Steady_log].
  destruct (blockNumber tx) as [[|number]|]; try apply Steady_log.
  apply Steady_seq; [apply Steady_emit_node; exact I|].
  destruct (getBlock ctx (N.pos number)); [|apply Steady_throw].
  destruct (JsDate.lt _ _); [apply Steady_log|].
  apply Steady_seq; [apply Steady_log|].
  apply Steady_seq; [apply Steady_scanTxid | apply Steady_ret].
Qed.

Lemma Steady_processPage order orderId txs :
  Steady (processPage ctx order orderId txs).
Proof.
  unfold processPage. destruct (filterPositive txs); [|apply Steady_throw].
  apply Steady_seq; [apply Steady_log|].
  apply Steady_pMap. intros c. apply Steady_verifyCandidate.
Qed.

Lemma Steady_pageLoop order deposit orderId fuel : forall page,
  Steady (pageLoop ctx explorer fuel order deposit orderId page).
Proof.
  induction fuel as [|fuel IH]; intros page; cbn [pageLoop].
  - intros s. repeat split.
  - apply Steady_seq; [apply Steady_emit_node; exact I|].
    destruct (explorer _ _ page) as [txs|e].
    + destruct (List.length txs =? 0)%nat; [apply Steady_ret|].
      apply Steady_seq; [apply Steady_processPage | apply IH].
    + apply Steady_seq; [apply Steady_log | apply Steady_ret].
Qed.

Lemma Steady_scanOrder fuel orderId :
  Steady (scanOrder ctx explorer fuel orderId).
Proof.
  unfold scanOrder. apply Steady_seq; [apply Steady_log|].
  destruct (findOneBy ctx orderId) as [order|].
  - destruct (depositAddress order) as [deposit|].
    + apply Steady_pageLoop.
    + apply Steady_seq; [apply Steady_log | apply Steady_ret].
  - apply Steady_seq; [apply Steady_log | apply Steady_ret].
Qed.

End SteadyScan.

(** ** The Credit Sink under repeated calls *)

Lemma has_key_count k s :
  (has_key k s = true -> (1 <= countKey k s)%nat)
  /\ (has_key k s = false -> countKey k s = 0%nat).
Proof.
  unfold has_key, countKey. induction s as [|r s [IHt IHf]]; cbn [existsb filter].
  - split; [discriminate | reflexivity].
  - destruct (String.eqb (cd_uniqueId r) k); cbn [orb List.length].
    + split; [lia | discriminate].
    + split; assumption.
Qed.

Lemma countKey_cons k a s :
  countKey k (a :: s)
  = ((if String.eqb (cd_uniqueId a) k then 1 else 0) + countKey k s)%nat.
Proof.
  unfold countKey. cbn [filter].
  destruct (String.eqb (cd_uniqueId a) k); reflexivity.
Qed.

Lemma applyCalls_keeps_one calls : forall s,
  oneRecordPerKey s -> oneRecordPerKey (applyCalls calls s).
Proof.
  induction calls as [|a calls IH]; intros s H; cbn [applyCalls]; [exact H|].
  apply IH. destruct (has_key (cd_uniqueId a) s) eqn:E; [exact H|].
  intros k. rewrite countKey_cons.
  destruct (String.eqb_spec (cd_uniqueId a) k) as [<-|].
  - rewrite (proj2 (has_key_count _ _) E). lia.
  - apply H.
Qed.

Lemma has_key_cons k a s :
  has_key k (a :: s) = String.eqb (cd_uniqueId a) k || has_key k s.
Proof. reflexivity. Qed.

Lemma applyCalls_has_key_mono calls : forall s k,
  has_key k s = true -> has_key k (applyCalls calls s) = true.
Proof.
  induction calls as [|a calls IH]; intros s k H; cbn [applyCalls]; [exact H|].
  apply IH. destruct (has_key (cd_uniqueId a) s); [exact H|].
  rewrite has_key_cons, H. apply orb_true_r.
Qed.

Lemma applyCalls_has_key calls : forall s a,
  In a calls -> has_key (cd_uniqueId a) (applyCalls calls s) = true.
Proof.
  induction calls as [|b calls IH]; intros s a; [intros []|].
  intros [<-|H]; cbn [applyCalls].
  - apply applyCalls_has_key_mono.
    destruct (has_key (cd_uniqueId b) s) eqn:E; [exact E|].
    rewrite has_key_cons, String.eqb_refl. reflexivity.
  - apply IH, H.
Qed.

Lemma applyCalls_known calls : forall s,
  (forall a, In a calls -> has_key (cd_uniqueId a) s = true) ->
  applyCalls calls s = s.
Proof.
  induction calls as [|b calls IH]; intros s H; cbn [applyCalls]; [reflexivity|].
  rewrite (H b (or_introl eq_refl)). apply IH.
  intros a Ha. apply H. right. exact Ha.
Qed.

Lemma applyCalls_idempotent calls s :
  applyCalls calls (applyCalls calls s) = applyCalls calls s.
Proof. apply applyCalls_known. intros a Ha. apply applyCalls_has_key, Ha. Qed.

Lemma creditCalls_In t args applied :
  In (Credit args applied) t -> In args (creditCalls t).
Proof.
  induction t as [|ev t IH]; [intros []|].
  intros [->|H]; [left; reflexivity|].
  destruct ev; cbn [creditCalls]; auto. right. auto.
Qed.

Lemma rerun_steady (scan : Async ScanOutcome) s0 :
  Steady scan ->
  forall n, (1 <= n)%nat -> rerun scan n s0 = sink_after (scan s0).
Proof.
  intros H.
  assert (Fix : forall n,
             rerun scan n (sink_after (scan s0)) = sink_after (scan s0)).
  { induction n as [|n IH]; cbn [rerun]; [reflexivity|].
    destruct (H (sink_after (scan s0))) as [E _]. rewrite E.
    destruct (H s0) as [E0 I0]. destruct (I0 (sink_after (scan s0))) as [C _].
    rewrite C, E0, applyCalls_idempotent, <- E0. exact IH. }
  intros [|n] Hn; [lia|]. cbn [rerun]. apply Fix.
Qed.

(** ** How an order's scan completes *)

Lemma bind_completion {A B} (m : Async A) (k : A -> Async B) s :
  completion (bind m k s)
  = match completion (m s) with
    | Returned a => completion (k a (sink_after (m s)))
    | Threw e => Threw e
    | Running => Running
    end.
Proof.
  unfold bind, completion, sink_after.
  destruct (m s) as [[[a| |] s1] t1]; cbn [fst snd]; try reflexivity.
  destruct (k a s1) as [[r s2] t2]. reflexivity.
Qed.

Lemma scanTxid_not_running ctx tx s : completion (scanTxid ctx tx s) <> Running.
Proof.
  unfold scanTxid.
  destruct (negb (Str.truthy (from_ tx))); [discriminate|].
  destruct (blockHash tx); [|discriminate].
  destruct (to tx) as [recipient|]; [|discriminate].
  destruct (negb (Str.truthy recipient)); [discriminate|].
  destruct (negb (String.eqb _ _)); [discriminate|].
  destruct (value tx =? 0)%N; [discriminate|].
  destruct (gasPrice tx); [|discriminate].
  destruct (fetchOrderForAddress ctx (from_ tx)); [|discriminate].
  destruct (Ethers.formatEtherString _); [|discriminate].
  unfold bind, maybeInternalCreateDeposit. cbn [cd_uniqueId].
  destruct (has_key _ s); discriminate.
Qed.

Lemma verifyCandidate_not_running ctx order orderId c s :
  completion (verifyCandidate ctx order orderId c s) <> Running.
Proof.
  unfold verifyCandidate. rewrite bind_completion.
  cbn [emit completion fst sink_after snd].
  destruct (getTransaction ctx (es_hash c)) as [tx|]; [|discriminate].
  destruct (blockNumber tx) as [[|number]|]; try discriminate.
  rewrite bind_completion. cbn [emit completion fst sink_after snd].
  destruct (getBlock ctx (N.pos number)); [|discriminate].
  destruct (JsDate.lt _ _); [discriminate|].
  rewrite bind_completion. cbn [logger emit completion fst sink_after snd].
  rewrite bind_completion.
  pose proof (scanTxid_not_running ctx tx s) as R.
  destruct (completion (scanTxid ctx tx s));
    [discriminate | discriminate | congruence].
Qed.

(** A mapper that raises makes [pMap] raise. *)
Lemma pMap_raises ctx order orderId cs c s0 e0 :
  In c cs ->
  completion (verifyCandidate ctx order orderId c s0) = Threw e0 ->
  forall s, exists e,
    completion (pMap (verifyCandidate ctx order orderId) cs s) = Threw e.
Proof.
  intros Hin T. induction cs as [|x rest IH]; [destruct Hin|]. intros s.
  cbn [pMap].
  pose proof (verifyCandidate_not_running ctx order orderId x s) as NR.
  destruct (Steady_verifyCandidate ctx order orderId x s0) as [_ K].
  specialize (K s). destruct K as [_ K].
  unfold completion in *.
  destruct (verifyCandidate ctx order orderId x s) as [[r1 s1] t1] eqn:E1.
  cbn [fst] in *.
  destruct Hin as [->|Hin].
  - rewrite T in K. destruct r1 as [u|e|]; cbn [sameKind] in K; try contradiction.
    destruct (pMap _ rest s1) as [[r2 s2] t2]. exists e. reflexivity.
  - destruct (IH Hin s1) as [e He].
    destruct (pMap _ rest s1) as [[r2 s2] t2]. cbn [fst] in *.
    destruct r1 as [u|e'|];
      [exists e; exact He | exists e'; reflexivity | congruence].
Qed.

Section Completion.

Variable ctx : AppContext.
Variable explorer : string -> option N -> N -> Settled (list EtherscanTx).
Variables (order : Order) (deposit : DepositAddress) (orderId : string).

Lemma pageLoop_step fuel page s :
  pageLoop ctx explorer (S fuel) order deposit orderId page s
  = match explorer (address deposit) (createdAtBlockNumber order) page with
    | Rejected e =>
        (Returned Aborted, s,
         [FetchPage (address deposit) (createdAtBlockNumber order) page;
          Log error (ErrorFetchingTxs orderId e)])
    | Fulfilled txs =>
        if (List.length txs =? 0)%nat
        then (Returned Exhausted, s,
              [FetchPage (address deposit) (createdAtBlockNumber order) page])
        else
          let '(r1, s1, t1) := processPage ctx order orderId txs s in
          match r1 with
          | Returned _ =>
              let '(r2, s2, t2) := pageLoop ctx explorer fuel order deposit orderId (page + 1)%N s1 in
              (r2, s2,
               FetchPage (address deposit) (createdAtBlockNumber order) page
               :: t1 ++ t2)
          | Threw e =>
              (Threw e, s1,
               FetchPage (address deposit) (createdAtBlockNumber order) page
               :: t1)
          | Running =>
              (Running, s1,
               FetchPage (address deposit) (createdAtBlockNumber order) page
               :: t1)
          end
    end.
Proof.
  cbn [pageLoop]. unfold bind, emit, logger, ret.
  cbv beta iota zeta.
  destruct (explorer _ _ page) as [txs|e]; [|reflexivity].
  destruct (List.length txs =? 0)%nat; [reflexivity|].
  destruct (processPage ctx order orderId txs s) as [[[u|e|] s1] t1];
    try reflexivity.
  destruct (pageLoop ctx explorer fuel order deposit orderId (page + 1) s1)
    as [[r2 s2] t2].
  reflexivity.
Qed.

(** The loop returns [Aborted] only after a page fetch was rejected and
    the rejection was logged as an error. *)
Lemma pageLoop_aborted fuel : forall page s,
  completion (pageLoop ctx explorer fuel order deposit orderId page s)
  = Returned Aborted ->
  exists page' e,
    explorer (address deposit) (createdAtBlockNumber order) page' = Rejected e
    /\ In (Log error (ErrorFetchingTxs orderId e))
         (trace (pageLoop ctx explorer fuel order deposit orderId page s)).
Proof.
  induction fuel as [|fuel IH]; intros page s; [discriminate|].
  rewrite pageLoop_step.
  destruct (explorer (address deposit) (createdAtBlockNumber order) page)
    as [txs|e'] eqn:Ef.
  - destruct (List.length txs =? 0)%nat; [discriminate|].
    destruct (processPage ctx order orderId txs s) as [[[u|e'|] s1] t1];
      try discriminate.
    specialize (IH (page + 1)%N s1).
    destruct (pageLoop ctx explorer fuel order deposit orderId (page + 1)%N s1)
      as [[r2 s2] t2].
    intros H. destruct (IH H) as (page' & e & Hf & Hin).
    exists page', e. split; [exact Hf|].
    unfold trace in *. cbn [snd] in *. right. apply in_or_app. right. exact Hin.
  - intros _. exists page, e'. split; [exact Ef|].
    unfold trace. cbn [snd]. right. left. reflexivity.
Qed.

(** A failure raised while a fetched page is processed is raised by
    the loop. *)
Lemma pageLoop_propagates fuel page txs s e :
  explorer (address deposit) (createdAtBlockNumber order) page
  = Fulfilled txs ->
  txs <> [] ->
  completion (processPage ctx order orderId txs s) = Threw e ->
  completion (pageLoop ctx explorer (S fuel) order deposit orderId page s)
  = Threw e.
Proof.
  intros Ef Hne T. rewrite pageLoop_step, Ef.
  destruct txs as [|tx txs]; [congruence|]. cbn [List.length Nat.eqb].
  unfold completion in T.
  destruct (processPage ctx order orderId (tx :: txs) s) as [[r1 s1] t1].
  cbn [fst] in T. subst r1. reflexivity.
Qed.

End Completion.

(** C4 (counterexample). Scenario C: page 1 holds a sweep without a
    legacy gas price. The order's scan ends with the failure raised, not
    with a return, and no error line is logged. *)
Lemma unsupported_fee_model_escapes :
  let r := scanOrder Scenario.worldC
             (Scenario.pages [Scenario.sumE; Scenario.sumX]) 5 "order-1" [] in
  completion r = Threw (Error "Unsupported EIP-1559 sweep transaction")
  /\ (forall line, ~ In (Log error line) (trace r))
  /\ ~ (exists outcome, completion r = Returned outcome).
Proof.
  cbv zeta. split; [reflexivity|]. split.
  - intros line H. vm_compute in H.
    repeat (destruct H as [H|H]; [discriminate H|]). destruct H.
  - intros [outcome H]. vm_compute in H. discriminate H.
Qed.

(** C4 (amended). Within one order's scan, a missing order, a missing
    deposit address and a rejected page fetch are logged as errors and
    end the scan with a return, and the scan returns [Aborted] only
    after such a rejection was logged. The following are not caught: a
    rejected order query, a value the filter cannot compare with zero,
    and a candidate whose verification raises each make the callback,
    or the loop on that page, raise; and a sweep that passes the earlier
    checks but has no legacy gas price raises such a failure. *)
Theorem failures_logged_or_raised ctx explorer fuel orderId s :
  let r := scanOrder ctx explorer fuel orderId s in
  (findOneBy ctx orderId = None ->
   r = (Returned OrderMissing, s,
        [Log info (ProcessingQueuedTask orderId);
         Log error (OrderNotFound orderId)]))
  /\ (forall order,
        findOneBy ctx orderId = Some order -> depositAddress order = None ->
        r = (Returned NoDepositAddress, s,
             [Log info (ProcessingQueuedTask orderId);
              Log error (OrderHasNoDepositAddress orderId)]))
  /\ (forall order deposit page e fuel' s',
        explorer (address deposit) (createdAtBlockNumber order) page
        = Rejected e ->
        pageLoop ctx explorer (S fuel') order deposit orderId page s'
        = (Returned Aborted, s',
           [FetchPage (address deposit) (createdAtBlockNumber order) page;
            Log error (ErrorFetchingTxs orderId e)]))
  /\ (completion r = Returned Aborted ->
      exists a startblock page e,
        explorer a startblock page = Rejected e
        /\ In (Log error (ErrorFetchingTxs orderId e)) (trace r))
  /\ (forall e,
        scanOrderOn ctx explorer (Some e) fuel orderId s
        = (Threw e, s, [Log info (ProcessingQueuedTask orderId)]))
  /\ (forall order deposit page txs tx fuel' s',
        explorer (address deposit) (createdAtBlockNumber order) page
        = Fulfilled txs ->
        In tx txs ->
        Ethers.BigNumber_from (es_value tx) = None ->
        pageLoop ctx explorer (S fuel') order deposit orderId page s'
        = (Threw (BigNumberError "invalid BigNumber string"), s',
           [FetchPage (address deposit) (createdAtBlockNumber order) page]))
  /\ (forall order deposit page txs kept c s0 e0 fuel' s',
        explorer (address deposit) (createdAtBlockNumber order) page
        = Fulfilled txs ->
        filterPositive txs = Some kept ->
        In c (firstn 10 kept) ->
        completion (verifyCandidate ctx order orderId c s0) = Threw e0 ->
        exists e,
          completion (pageLoop ctx explorer (S fuel') order deposit orderId
                        page s') = Threw e)
  /\ (forall tx recipient s',
        from_ tx <> EmptyString -> blockHash tx <> None ->
        to tx = Some recipient -> recipient <> EmptyString ->
        String.eqb (Str.toLowerCase recipient) (Str.toLowerCase (account ctx))
        = true ->
        value tx <> 0%N -> gasPrice tx = None ->
        scanTxid ctx tx s'
        = (Threw (Error "Unsupported EIP-1559 sweep transaction"), s', [])).
Proof.
  cbv zeta. unfold scanOrder.
  split; [|split; [|split; [|split; [|split; [|split; [|split]]]]]].
  - intros ->. reflexivity.
  - intros order -> ->. reflexivity.
  - intros order deposit page e fuel' s' Hf.
    rewrite pageLoop_step, Hf. reflexivity.
  - rewrite bind_completion, bind_trace.
    cbn [logger emit completion sink_after trace fst snd].
    destruct (findOneBy ctx orderId) as [order|]; [|discriminate].
    destruct (depositAddress order) as [deposit|]; [|discriminate].
    intros H.
    destruct (pageLoop_aborted ctx explorer order deposit orderId fuel 1%N s H)
      as (page & e & Hf & Hin).
    exists (address deposit), (createdAtBlockNumber order), page, e.
    split; [exact Hf | right; exact Hin].
  - intros e. reflexivity.
  - intros order deposit page txs tx fuel' s' Hf Hin E.
    rewrite pageLoop_step, Hf.
    destruct txs as [|x rest]; [destruct Hin|]. cbn [List.length Nat.eqb].
    unfold processPage. rewrite (filterPositive_none _ tx Hin E). reflexivity.
  - intros order deposit page txs kept c s0 e0 fuel' s' Hf Hk Hin T.
    assert (Hne : txs <> []).
    { intros ->. cbn in Hk. injection Hk as <-. destruct Hin. }
    destruct (pMap_raises ctx order orderId (firstn 10 kept) c s0 e0 Hin T s')
      as [e He].
    exists e.
    apply (pageLoop_propagates ctx explorer order deposit orderId fuel' page
             txs s' e Hf Hne).
    unfold processPage. rewrite Hk, bind_completion.
    cbn [logger emit completion sink_after fst snd]. exact He.
  - intros tx recipient s' Hfrom Hbh Et Er El Ev Eg.
    exact (scanTxid_unsupported ctx tx s' Hfrom Hbh recipient Et Er El Ev Eg).
Qed.

Lemma failures_logged_or_raised_witness :
  (exists e,
      completion
        (pageLoop Scenario.worldC
           (Scenario.pages [Scenario.sumE; Scenario.sumX])
           1 Scenario.order1 (mkDepositAddress "0xd1") "order-1" 1%N [])
      = Threw e)
  /\ pageLoop Scenario.worldC
       (Scenario.pages [Scenario.sumX; mkEtherscanTx "0xa4" "0xd1" "0xacc0" "0X5"])
       1 Scenario.order1 (mkDepositAddress "0xd1") "order-1" 1%N []
     = (Threw (BigNumberError "invalid BigNumber string"), [],
        [FetchPage "0xd1" (Some 100%N) 1]).
Proof.
  destruct (failures_logged_or_raised Scenario.worldC
              (Scenario.pages [Scenario.sumE; Scenario.sumX]) 5 "order-1" [])
    as (_ & _ & _ & _ & _ & _ & H & _).
  destruct (failures_logged_or_raised Scenario.worldC
              (Scenario.pages
                 [Scenario.sumX; mkEtherscanTx "0xa4" "0xd1" "0xacc0" "0X5"])
              5 "order-1" [])
    as (_ & _ & _ & _ & _ & F & _).
  split.
  - apply (H Scenario.order1 (mkDepositAddress "0xd1") 1%N
             [Scenario.sumE; Scenario.sumX] [Scenario.sumE; Scenario.sumX]
             Scenario.sumE [] (Error "Unsupported EIP-1559 sweep transaction")
             0%nat []).
    + reflexivity.
    + reflexivity.
    + left. reflexivity.
    + reflexivity.
  - apply (F Scenario.order1 (mkDepositAddress "0xd1") 1%N
             [Scenario.sumX; mkEtherscanTx "0xa4" "0xd1" "0xacc0" "0X5"]
             (mkEtherscanTx "0xa4" "0xd1" "0xacc0" "0X5") 0%nat []).
    + reflexivity.
    + right. left. reflexivity.
    + reflexivity.
Defined.

(** ** Pagination *)

Lemma fetched_app t1 t2 : fetched (t1 ++ t2) = fetched t1 ++ fetched t2.
Proof.
  induction t1 as [|ev t1 IH]; [reflexivity|].
  destruct ev; cbn [app fetched]; rewrite IH; reflexivity.
Qed.

Lemma scanTxid_fetched ctx tx s : fetched (trace (scanTxid ctx tx s)) = [].
Proof.
  unfold scanTxid.
  destruct (negb (Str.truthy (from_ tx))); [reflexivity|].
  destruct (blockHash tx); [|reflexivity].
  destruct (to tx) as [recipient|]; [|reflexivity].
  destruct (negb (Str.truthy recipient)); [reflexivity|].
  destruct (negb (String.eqb _ _)); [reflexivity|].
  destruct (value tx =? 0)%N; [reflexivity|].
  destruct (gasPrice tx); [|reflexivity].
  destruct (fetchOrderForAddress ctx (from_ tx)); [|reflexivity].
  destruct (Ethers.formatEtherString _); [|reflexivity].
  unfold bind, maybeInternalCreateDeposit. cbn [cd_uniqueId].
  destruct (has_key _ s); reflexivity.
Qed.

Lemma verifyCandidate_fetched ctx order orderId c s :
  fetched (trace (verifyCandidate ctx order orderId c s)) = [].
Proof.
  unfold verifyCandidate. rewrite bind_trace, fetched_app.
  cbn [emit trace completion sink_after fst snd fetched app].
  destruct (getTransaction ctx (es_hash c)) as [tx|]; [|reflexivity].
  destruct (blockNumber tx) as [[|number]|]; try reflexivity.
  rewrite bind_trace, fetched_app.
  cbn [emit trace completion sink_after fst snd fetched app].
  destruct (getBlock ctx (N.pos number)) as [block|]; [|reflexivity].
  destruct (JsDate.lt _ _); [reflexivity|].
  rewrite bind_trace, fetched_app.
  cbn [logger emit trace completion sink_after fst snd fetched app].
  rewrite bind_trace, fetched_app, scanTxid_fetched.
  destruct (completion _); reflexivity.
Qed.

Lemma pMap_fetched ctx order orderId cs : forall s,
  fetched (trace (pMap (verifyCandidate ctx order orderId) cs s)) = [].
Proof.
  induction cs as [|c cs IH]; intros s; cbn [pMap]; [reflexivity|].
  pose proof (verifyCandidate_fetched ctx order orderId c s) as V.
  destruct (verifyCandidate ctx order orderId c s) as [[r1 s1] t1].
  specialize (IH s1).
  destruct (pMap (verifyCandidate ctx order orderId) cs s1) as [[r2 s2] t2].
  unfold trace in *. cbn [snd] in *. rewrite fetched_app, V, IH. reflexivity.
Qed.

Lemma processPage_fetched ctx order orderId txs s :
  fetched (trace (processPage ctx order orderId txs s)) = [].
Proof.
  unfold processPage. destruct (filterPositive txs); [|reflexivity].
  rewrite bind_trace, fetched_app.
  cbn [logger emit trace completion sink_after fst snd fetched app].
  apply pMap_fetched.
Qed.

Section Pagination.

Variable ctx : AppContext.
Variable explorer : string -> option N -> N -> Settled (list EtherscanTx).
Variables (order : Order) (deposit : DepositAddress) (orderId : string).

(** The pages the explorer holds for the order's deposit address. *)
Variable pages : N -> list EtherscanTx.

Hypothesis fetches_succeed : forall page,
  explorer (address deposit) (createdAtBlockNumber order) page
  = Fulfilled (pages page).

Hypothesis nothing_raised : forall page s,
  completion (processPage ctx order orderId (pages page) s) = Returned tt.

Lemma loop_over_nonempty fuel : forall page s,
  (forall j, (j < fuel)%nat -> pages (page + N.of_nat j) <> []) ->
  completion (pageLoop ctx explorer fuel order deposit orderId page s) = Running
  /\ fetched (trace (pageLoop ctx explorer fuel order deposit orderId page s))
     = pagesFrom page fuel.
Proof.
  induction fuel as [|fuel IH]; intros page s H; [split; reflexivity|].
  rewrite pageLoop_step, fetches_succeed.
  assert (H0 : pages page <> []).
  { specialize (H 0%nat ltac:(lia)). rewrite N.add_0_r in H. exact H. }
  destruct (pages page) as [|tx txs] eqn:Ep; [congruence|].
  cbn [List.length Nat.eqb].
  pose proof (nothing_raised page s) as R. rewrite Ep in R.
  pose proof (processPage_fetched ctx order orderId (tx :: txs) s) as F.
  unfold completion, trace in R, F.
  destruct (processPage ctx order orderId (tx :: txs) s) as [[r1 s1] t1].
  cbn [fst snd] in R, F. subst r1.
  destruct (IH (page + 1)%N s1) as [C T].
  { intros j Hj. specialize (H (S j) ltac:(lia)).
    replace (page + 1 + N.of_nat j)%N with (page + N.of_nat (S j))%N by lia.
    exact H. }
  unfold completion, trace in C, T |- *.
  destruct (pageLoop ctx explorer fuel order deposit orderId (page + 1) s1)
    as [[r2 s2] t2].
  cbn [fst snd] in *. split; [exact C|].
  cbn [fetched pagesFrom]. rewrite fetched_app, F, T. reflexivity.
Qed.

Lemma loop_until_empty k : forall fuel page s,
  (k < fuel)%nat ->
  (forall j, (j < k)%nat -> pages (page + N.of_nat j) <> []) ->
  pages (page + N.of_nat k) = [] ->
  completion (pageLoop ctx explorer fuel order deposit orderId page s)
  = Returned Exhausted
  /\ fetched (trace (pageLoop ctx explorer fuel order deposit orderId page s))
     = pagesFrom page (S k).
Proof.
  induction k as [|k IH]; intros fuel page s Hk H E;
    (destruct fuel as [|fuel]; [lia|]);
    rewrite pageLoop_step, fetches_succeed.
  - rewrite N.add_0_r in E. rewrite E. split; reflexivity.
  - assert (H0 : pages page <> []).
    { specialize (H 0%nat ltac:(lia)). rewrite N.add_0_r in H. exact H. }
    destruct (pages page) as [|tx txs] eqn:Ep; [congruence|].
    cbn [List.length Nat.eqb].
    pose proof (nothing_raised page s) as R. rewrite Ep in R.
    pose proof (processPage_fetched ctx order orderId (tx :: txs) s) as F.
    unfold completion, trace in R, F.
    destruct (processPage ctx order orderId (tx :: txs) s) as [[r1 s1] t1].
    cbn [fst snd] in R, F. subst r1.
    destruct (IH fuel (page + 1)%N s1) as [C T].
    { lia. }
    { intros j Hj. specialize (H (S j) ltac:(lia)).
      replace (page + 1 + N.of_nat j)%N with (page + N.of_nat (S j))%N by lia.
      exact H. }
    { replace (page + 1 + N.of_nat k)%N with (page + N.of_nat (S k))%N by lia.
      exact E. }
    unfold completion, trace in C, T |- *.
    destruct (pageLoop ctx explorer fuel order deposit orderId (page + 1) s1)
      as [[r2 s2] t2].
    cbn [fst snd] in *. split; [exact C|].
    cbn [fetched]. rewrite fetched_app, F, T. reflexivity.
Qed.

(** Among the first [fuel] pages from [page] on, either none is empty
    or there is a first empty one. *)
Lemma first_empty_page fuel page :
  (forall j, (j < fuel)%nat -> pages (page + N.of_nat j) <> [])
  \/ exists k, (k < fuel)%nat
               /\ pages (page + N.of_nat k) = []
               /\ forall j, (j < k)%nat -> pages (page + N.of_nat j) <> [].
Proof.
  induction fuel as [|fuel [IH|(k & Hk & E & H)]].
  - left. intros j Hj. lia.
  - destruct (pages (page + N.of_nat fuel)) as [|tx txs] eqn:E.
    + right. exists fuel. repeat split; [lia | exact E | exact IH].
    + left. intros j Hj.
      destruct (Nat.eq_dec j fuel) as [->|]; [rewrite E; discriminate|].
      apply IH. lia.
  - right. exists k. repeat split; [lia | exact E | exact H].
Qed.

End Pagination.

Lemma In_pagesFrom count : forall first page,
  In page (pagesFrom first count)
  <-> exists j, (j < count)%nat /\ page = (first + N.of_nat j)%N.
Proof.
  induction count as [|count IH]; intros first page; cbn [pagesFrom].
  - split; [intros [] | intros (j & Hj & _); lia].
  - cbn [In]. rewrite IH. split.
    + intros [<-|(j & Hj & ->)].
      * exists 0%nat. split; [lia | rewrite N.add_0_r; reflexivity].
      * exists (S j). split; lia.
    + intros ([|j] & Hj & ->).
      * left. rewrite N.add_0_r. reflexivity.
      * right. exists j. split; lia.
Qed.

(** C6 (counterexample). Scenario C: every page fetch succeeds, page 1
    is not empty and page 2 is empty; the scan ends on page 1, with the
    failure a candidate raised, and never reaches [Exhausted]. *)
Lemma nonempty_page_ends_the_scan :
  let explorer := Scenario.pages [Scenario.sumE; Scenario.sumX] in
  let r := pageLoop Scenario.worldC explorer 5 Scenario.order1
             (mkDepositAddress "0xd1") "order-1" 1 [] in
  (forall page, exists txs, explorer "0xd1" (Some 100%N) page = Fulfilled txs)
  /\ explorer "0xd1" (Some 100%N) 1%N = Fulfilled [Scenario.sumE; Scenario.sumX]
  /\ explorer "0xd1" (Some 100%N) 2%N = Fulfilled []
  /\ fetched (trace r) = [1%N]
  /\ completion r = Threw (Error "Unsupported EIP-1559 sweep transaction")
  /\ completion r <> Returned Exhausted.
Proof.
  cbv zeta. repeat split; try reflexivity; try discriminate.
  intros page. unfold Scenario.pages. destruct (page =? 1)%N; eauto.
Qed.

(** C6 (amended). Page fetches succeeding and no failure being raised
    while a page's candidates are filtered and verified: the pages are
    requested one after the other, 1, 2, 3, ...; the loop reaches
    [Exhausted] exactly when one of the pages it fetched is empty; while
    the pages are non-empty the loop is still running, so a non-empty
    page never ends the scan; and if some page is empty the loop
    terminates in [Exhausted]. *)
Theorem pagination_stops_at_the_first_empty_page
  ctx explorer order deposit orderId pages :
  (forall page,
      explorer (address deposit) (createdAtBlockNumber order) page
      = Fulfilled (pages page)) ->
  (forall page s,
      completion (processPage ctx order orderId (pages page) s) = Returned tt) ->
  forall fuel s,
    let r := pageLoop ctx explorer fuel order deposit orderId 1 s in
    (exists count, (count <= fuel)%nat /\ fetched (trace r) = pagesFrom 1 count)
    /\ (completion r = Returned Exhausted
        <-> exists page, In page (fetched (trace r)) /\ pages page = [])
    /\ ((forall j, (j < fuel)%nat -> pages (1 + N.of_nat j)%N <> []) ->
        completion r = Running /\ fetched (trace r) = pagesFrom 1 fuel)
    /\ (forall k, (k < fuel)%nat -> pages (1 + N.of_nat k)%N = [] ->
        completion r = Returned Exhausted).
Proof.
  intros Hf Hr fuel s r.
  pose proof (loop_over_nonempty ctx explorer order deposit orderId pages
                Hf Hr fuel 1%N s) as Non.
  fold r in Non.
  destruct (first_empty_page pages fuel 1%N) as [All|(k & Hk & E & Before)].
  - destruct (Non All) as [C T]. repeat split.
    + exists fuel. split; [lia | exact T].
    + rewrite C. discriminate.
    + intros (page & Hin & Hp). rewrite T in Hin.
      apply In_pagesFrom in Hin as (j & Hj & ->). exfalso. exact (All j Hj Hp).
    + exact C.
    + exact T.
    + intros k Hk Hp. exfalso. exact (All k Hk Hp).
  - destruct (loop_until_empty ctx explorer order deposit orderId pages
                Hf Hr k fuel 1%N s Hk Before E) as [C T].
    fold r in C, T. repeat split.
    + exists (S k). split; [lia | exact T].
    + intros _. exists (1 + N.of_nat k)%N. split; [|exact E].
      rewrite T. apply In_pagesFrom. exists k. split; [lia | reflexivity].
    + intros _. exact C.
    + exfalso. exact (H k Hk E).
    + exfalso. exact (H k Hk E).
    + intros _ _ _. exact C.
Qed.

Lemma pagination_stops_at_the_first_empty_page_witness :
  completion
    (pageLoop Scenario.worldA (Scenario.pages [Scenario.sumX; Scenario.sumY])
       5 Scenario.order1 (mkDepositAddress "0xd1") "order-1" 1 [])
  = Returned Exhausted.
Proof.
  assert (Hr : forall page s,
             completion
               (processPage Scenario.worldA Scenario.order1 "order-1"
                  ((fun p => if (p =? 1)%N
                             then [Scenario.sumX; Scenario.sumY] else []) page)
                  s)
             = Returned tt).
  { intros page s.
    destruct (Steady_processPage Scenario.worldA Scenario.order1 "order-1"
                (if (page =? 1)%N then [Scenario.sumX; Scenario.sumY] else [])
                []) as [_ K].
    destruct (K s) as [_ Kind]. cbv beta.
    destruct (completion (processPage _ _ _ _ s)) as [[]|e|];
      destruct (page =? 1)%N; vm_compute in Kind; try contradiction;
      reflexivity. }
  destruct (pagination_stops_at_the_first_empty_page Scenario.worldA
              (Scenario.pages [Scenario.sumX; Scenario.sumY]) Scenario.order1
              (mkDepositAddress "0xd1") "order-1"
              (fun p => if (p =? 1)%N then [Scenario.sumX; Scenario.sumY] else [])
              ltac:(intros page; unfold Scenario.pages;
                    destruct (page =? 1)%N; reflexivity)
              Hr 5 []) as (_ & _ & _ & H).
  apply (H 1%nat); [lia | reflexivity].
Defined.

(** ** Repeated scans *)

(** The calls a candidate makes when verified alone are among those of
    its page, and those of a fetched page among those of the loop. *)
Lemma pMap_calls_include ctx order orderId cs c a :
  In c cs ->
  In a (creditCalls (trace (verifyCandidate ctx order orderId c []))) ->
  forall s,
    In a (creditCalls (trace (pMap (verifyCandidate ctx order orderId) cs s))).
Proof.
  intros Hin Ha. induction cs as [|x rest IH]; [destruct Hin|]. intros s.
  cbn [pMap].
  destruct (Steady_verifyCandidate ctx order orderId x []) as [_ K].
  destruct (K s) as [Kc _].
  assert (R : In c rest ->
              In a (creditCalls
                      (trace (pMap (verifyCandidate ctx order orderId) rest
                                (sink_after
                                   (verifyCandidate ctx order orderId x s))))))
    by (intros H; apply IH, H).
  unfold trace, sink_after in *.
  destruct (verifyCandidate ctx order orderId x s) as [[r1 s1] t1].
  cbn [fst snd] in *.
  destruct (pMap (verifyCandidate ctx order orderId) rest s1) as [[r2 s2] t2].
  cbn [snd] in *. rewrite creditCalls_app. apply in_or_app.
  destruct Hin as [->|Hin]; [left; rewrite Kc; exact Ha | right; exact (R Hin)].
Qed.

Lemma processPage_calls_include ctx order orderId txs kept c a s :
  filterPositive txs = Some kept ->
  In c (firstn 10 kept) ->
  In a (creditCalls (trace (verifyCandidate ctx order orderId c []))) ->
  In a (creditCalls (trace (processPage ctx order orderId txs s))).
Proof.
  intros Hk Hc Ha. unfold processPage. rewrite Hk, bind_trace.
  cbn [logger emit trace completion sink_after fst snd creditCalls app].
  apply (pMap_calls_include ctx order orderId (firstn 10 kept) c a Hc Ha).
Qed.

Lemma pageLoop_calls_include ctx explorer order deposit orderId txs a page' :
  explorer (address deposit) (createdAtBlockNumber order) page'
  = Fulfilled txs ->
  (forall s, In a (creditCalls (trace (processPage ctx order orderId txs s)))) ->
  forall fuel page s,
    In page'
      (fetched (trace (pageLoop ctx explorer fuel order deposit orderId page s))) ->
    In a
      (creditCalls
         (trace (pageLoop ctx explorer fuel order deposit orderId page s))).
Proof.
  intros Hf Ha. induction fuel as [|fuel IH]; intros page s; [intros []|].
  rewrite pageLoop_step.
  destruct (explorer (address deposit) (createdAtBlockNumber order) page)
    as [txs0|e] eqn:Ef.
  - assert (Here : page = page' ->
                   In a (creditCalls
                           (trace (processPage ctx order orderId txs0 s)))).
    { intros Hp. rewrite Hp, Hf in Ef. injection Ef as <-. apply Ha. }
    destruct (List.length txs0 =? 0)%nat eqn:El.
    + unfold trace. cbn [snd fetched]. intros [Hp|[]].
      destruct txs0; [|discriminate El]. destruct (Here Hp).
    + pose proof (processPage_fetched ctx order orderId txs0 s) as Fp.
      unfold trace in *.
      destruct (processPage ctx order orderId txs0 s) as [[[u|e|] s1] t1];
        cbn [snd] in *.
      * specialize (IH (page + 1)%N s1).
        destruct (pageLoop ctx explorer fuel order deposit orderId
                    (page + 1)%N s1) as [[r2 s2] t2].
        cbn [snd fetched creditCalls] in *.
        rewrite fetched_app, Fp, creditCalls_app. cbn [app].
        intros [Hp|H]; apply in_or_app; [left; exact (Here Hp) | right; auto].
      * cbn [fetched creditCalls]. rewrite Fp.
        intros [Hp|[]]. exact (Here Hp).
      * cbn [fetched creditCalls]. rewrite Fp.
        intros [Hp|[]]. exact (Here Hp).
  - unfold trace. cbn [snd fetched]. intros [Hp|[]].
    rewrite Hp, Hf in Ef. discriminate Ef.
Qed.

Lemma applyCalls_In calls : forall s record,
  In record (applyCalls calls s) -> In record s \/ In record calls.
Proof.
  induction calls as [|a calls IH]; intros s record; cbn [applyCalls];
    [auto|].
  intros H. apply IH in H as [H|H]; [|right; right; exact H].
  destruct (has_key (cd_uniqueId a) s); [left; exact H|].
  destruct H as [<-|H]; [right; left; reflexivity | left; exact H].
Qed.

Lemma creditCalls_made t args :
  In args (creditCalls t) -> exists applied, In (Credit args applied) t.
Proof.
  induction t as [|ev t IH]; [intros []|].
  destruct ev as [ | | | |args' applied]; cbn [creditCalls];
    try (intros H; destruct (IH H) as [b Hb]; exists b; right; exact Hb).
  intros [<-|H]; [exists applied; left; reflexivity|].
  destruct (IH H) as [b Hb]. exists b. right. exact Hb.
Qed.

(** The call a qualifying transaction gives rise to is made by every
    scan that requests its page. *)
Lemma qualifying_is_offered ctx explorer fuel orderId order deposit page tx s :
  findOneBy ctx orderId = Some order ->
  depositAddress order = Some deposit ->
  Spec.validDate (createdAt order) ->
  In page (fetched (trace (scanOrder ctx explorer fuel orderId s))) ->
  Qualifying ctx explorer order deposit page tx ->
  exists args,
    In args (creditCalls (trace (scanOrder ctx explorer fuel orderId s)))
    /\ cd_txid args = hash tx
    /\ cd_uniqueId args
       = getEthereumNativeDepositUniqueId ctx (nativeMethod ctx) (hash tx).
Proof.
  intros Ho Hd V Hpage
    (txs & kept & c & number & block & price & o
     & Hf & Hk & Hc & Etx & En & N0 & Eb & Fresh & P & Hin & Hm & Ha).
  destruct (fetchOrderForAddress_finds ctx (from_ tx) o Hin Hm Ha)
    as [credited L].
  exists (creditFor ctx tx price credited).
  split; [|split; reflexivity].
  revert Hpage. unfold scanOrder. rewrite bind_trace, Ho, Hd.
  cbn [logger emit trace completion sink_after fst snd fetched creditCalls app].
  apply (pageLoop_calls_include ctx explorer order deposit orderId txs _ page Hf).
  intros s'. apply (processPage_calls_include _ _ _ _ kept c _ _ Hk Hc).
  assert (T : JsDate.lt (JsDate.getTime (Z.of_N (timestamp block) * 1000))
                (JsDate.getTime (createdAt order)) = false).
  { rewrite (stale_test _ _ V). apply Z.ltb_ge, Fresh. }
  rewrite (verifyCandidate_fresh ctx order orderId c tx number block []
             Etx En N0 Eb T).
  unfold trace at 1. cbn [snd]. rewrite creditCalls_app. cbn [creditCalls app].
  rewrite (scanTxid_calls_when_found ctx tx price credited [] P L).
  left. reflexivity.
Qed.

(** C3. Idempotence. The Credit Sink holding at most one record per
    dedup key, running the same order-scan once or any number of times
    over the same explorer pages, node and order table leaves the sink
    in the same state, which still holds at most one record per key;
    every call the scan makes carries the unique id of the method and
    the transaction hash as its dedup key, under which the sink then
    holds exactly one record; every qualifying transaction on a page
    the scan requested, the scan running to the first empty page, has
    exactly one record under its dedup key after the runs; and every
    record the runs added is that of a call made for a transaction the
    node resolved, not older than the order, that passed the checks and
    whose sender has an order. *)
Theorem idempotent_crediting ctx explorer fuel orderId s0 n :
  oneRecordPerKey s0 ->
  (1 <= n)%nat ->
  let scan := scanOrder ctx explorer fuel orderId in
  rerun scan n s0 = sink_after (scan s0)
  /\ oneRecordPerKey (rerun scan n s0)
  /\ (forall args applied,
        In (Credit args applied) (trace (scan s0)) ->
        cd_uniqueId args
        = getEthereumNativeDepositUniqueId ctx (nativeMethod ctx) (cd_txid args)
        /\ countKey (cd_uniqueId args) (rerun scan n s0) = 1%nat)
  /\ (forall order deposit page tx,
        findOneBy ctx orderId = Some order ->
        depositAddress order = Some deposit ->
        Spec.validDate (createdAt order) ->
        completion (scan s0) = Returned Exhausted ->
        In page (fetched (trace (scan s0))) ->
        Qualifying ctx explorer order deposit page tx ->
        countKey
          (getEthereumNativeDepositUniqueId ctx (nativeMethod ctx) (hash tx))
          (rerun scan n s0) = 1%nat
        /\ exists record,
             In record (rerun scan n s0)
             /\ cd_uniqueId record
                = getEthereumNativeDepositUniqueId ctx (nativeMethod ctx)
                    (hash tx))
  /\ (forall record,
        In record (rerun scan n s0) ->
        In record s0
        \/ exists order,
             findOneBy ctx orderId = Some order
             /\ Provenance ctx order record).
Proof.
  intros One Hn scan.
  pose proof (Steady_scanOrder ctx explorer fuel orderId) as St. fold scan in St.
  rewrite (rerun_steady scan s0 St n Hn).
  destruct (St s0) as [E _].
  assert (One' : oneRecordPerKey (sink_after (scan s0)))
    by (rewrite E; apply applyCalls_keeps_one, One).
  assert (Held : forall args,
             In args (creditCalls (trace (scan s0))) ->
             has_key (cd_uniqueId args) (sink_after (scan s0)) = true).
  { intros args H. rewrite E. apply applyCalls_has_key, H. }
  split; [reflexivity|]. split; [exact One'|]. split; [|split].
  - intros args applied H. split.
    + apply scanOrder_credit in H as (order & _ & P).
      destruct P as [candidate tx number block price credited _ _ _ _ _ _ ->].
      reflexivity.
    + apply creditCalls_In, Held, has_key_count in H.
      specialize (One' (cd_uniqueId args)). lia.
  - intros order deposit page tx Ho Hd V _ Hpage Q.
    destruct (qualifying_is_offered ctx explorer fuel orderId order deposit
                page tx s0 Ho Hd V Hpage Q) as (args & Hin & _ & <-).
    pose proof (Held args Hin) as K. split.
    + apply has_key_count in K. specialize (One' (cd_uniqueId args)). lia.
    + unfold has_key in K. apply existsb_exists in K as (record & Hr & Er).
      exists record. split; [exact Hr | apply String.eqb_eq, Er].
  - intros record H. rewrite E in H.
    apply applyCalls_In in H as [H|H]; [left; exact H | right].
    apply creditCalls_made in H as [applied H].
    apply (scanOrder_credit ctx explorer fuel orderId s0 record applied H).
Qed.

Lemma idempotent_crediting_witness :
  let scan := scanOrder Scenario.worldA
                (Scenario.pages [Scenario.sumX; Scenario.sumY]) 5 "order-1" in
  rerun scan 3 [] = sink_after (scan [])
  /\ countKey "ethereum/0xa1" (rerun scan 3 []) = 1%nat.
Proof.
  assert (One : oneRecordPerKey []) by (intros k; cbn; lia).
  assert (Hn : (1 <= 3)%nat) by lia.
  assert (V : Spec.validDate (createdAt Scenario.order1))
    by (unfold Spec.validDate; vm_compute; discriminate).
  assert (P : Spec.passesChecks Scenario.worldA Scenario.txX 2).
  { unfold Spec.passesChecks. cbn.
    repeat split; try discriminate.
    exists "0xacc0". repeat split. discriminate. }
  assert (Q : Qualifying Scenario.worldA
                (Scenario.pages [Scenario.sumX; Scenario.sumY])
                Scenario.order1 (mkDepositAddress "0xd1") 1 Scenario.txX).
  { exists [Scenario.sumX; Scenario.sumY], [Scenario.sumX; Scenario.sumY],
      Scenario.sumX, 105%N, (mkBlock 1700000100), 2%N, Scenario.order1.
    split; [reflexivity|]. split; [reflexivity|].
    split; [left; reflexivity|]. split; [reflexivity|].
    split; [reflexivity|]. split; [discriminate|].
    split; [reflexivity|]. split; [vm_compute; discriminate|].
    split; [exact P|].
    split; [left; reflexivity|]. split; reflexivity. }
  pose proof (idempotent_crediting Scenario.worldA
                (Scenario.pages [Scenario.sumX; Scenario.sumY]) 5 "order-1"
                [] 3 One Hn) as H.
  cbv zeta in H |- *. destruct H as (H1 & _ & _ & H4 & _).
  split; [exact H1|].
  refine (proj1 (H4 Scenario.order1 (mkDepositAddress "0xd1") 1%N Scenario.txX
                   eq_refl eq_refl V eq_refl _ Q)).
  vm_compute. left. reflexivity.
Defined.

(** * Further properties of the worker *)

(** ** The schema of a page *)

Lemma zod_string_iff v s : Zod.string v = Some s <-> v = JStr s.
Proof. destruct v; cbn; split; intros H; congruence. Qed.

Lemma zod_summary_iff item tx :
  Zod.summary item = Some tx <-> matchesSummary item tx.
Proof.
  unfold matchesSummary. split.
  - destruct item as [| | | | |l|fields]; try discriminate. cbn [Zod.summary].
    destruct (Zod.string (getProp "hash" fields)) as [h|] eqn:Eh; [|discriminate].
    destruct (Zod.string (getProp "from" fields)) as [f|] eqn:Ef; [|discriminate].
    destruct (Zod.string (getProp "to" fields)) as [t|] eqn:Et; [|discriminate].
    destruct (Zod.string (getProp "value" fields)) as [x|] eqn:Ex; [|discriminate].
    intros H. injection H as <-. exists fields. cbn.
    apply zod_string_iff in Eh, Ef, Et, Ex. auto.
  - intros (fields & -> & Eh & Ef & Et & Ex). cbn [Zod.summary].
    rewrite Eh, Ef, Et, Ex. destruct tx. reflexivity.
Qed.

Lemma zod_items_iff items : forall txs,
  Zod.items Zod.summary items = Some txs <-> Forall2 matchesSummary items txs.
Proof.
  induction items as [|item items IH]; intros txs; cbn [Zod.items].
  - split.
    + intros H. injection H as <-. constructor.
    + intros H. inversion H. reflexivity.
  - split.
    + destruct (Zod.summary item) as [tx|] eqn:E; [|discriminate].
      destruct (Zod.items Zod.summary items) as [r|] eqn:Er; [|discriminate].
      intros H. injection H as <-. constructor.
      * apply zod_summary_iff, E.
      * apply IH. reflexivity.
    + intros H. inversion H as [|item' tx items' r Hm Hr]; subst.
      apply zod_summary_iff in Hm. apply IH in Hr. rewrite Hm, Hr. reflexivity.
Qed.

(** X1. The schema accepts exactly the arrays whose elements are all
    objects with string properties [hash], [from], [to] and [value]; the
    page it yields has one summary per element, in the order of the
    array, made of these four strings; and any other value is rejected
    with a schema error. *)
Theorem schema_accepts_arrays_of_summaries v :
  (forall txs,
      accountTxListResultSchema_parse v = Fulfilled txs
      <-> exists items, v = JArr items /\ Forall2 matchesSummary items txs)
  /\ (forall e, accountTxListResultSchema_parse v = Rejected e -> e = ZodError).
Proof.
  split.
  - intros txs. unfold accountTxListResultSchema_parse. split.
    + destruct v as [| | | | |items|fields]; try discriminate.
      destruct (Zod.items Zod.summary items) as [r|] eqn:E; [|discriminate].
      intros H. injection H as <-. exists items. split; [reflexivity|].
      apply zod_items_iff, E.
    + intros (items & -> & H). apply zod_items_iff in H. rewrite H. reflexivity.
  - intros e. unfold accountTxListResultSchema_parse.
    destruct v as [| | | | |items|fields]; try (intros H; congruence).
    destruct (Zod.items Zod.summary items); intros H; congruence.
Qed.

Lemma getProp_unknown name k v fields :
  k <> name -> getProp name ((k, v) :: fields) = getProp name fields.
Proof.
  intros H. cbn [getProp]. destruct (String.eqb_spec name k); congruence.
Qed.

Lemma zod_summary_unknown k v fields :
  unknownKey k ->
  Zod.summary (JObj ((k, v) :: fields)) = Zod.summary (JObj fields).
Proof.
  intros (Hh & Hf & Ht & Hv). cbn [Zod.summary].
  rewrite !getProp_unknown by assumption. reflexivity.
Qed.

Lemma zod_items_app {A} (item : JsValue -> option A) pre : forall post,
  Zod.items item (pre ++ post)
  = match Zod.items item pre, Zod.items item post with
    | Some a, Some b => Some (a ++ b)
    | _, _ => None
    end.
Proof.
  induction pre as [|x pre IH]; intros post; cbn [app Zod.items].
  - destruct (Zod.items item post); reflexivity.
  - rewrite IH. destruct (item x); [|reflexivity].
    destruct (Zod.items item pre), (Zod.items item post); reflexivity.
Qed.

(** X2. Round trip: a page written as an array of objects with the
    four properties parses back to the same page; and a property the
    schema does not name, on any element, changes nothing. *)
Theorem schema_round_trip :
  (forall txs,
      accountTxListResultSchema_parse (JArr (map Scenario.jsSummary txs))
      = Fulfilled txs)
  /\ (forall pre k v fields post,
        unknownKey k ->
        accountTxListResultSchema_parse
          (JArr (pre ++ JObj ((k, v) :: fields) :: post))
        = accountTxListResultSchema_parse (JArr (pre ++ JObj fields :: post))).
Proof.
  split.
  - intros txs. apply schema_accepts_arrays_of_summaries.
    exists (map Scenario.jsSummary txs). split; [reflexivity|].
    induction txs as [|tx txs IH]; cbn [map]; constructor; [|exact IH].
    exists [ ("hash", JStr (es_hash tx)); ("from", JStr (es_from tx));
             ("to", JStr (es_to tx)); ("value", JStr (es_value tx)) ].
    repeat split.
  - intros pre k v fields post U. unfold accountTxListResultSchema_parse.
    rewrite !zod_items_app. cbn [Zod.items].
    rewrite (zod_summary_unknown k v fields U). reflexivity.
Qed.

Lemma schema_round_trip_witness :
  accountTxListResultSchema_parse
    (JArr [JObj [("blockNumber", JStr "105"); ("hash", JStr "0xa1");
                 ("from", JStr "0xd1"); ("to", JStr "0xacc0");
                 ("value", JStr "5")]])
  = accountTxListResultSchema_parse
      (JArr [JObj [("hash", JStr "0xa1"); ("from", JStr "0xd1");
                   ("to", JStr "0xacc0"); ("value", JStr "5")]]).
Proof.
  destruct schema_round_trip as [_ H].
  apply (H [] "blockNumber" (JStr "105")
           [("hash", JStr "0xa1"); ("from", JStr "0xd1");
            ("to", JStr "0xacc0"); ("value", JStr "5")] []).
  unfold unknownKey. repeat split; discriminate.
Defined.

(** ** What [scanTxid] returns and what it leaves behind *)

Lemma scanTxid_cases ctx tx s :
  (exists e, scanTxid ctx tx s = (Threw e, s, []))
  \/ scanTxid ctx tx s = (Returned false, s, [])
  \/ (exists args,
        has_key (cd_uniqueId args) s = true
        /\ scanTxid ctx tx s = (Returned false, s, [Credit args false]))
  \/ (exists args,
        has_key (cd_uniqueId args) s = false
        /\ cd_txid args = hash tx
        /\ scanTxid ctx tx s
           = (Returned true, args :: s,
              [Credit args true;
               Log info (StoredDeposit (hash tx) (Ethers.formatEther (value tx))
                           (asset (nativeMethod ctx)) (cd_orderId args))])).
Proof.
  unfold scanTxid.
  destruct (negb (Str.truthy (from_ tx))); [left; eexists; reflexivity|].
  destruct (blockHash tx); [|left; eexists; reflexivity].
  destruct (to tx) as [recipient|]; [|right; left; reflexivity].
  destruct (negb (Str.truthy recipient)); [right; left; reflexivity|].
  destruct (negb (String.eqb _ _)); [right; left; reflexivity|].
  destruct (value tx =? 0)%N; [right; left; reflexivity|].
  destruct (gasPrice tx); [|left; eexists; reflexivity].
  destruct (fetchOrderForAddress ctx (from_ tx)) as [order|];
    [|right; left; reflexivity].
  destruct (Ethers.formatEtherString _) as [amount|]; [|left; eexists; reflexivity].
  unfold bind, maybeInternalCreateDeposit. cbn [cd_uniqueId].
  destruct (has_key _ s) eqn:E; right; right; [left | right];
    exists (mkCreateDeposit (id order) (hash tx) amount
              (getEthereumNativeDepositUniqueId ctx (nativeMethod ctx)
                 (hash tx)));
    cbn [cd_uniqueId cd_txid cd_orderId]; auto.
Qed.

(** X3. [scanTxid] returns [true] exactly when the Credit Sink applied
    the deposit; the sink then holds one more record, under a key it did
    not hold, for this transaction's hash, and the call is followed by
    the "Stored deposit" line. *)
Theorem scanTxid_true_iff_applied ctx tx s :
  (completion (scanTxid ctx tx s) = Returned true
   <-> exists args, In (Credit args true) (trace (scanTxid ctx tx s)))
  /\ (completion (scanTxid ctx tx s) = Returned true ->
      exists args,
        sink_after (scanTxid ctx tx s) = args :: s
        /\ has_key (cd_uniqueId args) s = false
        /\ cd_txid args = hash tx
        /\ trace (scanTxid ctx tx s)
           = [Credit args true;
              Log info (StoredDeposit (hash tx) (Ethers.formatEther (value tx))
                          (asset (nativeMethod ctx)) (cd_orderId args))]).
Proof.
  destruct (scanTxid_cases ctx tx s)
    as [(e & ->) | [-> | [(args & K & ->) | (args & K & T & ->)]]];
    unfold completion, trace, sink_after; cbn [fst snd]; split;
    try (intros H; discriminate H).
  - split; [discriminate | intros (a & [])].
  - split; [discriminate | intros (a & [])].
  - split; [discriminate|]. intros (a & [H|[]]). discriminate H.
  - split; [intros _; exists args; left; reflexivity | reflexivity].
  - intros _. exists args. auto.
Qed.

Lemma scanTxid_true_iff_applied_witness :
  exists args,
    sink_after (scanTxid Scenario.worldA Scenario.txX []) = [args]
    /\ has_key (cd_uniqueId args) [] = false
    /\ cd_txid args = "0xa1"
    /\ trace (scanTxid Scenario.worldA Scenario.txX [])
       = [Credit args true;
          Log info (StoredDeposit "0xa1" "0.000000000000000005" "ETH"
                      (cd_orderId args))].
Proof.
  destruct (scanTxid_true_iff_applied Scenario.worldA Scenario.txX [])
    as [_ H].
  apply H. reflexivity.
Defined.

(** X4. Unless it returns [true], [scanTxid] leaves the Credit Sink as
    it found it; and when it raises a failure it has made no call and
    logged nothing. *)
Theorem scanTxid_leaves_the_sink_otherwise ctx tx s :
  (completion (scanTxid ctx tx s) <> Returned true ->
   sink_after (scanTxid ctx tx s) = s)
  /\ (forall e, completion (scanTxid ctx tx s) = Threw e ->
      trace (scanTxid ctx tx s) = [] /\ sink_after (scanTxid ctx tx s) = s).
Proof.
  destruct (scanTxid_cases ctx tx s)
    as [(e & ->) | [-> | [(args & K & ->) | (args & K & T & ->)]]];
    unfold completion, trace, sink_after; cbn [fst snd]; split;
    try reflexivity; try (intros e' H; discriminate H); auto.
  intros H. congruence.
Qed.

Lemma scanTxid_leaves_the_sink_otherwise_witness :
  trace (scanTxid Scenario.worldC Scenario.txE []) = []
  /\ sink_after (scanTxid Scenario.worldC Scenario.txE []) = [].
Proof.
  destruct (scanTxid_leaves_the_sink_otherwise Scenario.worldC Scenario.txE [])
    as [_ H].
  apply (H (Error "Unsupported EIP-1559 sweep transaction")). reflexivity.
Defined.

(** ** Properties of traces that pass to sequences *)

Section TraceInvariant.

Variable ctx : AppContext.
Variable explorer : string -> option N -> N -> Settled (list EtherscanTx).

(** A property of traces that holds of the empty trace and of the
    concatenation of two traces that have it. *)
Variable Q : list Event -> Prop.
Hypothesis Q_nil : Q [].
Hypothesis Q_app : forall t1 t2, Q t1 -> Q t2 -> Q (t1 ++ t2).
Hypothesis Q_outside : forall ev, outsideScanTxid ev -> Q [ev].
Hypothesis Q_scanTxid : forall tx s, Q (trace (scanTxid ctx tx s)).

Lemma Q_bind {A B} (m : Async A) (k : A -> Async B) :
  (forall s, Q (trace (m s))) ->
  (forall a s, Q (trace (k a s))) ->
  forall s, Q (trace (bind m k s)).
Proof.
  intros Hm Hk s. rewrite bind_trace. apply Q_app; [apply Hm|].
  destruct (completion (m s)); auto.
Qed.

Lemma Q_emit ev : outsideScanTxid ev -> forall s, Q (trace (emit ev s)).
Proof. intros H s. apply Q_outside, H. Qed.

Lemma Q_ret {A} (a : A) s : Q (trace (ret a s)).
Proof. exact Q_nil. Qed.

Lemma Q_throw {A} e s : Q (trace (@throw A e s)).
Proof. exact Q_nil. Qed.

Lemma Q_pMap {A} (mapper : A -> Async unit) items :
  (forall x s, Q (trace (mapper x s))) ->
  forall s, Q (trace (pMap mapper items s)).
Proof.
  intros Hm. induction items as [|x rest IH]; intros s; cbn [pMap].
  - exact Q_nil.
  - specialize (Hm x s). destruct (mapper x s) as [[r1 s1] t1].
    specialize (IH s1). destruct (pMap mapper rest s1) as [[r2 s2] t2].
    unfold trace in *. cbn [snd] in *. apply Q_app; assumption.
Qed.

Lemma Q_verifyCandidate order orderId c s :
  Q (trace (verifyCandidate ctx order orderId c s)).
Proof.
  revert s. unfold verifyCandidate.
  apply Q_bind; [apply Q_emit; exact I|]. intros _.
  destruct (getTransaction ctx (es_hash c)) as [tx|]; [|apply Q_emit; exact I].
  destruct (blockNumber tx) as [[|number]|]; try (apply Q_emit; exact I).
  apply Q_bind; [apply Q_emit; exact I|]. intros _.
  destruct (getBlock ctx (N.pos number)); [|apply Q_throw].
  destruct (JsDate.lt _ _); [apply Q_emit; exact I|].
  apply Q_bind; [apply Q_emit; exact I|]. intros _.
  apply Q_bind; [apply Q_scanTxid|]. intros _. apply Q_ret.
Qed.

Lemma Q_processPage order orderId txs s :
  Q (trace (processPage ctx order orderId txs s)).
Proof.
  revert s. unfold processPage.
  destruct (filterPositive txs); [|apply Q_throw].
  apply Q_bind; [apply Q_emit; exact I|]. intros _.
  apply Q_pMap. intros c. apply Q_verifyCandidate.
Qed.

Lemma Q_pageLoop order deposit orderId fuel : forall page s,
  Q (trace (pageLoop ctx explorer fuel order deposit orderId page s)).
Proof.
  induction fuel as [|fuel IH]; intros page; cbn [pageLoop].
  - intros s. exact Q_nil.
  - apply Q_bind; [apply Q_emit; exact I|]. intros _.
    destruct (explorer _ _ page) as [txs|e].
    + destruct (List.length txs =? 0)%nat; [apply Q_ret|].
      apply Q_bind; [apply Q_processPage|]. intros _. apply IH.
    + apply Q_bind; [apply Q_emit; exact I|]. intros _. apply Q_ret.
Qed.

Lemma Q_scanOrder fuel orderId s :
  Q (trace (scanOrder ctx explorer fuel orderId s)).
Proof.
  revert s. unfold scanOrder.
  apply Q_bind; [apply Q_emit; exact I|]. intros _.
  destruct (findOneBy ctx orderId) as [order|].
  - destruct (depositAddress order) as [deposit|].
    + apply Q_pageLoop.
    + apply Q_bind; [apply Q_emit; exact I|]. intros _. apply Q_ret.
  - apply Q_bind; [apply Q_emit; exact I|]. intros _. apply Q_ret.
Qed.

Lemma Q_scanQueued fuel orderId s :
  Q (trace (scanQueued ctx explorer fuel orderId s)).
Proof.
  revert s. unfold scanQueued.
  destruct (negb (Str.truthy (etherscanApiKey ctx))).
  - apply Q_bind; [apply Q_emit; exact I|]. intros _. apply Q_ret.
  - apply Q_bind; [intros s; apply Q_scanOrder|]. intros a. apply Q_ret.
Qed.

End TraceInvariant.

(** ** Log lines and credits *)

Lemma storedDeposits_app t1 t2 :
  storedDeposits (t1 ++ t2) = storedDeposits t1 ++ storedDeposits t2.
Proof.
  induction t1 as [|ev t1 IH]; [reflexivity|].
  destruct ev as [[| |] [ | | | | | | | | | | ] | | | | ];
    cbn [app storedDeposits]; rewrite IH; reflexivity.
Qed.

Lemma appliedCredits_app t1 t2 :
  appliedCredits (t1 ++ t2) = appliedCredits t1 ++ appliedCredits t2.
Proof.
  induction t1 as [|ev t1 IH]; [reflexivity|].
  destruct ev as [ | | | |args [|]]; cbn [app appliedCredits]; rewrite IH;
    reflexivity.
Qed.

Lemma outside_stored ev : outsideScanTxid ev -> storedDeposits [ev] = [].
Proof.
  destruct ev as [[| |] [ | | | | | | | | | | ] | | | | ]; cbn;
    try reflexivity; intros [].
Qed.

Lemma outside_applied ev : outsideScanTxid ev -> appliedCredits [ev] = [].
Proof. destruct ev; cbn; try reflexivity. intros []. Qed.

(** ** The requests made to the explorer *)

Lemma fetched_In t a startblock p :
  In (FetchPage a startblock p) t -> In p (fetched t).
Proof.
  induction t as [|ev t IH]; [intros []|].
  intros [->|H]; [left; reflexivity|].
  destruct ev; cbn [fetched]; auto. right. auto.
Qed.

Lemma processPage_no_request ctx order orderId txs s a startblock p :
  ~ In (FetchPage a startblock p) (trace (processPage ctx order orderId txs s)).
Proof.
  intros H. apply fetched_In in H. rewrite processPage_fetched in H. exact H.
Qed.

Lemma pageLoop_requests ctx explorer order deposit orderId fuel :
  forall page s a startblock p,
    In (FetchPage a startblock p)
      (trace (pageLoop ctx explorer fuel order deposit orderId page s)) ->
    a = address deposit /\ startblock = createdAtBlockNumber order
    /\ (page <= p)%N.
Proof.
  induction fuel as [|fuel IH]; intros page s a startblock p; [intros []|].
  rewrite pageLoop_step.
  assert (Here : FetchPage (address deposit) (createdAtBlockNumber order) page
                 = FetchPage a startblock p ->
                 a = address deposit /\ startblock = createdAtBlockNumber order
                 /\ (page <= p)%N).
  { intros H. injection H as <- <- <-. repeat split. lia. }
  destruct (explorer _ _ page) as [txs|e].
  - destruct (List.length txs =? 0)%nat.
    + intros [H|[]]. auto.
    + pose proof (processPage_no_request ctx order orderId txs s a startblock p)
        as NP.
      unfold trace in NP |- *.
      destruct (processPage ctx order orderId txs s) as [[[u|e|] s1] t1];
        cbn [snd] in *; try (intros [H|H]; [auto | contradiction]).
      specialize (IH (page + 1)%N s1 a startblock p). unfold trace in IH.
      destruct (pageLoop ctx explorer fuel order deposit orderId (page + 1) s1)
        as [[r2 s2] t2].
      cbn [snd] in *. intros [H|H]; [auto|].
      apply in_app_or in H as [H|H]; [contradiction|].
      destruct (IH H) as (Ha & Hs & Hp). repeat split; auto. lia.
  - intros [H|[H|[]]]; [auto | discriminate H].
Qed.

(** X6. Every request made to the explorer during a queued scan is made
    with the API key configured, for an order that exists, with that
    order's deposit address and its creation block as start block, and
    for a page index of at least 1. *)
Theorem page_requests_are_for_the_scanned_order
  ctx explorer fuel orderId s a startblock p :
  In (FetchPage a startblock p)
    (trace (scanQueued ctx explorer fuel orderId s)) ->
  etherscanApiKey ctx <> EmptyString
  /\ (1 <= p)%N
  /\ exists order,
       findOneBy ctx orderId = Some order
       /\ depositAddress order = Some (mkDepositAddress a)
       /\ startblock = createdAtBlockNumber order.
Proof.
  unfold scanQueued.
  destruct (etherscanApiKey ctx) as [|c key] eqn:Ek; cbn [Str.truthy negb].
  - intros H. in_seq H. destruct H.
  - intros H. split; [discriminate|].
    apply bind_In in H as [H | (outcome & _ & [])].
    unfold scanOrder in H. in_seq H.
    destruct (findOneBy ctx orderId) as [order|]; [|in_seq H; destruct H].
    destruct (depositAddress order) as [[addr]|] eqn:Ed; [|in_seq H; destruct H].
    apply pageLoop_requests in H as (-> & -> & Hp). cbn [address].
    split; [exact Hp|]. exists order. auto.
Qed.

Lemma page_requests_are_for_the_scanned_order_witness :
  etherscanApiKey Scenario.worldA <> EmptyString
  /\ (1 <= 2)%N
  /\ exists order,
       findOneBy Scenario.worldA "order-1" = Some order
       /\ depositAddress order = Some (mkDepositAddress "0xd1")
       /\ Some 100%N = createdAtBlockNumber order.
Proof.
  apply (page_requests_are_for_the_scanned_order Scenario.worldA
           (Scenario.pages [Scenario.sumX; Scenario.sumY]) 5 "order-1" []).
  vm_compute. do 11 right. left. reflexivity.
Defined.

Lemma pageLoop_sequence ctx explorer order deposit orderId fuel :
  forall page s,
    exists count,
      (count <= fuel)%nat
      /\ fetched (trace (pageLoop ctx explorer fuel order deposit orderId page s))
         = pagesFrom page count
      /\ forall j, (S j < count)%nat ->
           exists txs,
             explorer (address deposit) (createdAtBlockNumber order)
               (page + N.of_nat j)%N = Fulfilled txs
             /\ txs <> [].
Proof.
  induction fuel as [|fuel IH]; intros page s.
  - exists 0%nat. split; [lia|]. split; [reflexivity|]. intros j Hj. lia.
  - rewrite pageLoop_step.
    assert (One : forall r s' t,
               fetched t = [] ->
               exists count,
                 (count <= S fuel)%nat
                 /\ fetched
                      (trace
                         (r : Completion ScanOutcome, s' : Sink,
                          FetchPage (address deposit)
                            (createdAtBlockNumber order) page :: t))
                    = pagesFrom page count
                 /\ forall j, (S j < count)%nat ->
                      exists txs,
                        explorer (address deposit) (createdAtBlockNumber order)
                          (page + N.of_nat j)%N = Fulfilled txs
                        /\ txs <> []).
    { intros r s' t Ht. exists 1%nat. unfold trace. cbn [snd fetched pagesFrom].
      rewrite Ht. split; [lia|]. split; [reflexivity|]. intros j Hj. lia. }
    destruct (explorer (address deposit) (createdAtBlockNumber order) page)
      as [txs|e] eqn:Ef.
    + destruct txs as [|tx txs]; [apply One; reflexivity|].
      cbn [List.length Nat.eqb].
      pose proof (processPage_fetched ctx order orderId (tx :: txs) s) as F.
      unfold trace in F.
      destruct (processPage ctx order orderId (tx :: txs) s)
        as [[[u|e|] s1] t1]; cbn [snd] in F; try (apply One; exact F).
      destruct (IH (page + 1)%N s1) as (count & Hc & Hf & Hj).
      unfold trace in Hf |- *.
      destruct (pageLoop ctx explorer fuel order deposit orderId (page + 1) s1)
        as [[r2 s2] t2].
      cbn [snd] in *. exists (S count). split; [lia|]. split.
      * cbn [fetched pagesFrom]. rewrite fetched_app, F, Hf. reflexivity.
      * intros [|j] Hlt.
        -- rewrite N.add_0_r, Ef. exists (tx :: txs). split; [reflexivity|].
           discriminate.
        -- destruct (Hj j ltac:(lia)) as (txs' & E' & N').
           exists txs'. split; [|exact N'].
           replace (page + N.of_nat (S j))%N with (page + 1 + N.of_nat j)%N
             by lia.
           exact E'.
    + apply One. reflexivity.
Qed.

(** X7. Whatever the explorer and the node answer, the pages are
    requested in the order 1, 2, 3, ... without a gap or a repetition,
    one request per turn of the loop; and every page requested before
    the last one had been answered with a non-empty page. *)
Theorem pages_are_requested_in_sequence ctx explorer fuel orderId s :
  (exists count,
      (count <= fuel)%nat
      /\ fetched (trace (scanQueued ctx explorer fuel orderId s))
         = pagesFrom 1 count)
  /\ (forall order deposit page s',
        exists count,
          (count <= fuel)%nat
          /\ fetched
               (trace (pageLoop ctx explorer fuel order deposit orderId page s'))
             = pagesFrom page count
          /\ forall j, (S j < count)%nat ->
               exists txs,
                 explorer (address deposit) (createdAtBlockNumber order)
                   (page + N.of_nat j)%N = Fulfilled txs
                 /\ txs <> []).
Proof.
  split.
  - unfold scanQueued.
    destruct (negb (Str.truthy (etherscanApiKey ctx))).
    + exists 0%nat. split; [lia | reflexivity].
    + rewrite bind_trace, fetched_app. unfold scanOrder.
      rewrite bind_trace, fetched_app.
      cbn [logger emit trace completion sink_after fst snd fetched app].
      assert (Tail : forall (c : Completion ScanOutcome) s',
                 fetched
                   match c with
                   | Returned a => trace (ret (Some a) s')
                   | _ => []
                   end = []).
      { intros [a|e|] s'; reflexivity. }
      rewrite Tail, app_nil_r.
      destruct (findOneBy ctx orderId) as [order|];
        [|exists 0%nat; split; [lia | reflexivity]].
      destruct (depositAddress order) as [deposit|];
        [|exists 0%nat; split; [lia | reflexivity]].
      destruct (pageLoop_sequence ctx explorer order deposit orderId fuel 1%N s)
        as (count & Hc & Hf & _).
      exists count. auto.
  - intros order deposit page s'. apply pageLoop_sequence.
Qed.

(** ** The shapes of a candidate's verification *)

Lemma verifyCandidate_cases ctx order orderId c s :
  let h := es_hash c in
  verifyCandidate ctx order orderId c s
  = (Returned tt, s, [NodeGetTransaction h; Log error (TransactionNotFound h)])
  \/ verifyCandidate ctx order orderId c s
     = (Returned tt, s,
        [NodeGetTransaction h; Log warn (TransactionHasNoBlockNumber h)])
  \/ (exists number e,
        verifyCandidate ctx order orderId c s
        = (Threw e, s, [NodeGetTransaction h; NodeGetBlock number]))
  \/ (exists number,
        verifyCandidate ctx order orderId c s
        = (Returned tt, s,
           [NodeGetTransaction h; NodeGetBlock number;
            Log warn (IgnoringTxBeforeOrder h orderId)]))
  \/ (exists tx number,
        getTransaction ctx h = Some tx
        /\ blockNumber tx = Some number
        /\ verifyCandidate ctx order orderId c s
           = (match completion (scanTxid ctx tx s) with
              | Returned _ => Returned tt
              | Threw e => Threw e
              | Running => Running
              end,
              sink_after (scanTxid ctx tx s),
              [NodeGetTransaction h; NodeGetBlock number;
               Log info (ScanningTx h)] ++ trace (scanTxid ctx tx s))).
Proof.
  cbv zeta.
  destruct (getTransaction ctx (es_hash c)) as [tx|] eqn:Etx;
    [|left; unfold verifyCandidate; rewrite Etx; reflexivity].
  destruct (blockNumber tx) as [[|number]|] eqn:En;
    try (right; left; unfold verifyCandidate; rewrite Etx, En; reflexivity).
  destruct (getBlock ctx (N.pos number)) as [block|] eqn:Eb.
  - destruct (JsDate.lt (JsDate.getTime (Z.of_N (timestamp block) * 1000))
                (JsDate.getTime (createdAt order))) eqn:F.
    + do 3 right. left. exists (N.pos number).
      unfold verifyCandidate. rewrite Etx, En, Eb, F. reflexivity.
    + do 4 right. exists tx, (N.pos number). split; [reflexivity|].
      split; [exact En|].
      apply (verifyCandidate_fresh ctx order orderId c tx (N.pos number) block s
               Etx En ltac:(discriminate) Eb F).
  - do 2 right. left. exists (N.pos number). eexists.
    unfold verifyCandidate. rewrite Etx, En, Eb. reflexivity.
Qed.

Section LoopInvariant.

Variable ctx : AppContext.
Variable explorer : string -> option N -> N -> Settled (list EtherscanTx).

(** A property of traces that passes to concatenations and holds of
    every candidate's verification. *)
Variable Q : list Event -> Prop.
Hypothesis Q_nil : Q [].
Hypothesis Q_app : forall t1 t2, Q t1 -> Q t2 -> Q (t1 ++ t2).
Hypothesis Q_loop : forall ev, loopEvent ev -> Q [ev].
Hypothesis Q_candidate : forall order orderId c s,
  Q (trace (verifyCandidate ctx order orderId c s)).

Lemma QL_seq {A B} (m : Async A) (k : A -> Async B) :
  (forall s, Q (trace (m s))) ->
  (forall a s, Q (trace (k a s))) ->
  forall s, Q (trace (bind m k s)).
Proof.
  intros Hm Hk s. rewrite bind_trace. apply Q_app; [apply Hm|].
  destruct (completion (m s)); auto.
Qed.

Lemma QL_pMap order orderId cs : forall s,
  Q (trace (pMap (verifyCandidate ctx order orderId) cs s)).
Proof.
  induction cs as [|c cs IH]; intros s; cbn [pMap]; [exact Q_nil|].
  pose proof (Q_candidate order orderId c s) as Hc.
  destruct (verifyCandidate ctx order orderId c s) as [[r1 s1] t1].
  specialize (IH s1).
  destruct (pMap (verifyCandidate ctx order orderId) cs s1) as [[r2 s2] t2].
  unfold trace in *. cbn [snd] in *. apply Q_app; assumption.
Qed.

Lemma QL_processPage order orderId txs s :
  Q (trace (processPage ctx order orderId txs s)).
Proof.
  revert s. unfold processPage.
  destruct (filterPositive txs); [|intros s; exact Q_nil].
  apply QL_seq; [intros s; apply Q_loop; exact I|]. intros _. apply QL_pMap.
Qed.

Lemma QL_pageLoop order deposit orderId fuel : forall page s,
  Q (trace (pageLoop ctx explorer fuel order deposit orderId page s)).
Proof.
  induction fuel as [|fuel IH]; intros page; cbn [pageLoop].
  - intros s. exact Q_nil.
  - apply QL_seq; [intros s; apply Q_loop; exact I|]. intros _.
    destruct (explorer _ _ page) as [txs|e].
    + destruct (List.length txs =? 0)%nat; [intros s; exact Q_nil|].
      apply QL_seq; [apply QL_processPage|]. intros _. apply IH.
    + apply QL_seq; [intros s; apply Q_loop; exact I|]. intros _ s.
      exact Q_nil.
Qed.

Lemma QL_scanQueued fuel orderId s :
  Q (trace (scanQueued ctx explorer fuel orderId s)).
Proof.
  revert s. unfold scanQueued.
  destruct (negb (Str.truthy (etherscanApiKey ctx))).
  - apply QL_seq; [intros s; apply Q_loop; exact I|]. intros _ s. exact Q_nil.
  - apply QL_seq; [|intros a s; exact Q_nil]. unfold scanOrder.
    apply QL_seq; [intros s; apply Q_loop; exact I|]. intros _.
    destruct (findOneBy ctx orderId) as [order|].
    + destruct (depositAddress order) as [deposit|].
      * apply QL_pageLoop.
      * apply QL_seq; [intros s; apply Q_loop; exact I|]. intros _ s.
        exact Q_nil.
    + apply QL_seq; [intros s; apply Q_loop; exact I|]. intros _ s.
      exact Q_nil.
Qed.

End LoopInvariant.

(** ** Stored deposits *)

(** X5. The "Stored deposit" lines of a run and the deposits the Credit
    Sink applied go one for one, whatever the order in which candidates
    are served: the lines name the same transaction hashes and orders as
    the applied deposits. Each line is for a transaction the node
    resolved for a candidate: it names its hash and the order that was
    credited with it, its deposit was applied in that run, and the value
    it reports is the transfer value of the transaction, while the
    deposit is for that value plus the gas limit times the gas price of
    the same transaction. *)
Theorem stored_lines_are_the_applied_credits ctx explorer fuel orderId s :
  let t := trace (scanQueued ctx explorer fuel orderId s) in
  Permutation
    (map (fun line : string * string * string => (fst (fst line), snd line))
       (storedDeposits t))
    (map (fun args => (cd_txid args, cd_orderId args)) (appliedCredits t))
  /\ forall txhash valueAsEther ast credited_id,
       In (Log info (StoredDeposit txhash valueAsEther ast credited_id)) t ->
       exists candidate tx price credited,
         getTransaction ctx candidate = Some tx
         /\ gasPrice tx = Some price
         /\ txhash = hash tx
         /\ credited_id = id credited
         /\ In (Credit (creditFor ctx tx price credited) true) t
         /\ Ethers.weiOfEther valueAsEther = Some (value tx)
         /\ Ethers.weiOfEther (cd_amount (creditFor ctx tx price credited))
            = Some (value tx + gasLimit tx * price)%N.
Proof.
  cbv zeta. split.
  - assert (E : map (fun line : string * string * string =>
                       (fst (fst line), snd line))
                  (storedDeposits (trace (scanQueued ctx explorer fuel orderId s)))
                = map (fun args => (cd_txid args, cd_orderId args))
                    (appliedCredits
                       (trace (scanQueued ctx explorer fuel orderId s)))).
    { apply (Q_scanQueued ctx explorer
               (fun t =>
                  map (fun line : string * string * string =>
                         (fst (fst line), snd line)) (storedDeposits t)
                  = map (fun args => (cd_txid args, cd_orderId args))
                      (appliedCredits t))).
      - reflexivity.
      - intros t1 t2 H1 H2.
        rewrite storedDeposits_app, appliedCredits_app, !map_app, H1, H2.
        reflexivity.
      - intros ev H. rewrite (outside_stored ev H), (outside_applied ev H).
        reflexivity.
      - intros tx s0.
        destruct (scanTxid_cases ctx tx s0)
          as [(e & E) | [E | [(args & K & E) | (args & K & T & E)]]];
          rewrite E; cbn [trace snd storedDeposits appliedCredits map fst];
          rewrite ?T; reflexivity. }
    rewrite E. apply Permutation_refl.
  - apply (QL_scanQueued ctx explorer
             (fun t =>
                forall txhash valueAsEther ast credited_id,
                  In (Log info
                        (StoredDeposit txhash valueAsEther ast credited_id)) t ->
                  exists candidate tx price credited,
                    getTransaction ctx candidate = Some tx
                    /\ gasPrice tx = Some price
                    /\ txhash = hash tx
                    /\ credited_id = id credited
                    /\ In (Credit (creditFor ctx tx price credited) true) t
                    /\ Ethers.weiOfEther valueAsEther = Some (value tx)
                    /\ Ethers.weiOfEther
                         (cd_amount (creditFor ctx tx price credited))
                       = Some (value tx + gasLimit tx * price)%N)).
    + intros h v a o [].
    + intros t1 t2 H1 H2 h v a o Hin.
      apply in_app_or in Hin as [Hin|Hin];
        [destruct (H1 h v a o Hin) as (candidate & tx & price & credited & R)
        |destruct (H2 h v a o Hin) as (candidate & tx & price & credited & R)];
        destruct R as (R1 & R2 & R3 & R4 & R5 & R6 & R7);
        exists candidate, tx, price, credited;
        repeat (split; [assumption|]);
        (split; [apply in_or_app; auto | auto]).
    + intros ev L h v a o [->|[]]. destruct L.
    + intros order orderId' c s0 h v a o Hin.
      pose proof (verifyCandidate_cases ctx order orderId' c s0) as C.
      cbv zeta in C.
      destruct C as [E|[E|[(number & e & E)|[(number & E)
                    |(tx & number & Etx & En & E)]]]];
        rewrite E in Hin |- *; unfold trace in Hin |- *; cbn [snd app] in Hin |- *;
        repeat (destruct Hin as [Hin|Hin]; [discriminate Hin|]);
        try (destruct Hin; fail).
      fold (trace (scanTxid ctx tx s0)) in Hin |- *.
      destruct (scanTxid_cases ctx tx s0)
        as [(e & E') | [E' | [(args & K & E') | (args & K & T & E')]]];
        rewrite E' in Hin; unfold trace in Hin; cbn [snd] in Hin;
        repeat (destruct Hin as [Hin|Hin]; [discriminate Hin|]);
        try (destruct Hin; fail).
      destruct Hin as [Hin|[]].
      injection Hin as <- <- _ <-.
      assert (Hc : In (Credit args true) (trace (scanTxid ctx tx s0)))
        by (rewrite E'; left; reflexivity).
      destruct (scanTxid_credit ctx tx s0 args true Hc)
        as (price & credited & P & L & ->).
      exists (es_hash c), tx, price, credited.
      split; [exact Etx|].
      split; [apply P|].
      split; [reflexivity|]. split; [reflexivity|].
      split; [do 3 right; exact Hc|].
      cbn [creditFor cd_amount].
      split; apply AmountFacts.weiOfEther_formatEther.
Qed.

(** ** How much work a scan does *)

Lemma nodeBlockCalls_app t1 t2 :
  nodeBlockCalls (t1 ++ t2) = nodeBlockCalls t1 ++ nodeBlockCalls t2.
Proof.
  induction t1 as [|ev t1 IH]; [reflexivity|].
  destruct ev; cbn [app nodeBlockCalls]; rewrite IH; reflexivity.
Qed.

Lemma scanTxid_counts ctx tx s :
  (List.length (creditCalls (trace (scanTxid ctx tx s))) <= 1)%nat
  /\ nodeBlockCalls (trace (scanTxid ctx tx s)) = [].
Proof.
  destruct (scanTxid_cases ctx tx s)
    as [(e & ->) | [-> | [(args & K & ->) | (args & K & T & ->)]]];
    cbn; split; auto.
Qed.

Lemma verifyCandidate_counts ctx order orderId c s :
  let t := trace (verifyCandidate ctx order orderId c s) in
  (List.length (creditCalls t) <= List.length (nodeBlockCalls t))%nat
  /\ (List.length (nodeBlockCalls t) <= List.length (verified t))%nat.
Proof.
  cbv zeta.
  destruct (verifyCandidate_cases ctx order orderId c s)
    as [-> | [-> | [(number & e & ->) | [(number & ->) | (tx & number & _ & _ & ->)]]]];
    try (cbn; split; lia).
  destruct (scanTxid_counts ctx tx s) as [C B].
  pose proof (scanTxid_verified ctx tx s) as V.
  unfold trace in *. cbn [snd].
  rewrite creditCalls_app, nodeBlockCalls_app, verified_app, !length_app.
  rewrite B, V. cbn. lia.
Qed.

Lemma processPage_verified_bound ctx order orderId txs s :
  (List.length (verified (trace (processPage ctx order orderId txs s))) <= 10)%nat.
Proof.
  unfold processPage. destruct (filterPositive txs) as [kept|]; [|cbn; lia].
  rewrite bind_trace, verified_app.
  cbn [logger emit trace completion sink_after fst snd verified app].
  rewrite pMap_verified, length_map. apply firstn_le_length.
Qed.

Lemma pageLoop_verified_bound ctx explorer order deposit orderId fuel :
  forall page s,
    let t := trace (pageLoop ctx explorer fuel order deposit orderId page s) in
    (List.length (verified t) <= 10 * List.length (fetched t))%nat.
Proof.
  induction fuel as [|fuel IH]; intros page s; cbv zeta; [cbn; lia|].
  rewrite pageLoop_step.
  destruct (explorer _ _ page) as [txs|e]; [|cbn; lia].
  destruct (List.length txs =? 0)%nat; [cbn; lia|].
  pose proof (processPage_verified_bound ctx order orderId txs s) as V.
  pose proof (processPage_fetched ctx order orderId txs s) as F.
  unfold trace in V, F |- *.
  destruct (processPage ctx order orderId txs s) as [[[u|e|] s1] t1];
    cbn [snd verified fetched List.length] in *;
    try (rewrite F; cbn [List.length]; lia).
  specialize (IH (page + 1)%N s1). cbv zeta in IH. unfold trace in IH.
  destruct (pageLoop ctx explorer fuel order deposit orderId (page + 1) s1)
    as [[r2 s2] t2].
  cbn [snd verified fetched List.length] in *.
  rewrite verified_app, fetched_app, !length_app, F. cbn [List.length]. lia.
Qed.

(** X8. The work of a scan is bounded by the pages it requests: at most
    ten candidates of a page are resolved at the node, so at most ten
    times as many transactions are resolved as pages are requested; a
    block is requested at most once per resolved transaction and the
    Credit Sink is called at most once per requested block. *)
Theorem work_is_bounded_by_the_pages ctx explorer :
  (forall order orderId txs s,
      (List.length (verified (trace (processPage ctx order orderId txs s)))
       <= 10)%nat)
  /\ (forall order deposit orderId fuel page s,
        let t := trace (pageLoop ctx explorer fuel order deposit orderId page s) in
        (List.length (verified t) <= 10 * List.length (fetched t))%nat)
  /\ (forall fuel orderId s,
        let t := trace (scanQueued ctx explorer fuel orderId s) in
        (List.length (creditCalls t) <= List.length (nodeBlockCalls t))%nat
        /\ (List.length (nodeBlockCalls t) <= List.length (verified t))%nat).
Proof.
  split; [|split].
  - intros. apply processPage_verified_bound.
  - intros. apply pageLoop_verified_bound.
  - intros fuel orderId s. cbv zeta.
    apply (QL_scanQueued ctx explorer
             (fun t =>
                (List.length (creditCalls t) <= List.length (nodeBlockCalls t))%nat
                /\ (List.length (nodeBlockCalls t) <= List.length (verified t))%nat)).
    + cbn. lia.
    + intros t1 t2 [A1 B1] [A2 B2].
      rewrite creditCalls_app, nodeBlockCalls_app, verified_app, !length_app.
      lia.
    + intros ev H. destruct ev as [level line| | | |]; try destruct H.
      * cbn. lia.
      * cbn. lia.
    + intros order orderId' c s'.
      apply (verifyCandidate_counts ctx order orderId' c s').
Qed.

(** ** Pages that bring no candidate *)

(** X9. A single value on a page that is not an integer makes the
    filter raise: the page is abandoned before any candidate is
    resolved, nothing is logged for it, the sink is untouched, and the
    failure leaves the loop, whatever the other records of the page. *)
Theorem a_malformed_value_abandons_the_page
  ctx explorer order deposit orderId txs tx :
  In tx txs ->
  Ethers.BigNumber_from (es_value tx) = None ->
  (forall s,
      processPage ctx order orderId txs s
      = (Threw (BigNumberError "invalid BigNumber string"), s, []))
  /\ (forall fuel page s,
        explorer (address deposit) (createdAtBlockNumber order) page
        = Fulfilled txs ->
        pageLoop ctx explorer (S fuel) order deposit orderId page s
        = (Threw (BigNumberError "invalid BigNumber string"), s,
           [FetchPage (address deposit) (createdAtBlockNumber order) page])).
Proof.
  intros Hin E.
  assert (P : forall s,
             processPage ctx order orderId txs s
             = (Threw (BigNumberError "invalid BigNumber string"), s, [])).
  { intros s. unfold processPage. rewrite (filterPositive_none txs tx Hin E).
    reflexivity. }
  split; [exact P|].
  intros fuel page s Hf. rewrite pageLoop_step, Hf, P.
  destruct txs as [|x rest]; [destruct Hin | reflexivity].
Qed.

Lemma a_malformed_value_abandons_the_page_witness :
  processPage Scenario.worldA Scenario.order1 "order-1"
    [Scenario.sumX; mkEtherscanTx "0xa4" "0xd1" "0xacc0" "1.5"] []
  = (Threw (BigNumberError "invalid BigNumber string"), [], []).
Proof.
  destruct (a_malformed_value_abandons_the_page Scenario.worldA
              (Scenario.pages []) Scenario.order1 (mkDepositAddress "0xd1")
              "order-1"
              [Scenario.sumX; mkEtherscanTx "0xa4" "0xd1" "0xacc0" "1.5"]
              (mkEtherscanTx "0xa4" "0xd1" "0xacc0" "1.5")) as [H _].
  - right. left. reflexivity.
  - reflexivity.
  - apply H.
Defined.

Lemma filterPositive_nothing txs :
  (forall tx, In tx txs ->
     exists v, Ethers.BigNumber_from (es_value tx) = Some v /\ (v <= 0)%Z) ->
  filterPositive txs = Some [].
Proof.
  induction txs as [|x rest IH]; intros H; cbn [filterPositive]; [reflexivity|].
  destruct (H x (or_introl eq_refl)) as (v & -> & Hv).
  rewrite IH by (intros tx Hin; apply H; right; exact Hin).
  replace (0 <? v)%Z with false by (symmetry; apply Z.ltb_ge; exact Hv).
  reflexivity.
Qed.

(** X10. A non-empty page every value of which the filter can compare
    with zero, none being strictly positive, costs one "Found 0
    transactions" line: no candidate is resolved, the sink is not
    called, and the loop goes on with the next page. *)
Theorem a_page_without_positive_value_is_skipped
  ctx explorer order deposit orderId txs fuel page s :
  explorer (address deposit) (createdAtBlockNumber order) page
  = Fulfilled txs ->
  txs <> [] ->
  (forall tx, In tx txs ->
     exists v, Ethers.BigNumber_from (es_value tx) = Some v /\ (v <= 0)%Z) ->
  pageLoop ctx explorer (S fuel) order deposit orderId page s
  = (let '(r, s', t) :=
       pageLoop ctx explorer fuel order deposit orderId (page + 1)%N s in
     (r, s',
      FetchPage (address deposit) (createdAtBlockNumber order) page
      :: Log info (FoundTransactions 0 orderId) :: t)).
Proof.
  intros Hf Hne Hv. rewrite pageLoop_step, Hf.
  destruct txs as [|x rest]; [congruence|]. cbn [List.length Nat.eqb].
  unfold processPage. rewrite (filterPositive_nothing _ Hv). cbn.
  destruct (pageLoop ctx explorer fuel order deposit orderId (page + 1) s)
    as [[r2 s2] t2].
  reflexivity.
Qed.

Lemma a_page_without_positive_value_is_skipped_witness :
  pageLoop Scenario.worldA
    (Scenario.pages [mkEtherscanTx "0x00" "0xd1" "0xacc0" "0"]) 2
    Scenario.order1 (mkDepositAddress "0xd1") "order-1" 1 []
  = (Returned Exhausted, [],
     [FetchPage "0xd1" (Some 100%N) 1;
      Log info (FoundTransactions 0 "order-1");
      FetchPage "0xd1" (Some 100%N) 2]).
Proof.
  apply (a_page_without_positive_value_is_skipped Scenario.worldA
           (Scenario.pages [mkEtherscanTx "0x00" "0xd1" "0xacc0" "0"])
           Scenario.order1 (mkDepositAddress "0xd1") "order-1"
           [mkEtherscanTx "0x00" "0xd1" "0xacc0" "0"] 1 1%N []).
  - reflexivity.
  - discriminate.
  - intros tx [<-|[]]. exists 0%Z. split; [reflexivity | lia].
Defined.

(** ** Candidates of one page *)

Lemma pMap_independent ctx order orderId cs : forall s,
  (forall c, In c cs ->
     completion (verifyCandidate ctx order orderId c []) = Returned tt) ->
  completion (pMap (verifyCandidate ctx order orderId) cs s) = Returned tt
  /\ creditCalls (trace (pMap (verifyCandidate ctx order orderId) cs s))
     = flat_map
         (fun c => creditCalls (trace (verifyCandidate ctx order orderId c [])))
         cs.
Proof.
  induction cs as [|c cs IH]; intros s H; cbn [pMap flat_map];
    [split; reflexivity|].
  destruct (Steady_verifyCandidate ctx order orderId c []) as [_ K].
  destruct (K s) as [Kc Kk]. rewrite (H c (or_introl eq_refl)) in Kk.
  unfold completion, trace in *.
  destruct (verifyCandidate ctx order orderId c s) as [[r1 s1] t1].
  cbn [fst snd] in *.
  destruct (IH s1) as [C T]; [intros x Hx; apply H; right; exact Hx|].
  destruct (pMap (verifyCandidate ctx order orderId) cs s1) as [[r2 s2] t2].
  cbn [fst snd] in *.
  destruct r1 as [u|e|]; cbn [sameKind] in Kk; try contradiction.
  split; [exact C|]. rewrite creditCalls_app, Kc, T. reflexivity.
Qed.

(** X11. When no candidate of a page raises a failure, the page is
    processed to its end and the calls made to the Credit Sink are,
    taken together and whatever the order in which they are served,
    those each candidate makes when it is verified alone: a candidate
    that is not found, pending, stale or rejected never keeps another
    candidate of the page from being offered to the sink. *)
Theorem candidates_are_verified_independently
  ctx order orderId txs kept s :
  filterPositive txs = Some kept ->
  (forall c, In c (firstn 10 kept) ->
     completion (verifyCandidate ctx order orderId c []) = Returned tt) ->
  completion (processPage ctx order orderId txs s) = Returned tt
  /\ Permutation
       (creditCalls (trace (processPage ctx order orderId txs s)))
       (flat_map
          (fun c => creditCalls (trace (verifyCandidate ctx order orderId c [])))
          (firstn 10 kept)).
Proof.
  intros Hk H. unfold processPage. rewrite Hk, bind_completion, bind_trace.
  cbn [logger emit trace completion sink_after fst snd creditCalls app].
  destruct (pMap_independent ctx order orderId (firstn 10 kept) s H) as [C E].
  split; [exact C|]. rewrite E. apply Permutation_refl.
Qed.

Lemma candidates_are_verified_independently_witness :
  completion
    (processPage Scenario.worldA Scenario.order1 "order-1"
       [Scenario.sumY; Scenario.sumX] []) = Returned tt
  /\ Permutation
       (creditCalls
          (trace (processPage Scenario.worldA Scenario.order1 "order-1"
                    [Scenario.sumY; Scenario.sumX] [])))
       [mkCreateDeposit "order-1" "0xa1" "0.000000000000042005"
          "ethereum/0xa1"].
Proof.
  apply (candidates_are_verified_independently Scenario.worldA Scenario.order1
           "order-1" [Scenario.sumY; Scenario.sumX]
           [Scenario.sumY; Scenario.sumX] []).
  - reflexivity.
  - intros c [<-|[<-|[]]]; reflexivity.
Defined.

(** ** What the node is asked *)

Lemma filterPositive_In txs : forall kept c,
  filterPositive txs = Some kept -> In c kept ->
  In c txs
  /\ exists v, Ethers.BigNumber_from (es_value c) = Some v /\ (0 < v)%Z.
Proof.
  induction txs as [|x rest IH]; intros kept c; cbn [filterPositive].
  - intros H. injection H as <-. intros [].
  - destruct (Ethers.BigNumber_from (es_value x)) as [v|] eqn:E; [|discriminate].
    destruct (filterPositive rest) as [kept'|]; [|discriminate].
    intros H. injection H as <-.
    destruct (0 <? v)%Z eqn:P.
    + intros [<-|Hin].
      * split; [left; reflexivity|]. exists v. split; [exact E|].
        apply Z.ltb_lt, P.
      * destruct (IH kept' c eq_refl Hin) as [Hc Hv]. split; [right|]; auto.
    + intros Hin. destruct (IH kept' c eq_refl Hin) as [Hc Hv].
      split; [right|]; auto.
Qed.

Lemma In_firstn {A} (x : A) n : forall l, In x (firstn n l) -> In x l.
Proof.
  induction n as [|n IH]; intros [|y l]; cbn [firstn]; try contradiction.
  intros [->|Hin]; [left; reflexivity | right; apply IH, Hin].
Qed.

Lemma processPage_resolves_listed ctx order orderId txs s h :
  In h (verified (trace (processPage ctx order orderId txs s))) ->
  exists c v,
    In c txs /\ es_hash c = h
    /\ Ethers.BigNumber_from (es_value c) = Some v /\ (0 < v)%Z.
Proof.
  unfold processPage. destruct (filterPositive txs) as [kept|] eqn:Ek;
    [|intros []].
  rewrite bind_trace, verified_app.
  cbn [logger emit trace completion sink_after fst snd verified app].
  rewrite pMap_verified. intros H.
  apply in_map_iff in H as (c & Eh & Hc).
  apply In_firstn in Hc.
  destruct (filterPositive_In txs kept c Ek Hc) as (Hin & v & Ev & Pv).
  exists c, v. auto.
Qed.

Lemma pageLoop_resolves_listed ctx explorer order deposit orderId fuel :
  forall page s h,
    In h (verified
            (trace (pageLoop ctx explorer fuel order deposit orderId page s))) ->
    exists page' txs c v,
      explorer (address deposit) (createdAtBlockNumber order) page'
      = Fulfilled txs
      /\ In c txs /\ es_hash c = h
      /\ Ethers.BigNumber_from (es_value c) = Some v /\ (0 < v)%Z.
Proof.
  induction fuel as [|fuel IH]; intros page s h; [intros []|].
  rewrite pageLoop_step.
  destruct (explorer (address deposit) (createdAtBlockNumber order) page)
    as [txs|e] eqn:Ef; [|intros []].
  destruct (List.length txs =? 0)%nat; [intros []|].
  pose proof (processPage_resolves_listed ctx order orderId txs s h) as P.
  unfold trace in P |- *.
  assert (Here : In h (verified (snd (processPage ctx order orderId txs s))) ->
                 exists page' txs' c v,
                   explorer (address deposit) (createdAtBlockNumber order) page'
                   = Fulfilled txs'
                   /\ In c txs' /\ es_hash c = h
                   /\ Ethers.BigNumber_from (es_value c) = Some v /\ (0 < v)%Z).
  { intros H. destruct (P H) as (c & v & Hc). exists page, txs, c, v. auto. }
  destruct (processPage ctx order orderId txs s) as [[[u|e|] s1] t1];
    cbn [snd verified] in *; try exact Here.
  specialize (IH (page + 1)%N s1 h). unfold trace in IH.
  destruct (pageLoop ctx explorer fuel order deposit orderId (page + 1) s1)
    as [[r2 s2] t2].
  cbn [snd verified] in *. rewrite verified_app. intros H.
  apply in_app_or in H as [H|H]; auto.
Qed.

(** X13. The node is asked only for transactions the explorer listed:
    every hash resolved during a queued scan is the hash of a summary
    with a strictly positive value on a page the explorer returned for
    the deposit address and creation block of the scanned order. *)
Theorem only_listed_transactions_are_resolved
  ctx explorer fuel orderId s h :
  In h (verified (trace (scanQueued ctx explorer fuel orderId s))) ->
  exists order deposit page txs c v,
    findOneBy ctx orderId = Some order
    /\ depositAddress order = Some deposit
    /\ explorer (address deposit) (createdAtBlockNumber order) page
       = Fulfilled txs
    /\ In c txs /\ es_hash c = h
    /\ Ethers.BigNumber_from (es_value c) = Some v /\ (0 < v)%Z.
Proof.
  unfold scanQueued.
  destruct (negb (Str.truthy (etherscanApiKey ctx))); [intros []|].
  rewrite bind_trace, verified_app. unfold scanOrder.
  rewrite bind_trace, verified_app.
  cbn [logger emit trace completion sink_after fst snd verified app].
  assert (Tail : forall (c : Completion ScanOutcome) s',
             verified
               match c with
               | Returned a => trace (ret (Some a) s')
               | _ => []
               end = []).
  { intros [a|e|] s'; reflexivity. }
  rewrite Tail, app_nil_r.
  destruct (findOneBy ctx orderId) as [order|]; [|intros []].
  destruct (depositAddress order) as [deposit|] eqn:Ed; [|intros []].
  intros H.
  destruct (pageLoop_resolves_listed ctx explorer order deposit orderId fuel
              1%N s h H) as (page & txs & c & v & Hc).
  exists order, deposit, page, txs, c, v. auto.
Qed.

Lemma only_listed_transactions_are_resolved_witness :
  exists order deposit page txs c v,
    findOneBy Scenario.worldA "order-1" = Some order
    /\ depositAddress order = Some deposit
    /\ Scenario.pages [Scenario.sumX; Scenario.sumY] (address deposit)
         (createdAtBlockNumber order) page
       = Fulfilled txs
    /\ In c txs /\ es_hash c = "0xa2"
    /\ Ethers.BigNumber_from (es_value c) = Some v /\ (0 < v)%Z.
Proof.
  apply (only_listed_transactions_are_resolved Scenario.worldA
           (Scenario.pages [Scenario.sumX; Scenario.sumY]) 5 "order-1" []).
  vm_compute. tauto.
Defined.

(** ** The boundary of the staleness test *)

(** X14. Block times are whole seconds and the order's creation time is
    in milliseconds: a transaction mined in the second in which the
    order was created is ignored when the order was created later than
    the start of that second, and is scanned when the two times are
    equal. *)
Theorem same_second_boundary
  ctx order orderId c tx number block s (millis : Z) :
  Spec.validDate (createdAt order) ->
  getTransaction ctx (es_hash c) = Some tx ->
  blockNumber tx = Some number ->
  number <> 0%N ->
  getBlock ctx number = Some block ->
  createdAt order = (Z.of_N (timestamp block) * 1000 + millis)%Z ->
  (0 <= millis < 1000)%Z ->
  ((0 < millis)%Z ->
   verifyCandidate ctx order orderId c s
   = (Returned tt, s,
      [NodeGetTransaction (es_hash c); NodeGetBlock number;
       Log warn (IgnoringTxBeforeOrder (es_hash c) orderId)]))
  /\ (millis = 0%Z ->
      trace (verifyCandidate ctx order orderId c s)
      = [NodeGetTransaction (es_hash c); NodeGetBlock number;
         Log info (ScanningTx (es_hash c))] ++ trace (scanTxid ctx tx s)).
Proof.
  intros V Etx En N0 Eb Ec Hm.
  pose proof (stale_test (createdAt order) (timestamp block) V) as T.
  split.
  - intros Hpos.
    replace (Z.of_N (timestamp block) * 1000 <? createdAt order)%Z with true
      in T by (symmetry; apply Z.ltb_lt; lia).
    unfold verifyCandidate. rewrite Etx, En.
    destruct number as [|p]; [congruence|]. rewrite Eb, T. reflexivity.
  - intros ->.
    replace (Z.of_N (timestamp block) * 1000 <? createdAt order)%Z with false
      in T by (symmetry; apply Z.ltb_ge; lia).
    rewrite (verifyCandidate_fresh ctx order orderId c tx number block s
               Etx En N0 Eb T).
    reflexivity.
Qed.

Lemma same_second_boundary_witness :
  verifyCandidate Scenario.worldA
    (mkOrder "order-2" "ethereum" (Some (mkDepositAddress "0xd1"))
       1700000100500 (Some 100%N))
    "order-2" Scenario.sumX []
  = (Returned tt, [],
     [NodeGetTransaction "0xa1"; NodeGetBlock 105;
      Log warn (IgnoringTxBeforeOrder "0xa1" "order-2")]).
Proof.
  destruct (same_second_boundary Scenario.worldA
              (mkOrder "order-2" "ethereum" (Some (mkDepositAddress "0xd1"))
                 1700000100500 (Some 100%N))
              "order-2" Scenario.sumX Scenario.txX 105%N (mkBlock 1700000100)
              [] 500%Z) as [H _].
  - unfold Spec.validDate. vm_compute. discriminate.
  - reflexivity.
  - reflexivity.
  - discriminate.
  - reflexivity.
  - reflexivity.
  - lia.
  - apply H. lia.
Defined.

(** ** The worker as it ships *)

(** X15. With the page fetch the worker ships, a configured scan of an
    order that has a deposit address requests page 1 and nothing else:
    the fetch is rejected (with a schema error whenever the request
    itself succeeds), the rejection is logged, the scan returns, the node
    is never asked and the Credit Sink is never called. *)
Theorem shipped_scan_stops_after_the_first_request
  ctx fuel orderId order deposit s :
  etherscanApiKey ctx <> EmptyString ->
  findOneBy ctx orderId = Some order ->
  depositAddress order = Some deposit ->
  exists e,
    runConfirmedNativeTokenExtraWorker ctx (S fuel) orderId s
    = (Returned (Some Aborted), s,
       [Log info (ProcessingQueuedTask orderId);
        FetchPage (address deposit) (createdAtBlockNumber order) 1;
        Log error (ErrorFetchingTxs orderId e)])
    /\ (forall res,
          axios_get ctx
            (txlistRequest ctx (address deposit) (createdAtBlockNumber order) 1)
          = Fulfilled res ->
          e = ZodError).
Proof.
  intros Hk Ho Hd.
  unfold runConfirmedNativeTokenExtraWorker, runScanByOrderId, scanQueued.
  destruct (etherscanApiKey ctx) as [|c key] eqn:Ek; [congruence|].
  cbn [Str.truthy negb]. unfold scanOrder. rewrite Ho, Hd.
  cbn [pageLoop]. unfold getEtherScanTxListForAddress, txlistRequest.
  rewrite Ek.
  destruct (axios_get ctx _) as [res|e].
  - rewrite parse_response_rejects. exists ZodError. split; [reflexivity|].
    reflexivity.
  - exists e. split; [reflexivity|]. intros res H. discriminate H.
Qed.

Lemma shipped_scan_stops_after_the_first_request_witness :
  exists e,
    runConfirmedNativeTokenExtraWorker Scenario.worldA 5 "order-1" []
    = (Returned (Some Aborted), [],
       [Log info (ProcessingQueuedTask "order-1");
        FetchPage "0xd1" (Some 100%N) 1;
        Log error (ErrorFetchingTxs "order-1" e)])
    /\ (forall res,
          axios_get Scenario.worldA
            (txlistRequest Scenario.worldA "0xd1" (Some 100%N) 1)
          = Fulfilled res ->
          e = ZodError).
Proof.
  apply (shipped_scan_stops_after_the_first_request Scenario.worldA 4 "order-1"
           Scenario.order1 (mkDepositAddress "0xd1") []).
  - discriminate.
  - reflexivity.
  - reflexivity.
Defined.

(** ** Eligible deposits are recorded *)

(** X16. A transaction that passes the checks of [scanTxid] and whose
    sender is the stored deposit address of some order of the native
    deposit method is never dropped: the look-up finds an order, exactly
    one call is made to the Credit Sink, for value plus gas cost, and
    afterwards the sink holds the transaction's dedup key. *)
Theorem an_eligible_sweep_is_always_offered ctx tx price o s :
  Spec.passesChecks ctx tx price ->
  In o (db ctx) ->
  depositMethod o = depositMethodId ctx ->
  depositAddress o = Some (mkDepositAddress (from_ tx)) ->
  exists credited,
    fetchOrderForAddress ctx (from_ tx) = Some credited
    /\ creditCalls (trace (scanTxid ctx tx s))
       = [creditFor ctx tx price credited]
    /\ has_key
         (getEthereumNativeDepositUniqueId ctx (nativeMethod ctx) (hash tx))
         (sink_after (scanTxid ctx tx s)) = true.
Proof.
  intros P Hin Hm Ha.
  destruct (fetchOrderForAddress_finds ctx (from_ tx) o Hin Hm Ha)
    as [credited L].
  exists credited. split; [exact L|].
  split; [apply scanTxid_calls_when_found; assumption|].
  rewrite (scanTxid_passed ctx tx price s P), L. cbv zeta.
  cbn [creditFor cd_uniqueId].
  destruct (has_key _ s) eqn:K; unfold sink_after; cbn [fst snd]; [exact K|].
  rewrite has_key_cons. cbn [cd_uniqueId]. rewrite String.eqb_refl.
  reflexivity.
Qed.

Lemma an_eligible_sweep_is_always_offered_witness :
  exists credited,
    fetchOrderForAddress Scenario.worldShared "0xd1" = Some credited
    /\ creditCalls (trace (scanTxid Scenario.worldShared Scenario.txX []))
       = [creditFor Scenario.worldShared Scenario.txX 2 credited]
    /\ has_key "ethereum/0xa1"
         (sink_after (scanTxid Scenario.worldShared Scenario.txX [])) = true.
Proof.
  apply (an_eligible_sweep_is_always_offered Scenario.worldShared Scenario.txX
           2%N Scenario.order1 []).
  - unfold Spec.passesChecks. cbn.
    repeat split; try discriminate.
    exists "0xacc0". repeat split. discriminate.
  - right. left. reflexivity.
  - reflexivity.
  - reflexivity.
Defined.

(** X17. On a page none of whose candidates raises a failure, an
    eligible deposit is recorded: if one of the first ten positive
    records resolves to a mined transaction whose block is not earlier
    than the order's (valid) creation time, which passes the checks and
    whose sender is the deposit address of an order of the native
    method, then after the page the Credit Sink holds its dedup key. *)
Theorem an_eligible_candidate_is_recorded
  ctx order orderId txs kept c tx number block price o s :
  filterPositive txs = Some kept ->
  (forall c', In c' (firstn 10 kept) ->
     completion (verifyCandidate ctx order orderId c' []) = Returned tt) ->
  In c (firstn 10 kept) ->
  getTransaction ctx (es_hash c) = Some tx ->
  blockNumber tx = Some number ->
  number <> 0%N ->
  getBlock ctx number = Some block ->
  Spec.validDate (createdAt order) ->
  (createdAt order <= Z.of_N (timestamp block) * 1000)%Z ->
  Spec.passesChecks ctx tx price ->
  In o (db ctx) ->
  depositMethod o = depositMethodId ctx ->
  depositAddress o = Some (mkDepositAddress (from_ tx)) ->
  has_key (getEthereumNativeDepositUniqueId ctx (nativeMethod ctx) (hash tx))
    (sink_after (processPage ctx order orderId txs s)) = true.
Proof.
  intros Hk Hr Hc Etx En N0 Eb V Fresh P Hin Hm Ha.
  destruct (fetchOrderForAddress_finds ctx (from_ tx) o Hin Hm Ha)
    as [credited L].
  pose proof (scanTxid_calls_when_found ctx tx price credited [] P L) as Calls.
  destruct (Steady_processPage ctx order orderId txs s) as [Hs _].
  rewrite Hs.
  change (getEthereumNativeDepositUniqueId ctx (nativeMethod ctx) (hash tx))
    with (cd_uniqueId (creditFor ctx tx price credited)).
  apply applyCalls_has_key.
  unfold processPage. rewrite Hk, bind_trace.
  cbn [logger emit trace completion sink_after fst snd creditCalls app].
  destruct (pMap_independent ctx order orderId (firstn 10 kept) s Hr)
    as [_ ->].
  apply in_flat_map. exists c. split; [exact Hc|].
  assert (T : JsDate.lt (JsDate.getTime (Z.of_N (timestamp block) * 1000))
                (JsDate.getTime (createdAt order)) = false).
  { rewrite (stale_test _ _ V). apply Z.ltb_ge, Fresh. }
  rewrite (verifyCandidate_fresh ctx order orderId c tx number block []
             Etx En N0 Eb T).
  unfold trace at 1. cbn [snd]. rewrite creditCalls_app. cbn [creditCalls app].
  rewrite Calls. left. reflexivity.
Qed.

Lemma an_eligible_candidate_is_recorded_witness :
  has_key "ethereum/0xa1"
    (sink_after
       (processPage Scenario.worldA Scenario.order1 "order-1"
          [Scenario.sumY; Scenario.sumX] []))
  = true.
Proof.
  apply (an_eligible_candidate_is_recorded Scenario.worldA Scenario.order1
           "order-1" [Scenario.sumY; Scenario.sumX]
           [Scenario.sumY; Scenario.sumX] Scenario.sumX Scenario.txX 105%N
           (mkBlock 1700000100) 2%N Scenario.order1 []).
  - reflexivity.
  - intros c [<-|[<-|[]]]; reflexivity.
  - right. left. reflexivity.
  - reflexivity.
  - reflexivity.
  - discriminate.
  - reflexivity.
  - unfold Spec.validDate. vm_compute. discriminate.
  - vm_compute. discriminate.
  - unfold Spec.passesChecks. cbn.
    repeat split; try discriminate.
    exists "0xacc0". repeat split. discriminate.
  - left. reflexivity.
  - reflexivity.
  - reflexivity.
Defined.

(** ** A value the filter cannot read *)

(** X18. A record whose value is written with the upper-case
    hexadecimal prefix is accepted by [BigNumber.from] and cannot be
    compared with zero: it makes the filter raise, so its page is
    abandoned before any candidate is resolved, whatever the other
    records of the page, and the failure leaves the loop. *)
Theorem an_upper_case_prefix_abandons_the_page
  ctx explorer order deposit orderId txs tx digits :
  In tx txs ->
  (es_value tx = String "0" (String "X" digits)
   \/ es_value tx = String "-" (String "0" (String "X" digits))) ->
  Ethers.from_text (es_value tx)
  = option_map (fun _ => Ethers.Unreadable)
      (Dec.parse_hex (String "0" (String "X" digits)))
  /\ filterPositive txs = None
  /\ (forall fuel page s,
        explorer (address deposit) (createdAtBlockNumber order) page
        = Fulfilled txs ->
        pageLoop ctx explorer (S fuel) order deposit orderId page s
        = (Threw (BigNumberError "invalid BigNumber string"), s,
           [FetchPage (address deposit) (createdAtBlockNumber order) page])).
Proof.
  intros Hin Hv.
  assert (E : Ethers.BigNumber_from (es_value tx) = None).
  { destruct (EthersFacts.BigNumber_from_upper_prefix digits) as [E1 E2].
    destruct Hv as [-> | ->]; assumption. }
  split; [|split].
  - assert (D : Dec.parse_decimal (String "0" (String "X" digits)) = None)
      by reflexivity.
    destruct Hv as [-> | ->]; unfold Ethers.from_text, Ethers.fromUnsigned;
      [change (Ascii.eqb "0" "-") with false
      |change (Ascii.eqb "-" "-") with true];
      cbv beta iota; rewrite D;
      destruct (Dec.parse_hex (String "0" (String "X" digits))); reflexivity.
  - apply (filterPositive_none txs tx Hin E).
  - intros fuel page s Hf. rewrite pageLoop_step, Hf.
    destruct txs as [|x rest]; [destruct Hin|]. cbn [List.length Nat.eqb].
    unfold processPage. rewrite (filterPositive_none _ tx Hin E). reflexivity.
Qed.

Lemma an_upper_case_prefix_abandons_the_page_witness :
  Ethers.from_text "0X10" = Some Ethers.Unreadable
  /\ filterPositive [Scenario.sumX; mkEtherscanTx "0xa4" "0xd1" "0xacc0" "0X10"]
     = None.
Proof.
  destruct (an_upper_case_prefix_abandons_the_page Scenario.worldA
              (Scenario.pages []) Scenario.order1 (mkDepositAddress "0xd1")
              "order-1"
              [Scenario.sumX; mkEtherscanTx "0xa4" "0xd1" "0xacc0" "0X10"]
              (mkEtherscanTx "0xa4" "0xd1" "0xacc0" "0X10") "10")
    as (H1 & H2 & _).
  - right. left. reflexivity.
  - left. reflexivity.
  - split; [exact H1 | exact H2].
Defined.

(** ** The order in which candidates are served *)

Lemma pMap_calls ctx order orderId cs : forall s,
  creditCalls (trace (pMap (verifyCandidate ctx order orderId) cs s))
  = flat_map
      (fun c => creditCalls (trace (verifyCandidate ctx order orderId c [])))
      cs.
Proof.
  induction cs as [|c cs IH]; intros s; cbn [pMap flat_map]; [reflexivity|].
  destruct (Steady_verifyCandidate ctx order orderId c []) as [_ K].
  destruct (K s) as [Kc _].
  unfold trace in *.
  destruct (verifyCandidate ctx order orderId c s) as [[r1 s1] t1].
  cbn [snd] in *. specialize (IH s1).
  destruct (pMap (verifyCandidate ctx order orderId) cs s1) as [[r2 s2] t2].
  cbn [snd] in *. rewrite creditCalls_app, Kc, IH. reflexivity.
Qed.

Lemma pMap_raised ctx order orderId cs : forall s e,
  completion (pMap (verifyCandidate ctx order orderId) cs s) = Threw e ->
  exists c e0,
    In c cs
    /\ completion (verifyCandidate ctx order orderId c []) = Threw e0.
Proof.
  induction cs as [|c cs IH]; intros s e; cbn [pMap]; [discriminate|].
  destruct (Steady_verifyCandidate ctx order orderId c []) as [_ K].
  destruct (K s) as [_ Kk].
  unfold completion in *.
  destruct (verifyCandidate ctx order orderId c s) as [[r1 s1] t1].
  cbn [fst] in *. specialize (IH s1).
  destruct (pMap (verifyCandidate ctx order orderId) cs s1) as [[r2 s2] t2].
  cbn [fst] in *.
  destruct r1 as [u|e1|].
  - intros H. destruct (IH e H) as (c' & e0 & Hin & Hc).
    exists c', e0. split; [right; exact Hin | exact Hc].
  - intros _. exists c.
    destruct (fst (fst (verifyCandidate ctx order orderId c []))) as [u|e0|];
      cbn [sameKind] in Kk; try contradiction.
    exists e0. split; [left; reflexivity | reflexivity].
  - discriminate.
Qed.

Lemma applyCalls_keys k calls : forall s,
  has_key k (applyCalls calls s)
  = (has_key k s
     || existsb (fun a => String.eqb (cd_uniqueId a) k) calls)%bool.
Proof.
  induction calls as [|a calls IH]; intros s; cbn [applyCalls existsb].
  - rewrite orb_false_r. reflexivity.
  - rewrite IH. destruct (has_key (cd_uniqueId a) s) eqn:K.
    + destruct (String.eqb_spec (cd_uniqueId a) k) as [<-|_];
        [rewrite K|]; reflexivity.
    + rewrite has_key_cons. rewrite orb_assoc.
      rewrite (orb_comm (String.eqb (cd_uniqueId a) k) (has_key k s)).
      reflexivity.
Qed.

Lemma existsb_Permutation {A} (f : A -> bool) l l' :
  Permutation l l' -> existsb f l = existsb f l'.
Proof.
  intros P. induction P; cbn [existsb].
  - reflexivity.
  - rewrite IHP. reflexivity.
  - rewrite !orb_assoc, (orb_comm (f y) (f x)). reflexivity.
  - congruence.
Qed.

(** X19. What the candidates of a page leave behind does not depend on
    the order in which they are served: served in any two orders, they
    make the same calls to the Credit Sink up to their order, the sink
    holds the same dedup keys afterwards, and a failure is raised in one
    order exactly when one is raised in the other. *)
Theorem served_in_any_order ctx order orderId cs cs' s :
  Permutation cs cs' ->
  Permutation
    (creditCalls (trace (pMap (verifyCandidate ctx order orderId) cs s)))
    (creditCalls (trace (pMap (verifyCandidate ctx order orderId) cs' s)))
  /\ (forall k,
        has_key k (sink_after (pMap (verifyCandidate ctx order orderId) cs s))
        = has_key k
            (sink_after (pMap (verifyCandidate ctx order orderId) cs' s)))
  /\ ((exists e,
         completion (pMap (verifyCandidate ctx order orderId) cs s) = Threw e)
      <-> (exists e,
             completion (pMap (verifyCandidate ctx order orderId) cs' s)
             = Threw e)).
Proof.
  intros P.
  assert (C : Permutation
                (creditCalls
                   (trace (pMap (verifyCandidate ctx order orderId) cs s)))
                (creditCalls
                   (trace (pMap (verifyCandidate ctx order orderId) cs' s)))).
  { rewrite !pMap_calls. apply Permutation_flat_map, P. }
  split; [exact C|]. split.
  - intros k.
    destruct (Steady_pMap (verifyCandidate ctx order orderId) cs
                (Steady_verifyCandidate ctx order orderId) s) as [-> _].
    destruct (Steady_pMap (verifyCandidate ctx order orderId) cs'
                (Steady_verifyCandidate ctx order orderId) s) as [-> _].
    rewrite !applyCalls_keys. f_equal. apply existsb_Permutation, C.
  - split; intros [e H].
    + destruct (pMap_raised ctx order orderId cs s e H) as (c & e0 & Hin & Hc).
      apply (pMap_raises ctx order orderId cs' c [] e0
               (Permutation_in c P Hin) Hc s).
    + destruct (pMap_raised ctx order orderId cs' s e H) as (c & e0 & Hin & Hc).
      apply (pMap_raises ctx order orderId cs c [] e0
               (Permutation_in c (Permutation_sym P) Hin) Hc s).
Qed.

Lemma served_in_any_order_witness :
  has_key "ethereum/0xa1"
    (sink_after
       (pMap (verifyCandidate Scenario.worldA Scenario.order1 "order-1")
          [Scenario.sumX; Scenario.sumY] []))
  = has_key "ethereum/0xa1"
      (sink_after
         (pMap (verifyCandidate Scenario.worldA Scenario.order1 "order-1")
            [Scenario.sumY; Scenario.sumX] [])).
Proof.
  destruct (served_in_any_order Scenario.worldA Scenario.order1 "order-1"
              [Scenario.sumX; Scenario.sumY] [Scenario.sumY; Scenario.sumX] [])
    as (_ & H & _).
  - apply perm_swap.
  - apply H.
Defined.
